(** * django-skd-smoke: configuration validation and test-method synthesis

    A shallow embedding of [skd_smoke/__init__.py] and the properties of its
    two entry points: [prepare_configuration], which validates and
    normalises a [TESTS_CONFIGURATION], and [GenerateTestMethodsMeta.__new__],
    which attaches the generated test methods, or the failsafe, to a class;
    and of the generated methods when the test runner calls them.

    The module is written in dynamically typed Python, so the embedding
    starts with the fragment of Python the module touches: the values a
    [TESTS_CONFIGURATION] can hold, the store of mutable lists, exceptions,
    and the built-in operations the module applies to whatever it is given.
    Python 3 behaviour is modelled ([six.string_types] is [(str,)], [bool] is
    a subclass of [int], an [int] is unbounded).

    Scope.  Values are [None], booleans, integers, strings, tuples, lists,
    dicts and callables; floats, bytes, sets and instances of user classes
    are left out.  A [str] is held as the bytes of its UTF-8 encoding: its
    characters are counted and indexed by code point, the letter case of
    ASCII text is computed, and the case mapping of any other text is that
    of the interpreter's Unicode tables.  What the interpreter and the
    libraries produce and the module only passes on (the [repr] of
    containers and strings, the wording of built-in errors, traceback
    frames, the case mapping of non-ASCII text, [==] on lists, dicts and
    callables, the answer of the type object to [setattr] on one of its own
    attributes, the longer messages of [assertEqual]), the iteration order
    of a set, the values drawn by [uuid4] and Django's status-text table
    are fields of a [runtime] record.  Attribute lookup on classes follows
    the bases depth first. *)

From stdpp Require Import gmap strings list pretty.
From Stdlib Require Import ZArith Ascii.

Set Warnings "-register-all".

(** ** Python values *)

Definition addr := nat.

(** Tuples and dicts are carried by value: the module never mutates a dict,
    and tuples are immutable.  A list is a reference into the store, because
    [test_config += ({},)] extends a list in place.  A dict is its sequence of
    items in insertion order (keys are taken to be pairwise distinct, as in
    any Python dict).  A callable carries its [__name__] when it has one:
    functions, methods and classes do, [functools.partial] objects and
    instances of classes defining [__call__] do not. *)
Inductive pyval : Type :=
| VNone
| VBool (b : bool)
| VInt (n : Z)
| VStr (s : string)
| VTuple (items : list pyval)
| VList (a : addr)
| VDict (items : list (pyval * pyval))
| VCallable (name : option string).

Abbreviation heap := (gmap addr (list pyval)).

(** Content of the list object at [a]. *)
Definition deref (h : heap) (a : addr) : list pyval := default [] (h !! a).

(** ** Exceptions and the state-and-exception monad *)

Inductive exn_type :=
| ImproperlyConfigured
| TypeError
| AttributeError
| KeyError
| IndexError
| ValueError
| AssertionError.

Record exn := Exn { exc_type : exn_type; exc_msg : string }.

(** The operations of the interpreter that can fail under the module's feet;
    the wording of their messages belongs to the interpreter. *)
Inductive builtin_error :=
| NoLen (v : pyval)                    (* len(v) *)
| BadInplaceAdd (v : pyval)            (* v += (...) *)
| NotSubscriptable (v : pyval)         (* v[i] *)
| OutOfRange (v : pyval) (i : nat)     (* v[i] *)
| MissingKey (k : pyval)               (* d[k] *)
| UnhashableSlice                      (* d[:3] on a dict *)
| NoAttribute (v : pyval) (a : string) (* v.a *)
| JoinNonString (v : pyval)            (* ', '.join with a non-str item *)
| BadUnpack (v : pyval)                (* a, b, c, d = v *)
| NotIterable (v : pyval)              (* a, b, c, d = v *)
| Unhashable (v : pyval)               (* d.get(v) *)
| ClassAttribute (a : string)          (* cls.a *)
| BadAttributeName (v : pyval)         (* setattr(cls, v, ...) *)
| ReadonlyAttribute (a : string)       (* setattr(cls, a, ...) *)
| NotCallable (v : pyval)              (* v(self) *)
| NotAMapping (v : pyval)              (* [**v] in a call *)
| BadKeywords (v : pyval).             (* [**v], a key is not a str *)

Inductive outcome (A : Type) :=
| Ret (a : A)
| Raise (e : exn)
| Exhausted.  (* iteration budget of the embedding used up; never happens *)
Arguments Ret {A} a.
Arguments Raise {A} e.
Arguments Exhausted {A}.

Definition py (A : Type) : Type := heap -> heap * outcome A.

Definition ret {A} (a : A) : py A := fun h => (h, Ret a).
Definition raise {A} (e : exn) : py A := fun h => (h, Raise e).
Definition bind {A B} (m : py A) (k : A -> py B) : py B :=
  fun h =>
    match m h with
    | (h', Ret a) => k a h'
    | (h', Raise e) => (h', Raise e)
    | (h', Exhausted) => (h', Exhausted)
    end.

Notation "'let*' x ':=' m 'in' k" := (bind m (fun x => k))
  (at level 10, x name, m at level 100, k at level 200, only parsing).
Notation "'let*' ' p ':=' m 'in' k" :=
  (bind m (fun x => match x with p => k end))
  (at level 10, p pattern, m at level 100, k at level 200, only parsing).

Definition get_heap : py heap := fun h => (h, Ret h).

(** A computation that leaves the store alone. *)
Definition lift {A} (o : outcome A) : py A := fun h => (h, o).

(** ** Strings *)

Definition dq : string := String "034"%char "".
Definition nl : string := String "010"%char "".

Definition lower_char (c : ascii) : ascii :=
  let n := nat_of_ascii c in
  if (65 <=? n)%nat && (n <=? 90)%nat then ascii_of_nat (n + 32) else c.

(** Lower-casing of the ASCII letters.  On ASCII text this is [str.lower()];
    [str_lower] below is [str.lower()] on every text. *)
Fixpoint lower (s : string) : string :=
  match s with
  | EmptyString => EmptyString
  | String c s' => String (lower_char c) (lower s')
  end.

Definition upper_char (c : ascii) : ascii :=
  let n := nat_of_ascii c in
  if (97 <=? n)%nat && (n <=? 122)%nat then ascii_of_nat (n - 32) else c.

(** Upper-casing of the ASCII letters: [str.upper()] on ASCII text. *)
Fixpoint upper (s : string) : string :=
  match s with
  | EmptyString => EmptyString
  | String c s' => String (upper_char c) (upper s')
  end.

(** The text holds ASCII characters only. *)
Definition is_ascii (s : string) : bool :=
  forallb (fun c => (nat_of_ascii c <? 128)%nat) (String.list_ascii_of_string s).

(** A byte that continues a character of the UTF-8 encoding. *)
Definition continuation (c : ascii) : bool :=
  let n := nat_of_ascii c in (128 <=? n)%nat && (n <? 192)%nat.

(** The text starts in the middle of a character. *)
Definition continues (s : string) : bool :=
  match s with
  | EmptyString => false
  | String c _ => continuation c
  end.

(** The characters of a text, each with the bytes that encode it. *)
Fixpoint chars (s : string) : list string :=
  match s with
  | EmptyString => []
  | String c s' =>
      match chars s' with
      | x :: xs =>
          if continues s' then String c x :: xs
          else String c EmptyString :: x :: xs
      | [] => [String c EmptyString]
      end
  end.

(** [s.replace(old, new)] for one-character [old] and [new]. *)
Fixpoint replace_char (old new : ascii) (s : string) : string :=
  match s with
  | EmptyString => EmptyString
  | String c s' =>
      String (if Ascii.eqb c old then new else c) (replace_char old new s')
  end.

Fixpoint lstrip_char (x : ascii) (s : string) : string :=
  match s with
  | EmptyString => EmptyString
  | String c s' => if Ascii.eqb c x then lstrip_char x s' else s
  end.

Fixpoint rstrip_char (x : ascii) (s : string) : string :=
  match s with
  | EmptyString => EmptyString
  | String c s' =>
      match rstrip_char x s' with
      | EmptyString => if Ascii.eqb c x then EmptyString else String c EmptyString
      | r => String c r
      end
  end.

(** [s.strip(x)] for a one-character [x]. *)
Definition strip_char (x : ascii) (s : string) : string :=
  rstrip_char x (lstrip_char x s).

(** [sep.join(parts)]. *)
Definition join (sep : string) (parts : list string) : string :=
  String.concat sep parts.

(** ** What the interpreter and the libraries supply *)

Record runtime := Runtime {
  (* [str()]/[repr()] of tuples, lists, dicts and callables *)
  rt_repr : heap -> pyval -> string;
  (* [__name__] of the type of a callable *)
  rt_callable_type : option string -> string;
  (* iteration order of [set(...)] built from these elements *)
  rt_set_order : list pyval -> list pyval;
  (* [str(e)] of an exception the interpreter raises *)
  rt_error_text : builtin_error -> string;
  (* the stack frames [traceback.format_exc()] prints for an exception *)
  rt_frames : exn -> string;
  (* [uuid4().int] at the k-th call *)
  rt_uuid4 : nat -> N;
  (* [django.core.handlers.wsgi.STATUS_CODE_TEXT] *)
  rt_status_text : gmap Z string;
  (* [str.lower()] and [str.upper()] of a text that is not ASCII only *)
  rt_lower : string -> string;
  rt_upper : string -> string;
  (* [==] on two lists, two dicts or two callables *)
  rt_eq : heap -> pyval -> pyval -> outcome bool;
  (* what the type object raises when [setattr] is to bind a function to
     one of its own attributes, all named [__x__]: [TypeError] for
     [__name__], [__qualname__], [__bases__] and [__class__],
     [AttributeError] for [__dict__] and [__mro__]; [None] for a name it
     accepts *)
  rt_setattr : string -> option exn_type;
  (* the message of a failing [assertEqual(first, second)] that shows a
     difference (two strings, tuples, lists or dicts) or shortens a [repr]
     of more than 80 characters *)
  rt_assert_equal : heap -> pyval -> pyval -> string
}.

(** [s.lower()] and [s.upper()]. *)
Definition str_lower (rt : runtime) (s : string) : string :=
  if is_ascii s then lower s else rt_lower rt s.

Definition str_upper (rt : runtime) (s : string) : string :=
  if is_ascii s then upper s else rt_upper rt s.

(** ** Built-ins *)

Definition is_string (v : pyval) : bool :=
  match v with VStr _ => true | _ => false end.

Definition is_int (v : pyval) : bool :=
  match v with VInt _ | VBool _ => true | _ => false end.

Definition is_dict (v : pyval) : bool :=
  match v with VDict _ => true | _ => false end.

Definition callable (v : pyval) : bool :=
  match v with VCallable _ => true | _ => false end.

Definition is_tuple_or_list (v : pyval) : bool :=
  match v with VTuple _ | VList _ => true | _ => false end.

(** Truth value of an object ([if x:], [x or y]). *)
Definition truthy (h : heap) (v : pyval) : bool :=
  match v with
  | VNone => false
  | VBool b => b
  | VInt n => negb (n =? 0)%Z
  | VStr s => negb (String.eqb s "")
  | VTuple l => negb (Nat.eqb (length l) 0)
  | VList a => negb (Nat.eqb (length (deref h a)) 0)
  | VDict d => negb (Nat.eqb (length d) 0)
  | VCallable _ => true
  end.

Definition type_name (rt : runtime) (v : pyval) : string :=
  match v with
  | VNone => "NoneType"
  | VBool _ => "bool"
  | VInt _ => "int"
  | VStr _ => "str"
  | VTuple _ => "tuple"
  | VList _ => "list"
  | VDict _ => "dict"
  | VCallable n => rt_callable_type rt n
  end.

(** [str(type(v))]. *)
Definition type_str (rt : runtime) (v : pyval) : string :=
  "<class '" +:+ type_name rt v +:+ "'>".

(** [str(v)], what [%s] inserts. *)
Definition py_str (rt : runtime) (h : heap) (v : pyval) : string :=
  match v with
  | VNone => "None"
  | VBool true => "True"
  | VBool false => "False"
  | VInt n => pretty n
  | VStr s => s
  | _ => rt_repr rt h v
  end.

(** An integer used as a dict key: [True == 1] and [False == 0] hash alike. *)
Definition int_key (k : pyval) : option Z :=
  match k with
  | VInt n => Some n
  | VBool b => Some (Z.b2z b)
  | _ => None
  end.

Fixpoint dict_get_int (d : list (pyval * pyval)) (i : Z) : option pyval :=
  match d with
  | [] => None
  | (k, v) :: d' =>
      if bool_decide (int_key k = Some i) then Some v else dict_get_int d' i
  end.

(** [d.get(key, None)] for a string key. *)
Fixpoint dict_get (d : list (pyval * pyval)) (key : string) : pyval :=
  match d with
  | [] => VNone
  | (VStr s, v) :: d' => if String.eqb s key then v else dict_get d' key
  | _ :: d' => dict_get d' key
  end.

(** The keys of a dict, in insertion order. *)
Definition dict_keys (d : list (pyval * pyval)) : list pyval := d.*1.

Section Builtins.
Variable rt : runtime.

Definition builtin_raise {A} (t : exn_type) (what : builtin_error) : py A :=
  raise (Exn t (rt_error_text rt what)).

(** [len(v)]. *)
Definition py_len (v : pyval) : py nat :=
  fun h =>
    match v with
    | VTuple l => ret (length l) h
    | VList a => ret (length (deref h a)) h
    | VStr s => ret (length (chars s)) h
    | VDict d => ret (length d) h
    | _ => builtin_raise TypeError (NoLen v) h
    end.

(** [v += ({},)]: a tuple is rebuilt, a list is extended in place. *)
Definition iadd_empty_dict (v : pyval) : py pyval :=
  fun h =>
    match v with
    | VTuple l => ret (VTuple (l ++ [VDict []])) h
    | VList a => (<[a := deref h a ++ [VDict []]]> h, Ret (VList a))
    | _ => builtin_raise TypeError (BadInplaceAdd v) h
    end.

Definition index_list (v : pyval) (l : list pyval) (i : nat) : py pyval :=
  match l !! i with
  | Some x => ret x
  | None => builtin_raise IndexError (OutOfRange v i)
  end.

(** [v[i]] for a non-negative literal index. *)
Definition getitem (v : pyval) (i : nat) : py pyval :=
  fun h =>
    match v with
    | VTuple l => index_list v l i h
    | VList a => index_list v (deref h a) i h
    | VStr s => index_list v (VStr <$> chars s) i h
    | VDict d =>
        match dict_get_int d (Z.of_nat i) with
        | Some x => ret x h
        | None => builtin_raise KeyError (MissingKey (VInt (Z.of_nat i))) h
        end
    | _ => builtin_raise TypeError (NotSubscriptable v) h
    end.

(** [v[:3]], as the list of its items. *)
Definition slice3 (v : pyval) : py (list pyval) :=
  fun h =>
    match v with
    | VTuple l => ret (take 3 l) h
    | VList a => ret (take 3 (deref h a)) h
    | VStr s => ret (take 3 (VStr <$> chars s)) h
    | VDict _ => builtin_raise TypeError UnhashableSlice h
    | _ => builtin_raise TypeError (NotSubscriptable v) h
    end.

(** [v.keys()]. *)
Definition keys (v : pyval) : py (list pyval) :=
  match v with
  | VDict d => ret (dict_keys d)
  | _ => builtin_raise AttributeError (NoAttribute v "keys")
  end.

(** [v.items()]. *)
Definition items (v : pyval) : py (list (pyval * pyval)) :=
  match v with
  | VDict d => ret d
  | _ => builtin_raise AttributeError (NoAttribute v "items")
  end.

(** The items [', '.join(vs)] joins: every one has to be a [str]. *)
Fixpoint join_strings (vs : list pyval) : outcome (list string) :=
  match vs with
  | [] => Ret []
  | VStr s :: vs' =>
      match join_strings vs' with
      | Ret ss => Ret (s :: ss)
      | other => other
      end
  | v :: _ => Raise (Exn TypeError (rt_error_text rt (JoinNonString v)))
  end.
End Builtins.

(** ** Module constants *)

Definition IMPROPERLY_BUILT_CONFIGURATION_MSG : string :=
  "Every test method config should contain three or four elements (url, " +:+
  "status, method, data=None).".

Definition EMPTY_TEST_CONFIGURATION_MSG : string :=
  "django-skd-smoke TestCase has empty TESTS_CONFIGURATION.".

Definition INCORRECT_TEST_CONFIGURATION_MSG : string :=
  "django-skd-smoke TestCase should define TESTS_CONFIGURATION list or " +:+
  "tuple.".

(** [UNSUPPORTED_CONFIGURATION_KEY_MSG % keys]. *)
Definition UNSUPPORTED_CONFIGURATION_KEY_MSG (keys : string) : string :=
  "django-skd-smoke configuration does not support those keys: " +:+ keys +:+ ".".

(** The two values [expected_type] takes. *)
Inductive pytype := string_types | int.

Record required_param := { display_name : string; expected_type : pytype }.

Definition REQUIRED_PARAMS : list required_param :=
  [ {| display_name := "url"; expected_type := string_types |};
    {| display_name := "status"; expected_type := int |};
    {| display_name := "method"; expected_type := string_types |} ].

Definition isinstance (v : pyval) (t : pytype) : bool :=
  match t with
  | string_types => is_string v
  | int => is_int v
  end.

(** [str(t)]: [six.string_types] is the one-element tuple [(str,)]. *)
Definition pytype_str (t : pytype) : string :=
  match t with
  | string_types => "(<class 'str'>,)"
  | int => "<class 'int'>"
  end.

Definition dict_or_callable (d : pyval) : bool := is_dict d || callable d.

Record type_info := { type : string; func : pyval -> bool }.

Definition NOT_REQUIRED_PARAM_TYPE_CHECK : list (string * type_info) :=
  [ ("initialize", {| type := "callable"; func := callable |});
    ("url_kwargs", {| type := "dict or callable"; func := dict_or_callable |});
    ("request_data", {| type := "dict or callable"; func := dict_or_callable |});
    ("user_credentials",
      {| type := "dict or callable"; func := dict_or_callable |}) ].

(** [INCORRECT_REQUIRED_PARAM_TYPE_MSG % (name, idx, expected, actual, value)]. *)
Definition INCORRECT_REQUIRED_PARAM_TYPE_MSG
    (name idx expected actual value : string) : string :=
  "django-skd-smoke: Configuration parameter " +:+ dq +:+ name +:+ dq +:+
  " with index=" +:+ idx +:+ " should be " +:+ expected +:+ " but is " +:+
  actual +:+ " with next value: " +:+ value +:+ ".".

(** [INCORRECT_NOT_REQUIRED_PARAM_TYPE_MSG % (name, expected, actual, value)]. *)
Definition INCORRECT_NOT_REQUIRED_PARAM_TYPE_MSG
    (name expected actual value : string) : string :=
  "django-skd-smoke: Configuration parameter " +:+ dq +:+ name +:+ dq +:+
  " should be " +:+ expected +:+ " but is " +:+
  actual +:+ " with next value: " +:+ value +:+ ".".

Definition LINK_TO_DOCUMENTATION : string :=
  "For more information please review " +:+
  "skd_smoke/tests.py or refer to project documentation on " +:+
  "https://github.com/steelkiwi/django-skd-smoke#configuration.".

(** [UNKNOWN_HTTP_METHOD_MSG % method]. *)
Definition UNKNOWN_HTTP_METHOD_MSG (method : string) : string :=
  "Your django-skd-smoke configuration defines unknown http method: " +:+
  dq +:+ method +:+ dq +:+ ".".

Definition HTTP_METHODS : gset string :=
  {[ "get"; "post"; "head"; "options"; "put"; "patch"; "detete"; "trace" ]}.

(** [INCORRECT_USER_CREDENTIALS % credentials], with [%r] already applied. *)
Definition INCORRECT_USER_CREDENTIALS (credentials : string) : string :=
  "Authentication process failed. Supplied user credentials are incorrect: " +:+
  credentials +:+ ". Ensure that related user was created successfully.".

Definition append_doc_link (error_message : string) : string :=
  error_message +:+ nl +:+ LINK_TO_DOCUMENTATION.

(** ** [prepare_configuration] *)

(** Is [k] one of [NOT_REQUIRED_PARAM_TYPE_CHECK.keys()]?  Only a [str] can
    equal a [str]. *)
Definition known_key (k : pyval) : bool :=
  match k with
  | VStr s => bool_decide (s ∈ NOT_REQUIRED_PARAM_TYPE_CHECK.*1)
  | _ => false
  end.

(** Elements of [set(ks) - set(NOT_REQUIRED_PARAM_TYPE_CHECK.keys())]. *)
Definition unknown_keys (ks : list pyval) : list pyval :=
  filter (fun k => known_key k = false) ks.

(** [enumerate(l)]. *)
Definition enumerate {A} (l : list A) : list (nat * A) :=
  zip (seq 0 (length l)) l.

(** [NOT_REQUIRED_PARAM_TYPE_CHECK[key]]. *)
Definition type_check_of (key : pyval) : option type_info :=
  match key with
  | VStr s => snd <$> List.find (fun p => String.eqb (fst p) s)
                                NOT_REQUIRED_PARAM_TYPE_CHECK
  | _ => None
  end.

Section Validation.
Variable rt : runtime.

(** The "required params check" loop (lines 114-121).  The slice has at most
    three items, so [REQUIRED_PARAMS[idx]] is always in range. *)
Definition required_errors (h : heap) (first3 : list pyval) : list string :=
  flat_map
    (fun '(idx, required_param) =>
       match REQUIRED_PARAMS !! idx with
       | Some p =>
           let required_type := expected_type p in
           if isinstance required_param required_type then []
           else [INCORRECT_REQUIRED_PARAM_TYPE_MSG
                   (display_name p) (pretty idx) (pytype_str required_type)
                   (type_str rt required_param) (py_str rt h required_param)]
       | None => []
       end)
    (enumerate first3).

(** The http method check (lines 123-126).  The allowed methods are ASCII
    words without a [k], and the Kelvin sign, which becomes [k], is the only
    character outside ASCII whose lower case is an ASCII letter: a method
    with a character outside ASCII is never an allowed one when lower-cased,
    and for the others [lower] is [str.lower()]. *)
Definition method_errors (http_method : pyval) : list string :=
  match http_method with
  | VStr m =>
      if bool_decide (lower m ∈ HTTP_METHODS) then []
      else [UNKNOWN_HTTP_METHOD_MSG m]
  | _ => []
  end.

(** The "not required params check" loop (lines 130-137). *)
Fixpoint optional_errors (h : heap) (kvs : list (pyval * pyval))
    : outcome (list string) :=
  match kvs with
  | [] => Ret []
  | (key, value) :: kvs' =>
      match type_check_of key with
      | None => Raise (Exn KeyError (rt_error_text rt (MissingKey key)))
      | Some type_info =>
          let here :=
            if func type_info value then []
            else [INCORRECT_NOT_REQUIRED_PARAM_TYPE_MSG
                    (py_str rt h key) (type type_info)
                    (type_str rt value) (py_str rt h value)] in
          match optional_errors h kvs' with
          | Ret rest => Ret (here ++ rest)
          | other => other
          end
      end
  end.

(** Lines 94-109: the length dispatch.  Returns the rebound [test_config]
    and [check_dict]. *)
Definition normalize_length (test_config : pyval) : py (pyval * bool) :=
  let* n := py_len rt test_config in
  if Nat.eqb n 3 then
    let* test_config := iadd_empty_dict rt test_config in
    ret (test_config, false)
  else if Nat.eqb n 4 then
    let* options := getitem rt test_config 3 in
    let* ks := keys rt options in
    let diff := unknown_keys ks in
    match diff with
    | _ :: _ =>
        let* names := lift (join_strings rt (rt_set_order rt diff)) in
        raise (Exn ImproperlyConfigured
                 (append_doc_link
                    (UNSUPPORTED_CONFIGURATION_KEY_MSG (join ", " names))))
    | [] => ret (test_config, true)
    end
  else
    raise (Exn ImproperlyConfigured
             (append_doc_link IMPROPERLY_BUILT_CONFIGURATION_MSG)).

(** The body of the loop over [tests_configuration] (lines 94-143); the
    result is the value appended to [confs]. *)
Definition prepare_test_config (test_config : pyval) : py pyval :=
  let* '(test_config, check_dict) := normalize_length test_config in
  let* first3 := slice3 rt test_config in
  let* h := get_heap in
  let type_errors := required_errors h first3 in
  let* http_method := getitem rt test_config 2 in
  let type_errors := type_errors ++ method_errors http_method in
  let* type_errors :=
    (if check_dict : bool then
       let* options := getitem rt test_config 3 in
       let* kvs := items rt options in
       let* h := get_heap in
       let* more := lift (optional_errors h kvs) in
       ret (type_errors ++ more)
     else ret type_errors) in
  match type_errors with
  | _ :: _ =>
      raise (Exn ImproperlyConfigured
               (join nl (type_errors ++ [LINK_TO_DOCUMENTATION])))
  | [] => ret test_config
  end.

(** Items of a tuple or list, as the iterator of [for] reads them. *)
Definition seq_items (h : heap) (v : pyval) : list pyval :=
  match v with
  | VTuple l => l
  | VList a => deref h a
  | _ => []
  end.

(** [for test_config in tests_configuration: ...; confs.append(...)].  The
    iterator reads position [i] of the live object at every step;
    [budget] bounds the number of steps for the benefit of the termination
    checker. *)
Fixpoint for_each_config (budget : nat) (tests_configuration : pyval)
    (i : nat) (confs : list pyval) : py (list pyval) :=
  fun h =>
    match seq_items h tests_configuration !! i with
    | None => ret confs h
    | Some test_config =>
        match budget with
        | 0 => (h, Exhausted)
        | S budget' =>
            (let* conf := prepare_test_config test_config in
             for_each_config budget' tests_configuration (S i)
                             (confs ++ [conf])) h
        end
    end.

Definition prepare_configuration (tests_configuration : pyval)
    : py (list pyval) :=
  if is_tuple_or_list tests_configuration then
    let* h := get_heap in
    let budget := Nat.max 4 (length (seq_items h tests_configuration)) in
    let* confs := for_each_config budget tests_configuration 0 [] in
    match confs with
    | [] =>
        raise (Exn ImproperlyConfigured
                 (append_doc_link EMPTY_TEST_CONFIGURATION_MSG))
    | _ :: _ => ret confs
    end
  else
    raise (Exn ImproperlyConfigured
             (append_doc_link INCORRECT_TEST_CONFIGURATION_MSG)).
End Validation.

(** ** Names and doc strings of the generated methods *)

Definition hex_digit (n : N) : ascii :=
  match n with
  | 0 => "0" | 1 => "1" | 2 => "2" | 3 => "3" | 4 => "4" | 5 => "5"
  | 6 => "6" | 7 => "7" | 8 => "8" | 9 => "9" | 10 => "a" | 11 => "b"
  | 12 => "c" | 13 => "d" | 14 => "e" | _ => "f"
  end%N%char.

(** The [k] low hexadecimal digits of [n], most significant first. *)
Fixpoint hex_digits (k : nat) (n : N) : string :=
  match k with
  | 0 => ""
  | S k' => hex_digits k' (n / 16) +:+ String (hex_digit (n mod 16)) ""
  end.

(** [UUID.hex] is ['%032x' % self.int]. *)
Definition uuid_hex (n : N) : string := hex_digits 32 n.

(** A tuple is hashable when its items are; lists and dicts are not. *)
Fixpoint hashable (v : pyval) : bool :=
  match v with
  | VList _ | VDict _ => false
  | VTuple l => forallb hashable l
  | _ => true
  end.

Section Naming.
Variable rt : runtime.

(** The receiver of a [str] method. *)
Definition as_str (v : pyval) (meth : string) : py string :=
  match v with
  | VStr s => ret s
  | _ => builtin_raise rt AttributeError (NoAttribute v meth)
  end.

(** [repr(v)], what [%r] inserts. *)
Definition py_repr (h : heap) (v : pyval) : string :=
  match v with
  | VStr _ => rt_repr rt h v
  | _ => py_str rt h v
  end.

(** [prepare_test_name]; [uuid] is the value [uuid4()] draws. *)
Definition prepare_test_name (urlname method status : pyval) (uuid : N)
    : py string :=
  let* u := as_str urlname "replace" in
  let prepared_url :=
    replace_char "/" "_" (strip_char "/" (replace_char ":" "_" u)) in
  let* m := as_str method "lower" in
  let prepared_method := str_lower rt m in
  let* h := get_heap in
  ret ("test_smoke_" +:+ prepared_url +:+ "_" +:+ prepared_method +:+ "_" +:+
       py_str rt h status +:+ "_" +:+ uuid_hex uuid).

(** [prepare_test_method_doc]. *)
Definition prepare_test_method_doc
    (method urlname status : pyval) (status_text : string) (data : pyval)
    : py string :=
  let* data :=
    (if callable data then
       match data with
       | VCallable (Some name) => ret (VStr name)
       | _ => builtin_raise rt AttributeError (NoAttribute data "__name__")
       end
     else
       let* h := get_heap in
       ret (if truthy h data then data else VDict [])) in
  let* m := as_str method "upper" in
  let* h := get_heap in
  ret (str_upper rt m +:+ " " +:+ py_str rt h urlname +:+ " " +:+
       py_str rt h status +:+
       " " +:+ dq +:+ status_text +:+ dq +:+ " " +:+ py_repr h data).

(** [STATUS_CODE_TEXT.get(status, 'UNKNOWN')]. *)
Definition status_text_of (status : pyval) : py string :=
  if hashable status then
    ret (match int_key status with
         | Some code => default "UNKNOWN" (rt_status_text rt !! code)
         | None => "UNKNOWN"
         end)
  else builtin_raise rt TypeError (Unhashable status).

(** [traceback.format_exc()] while [e] is being handled. *)
Definition exn_type_name (t : exn_type) : string :=
  match t with
  | ImproperlyConfigured => "django.core.exceptions.ImproperlyConfigured"
  | TypeError => "TypeError"
  | AttributeError => "AttributeError"
  | KeyError => "KeyError"
  | IndexError => "IndexError"
  | ValueError => "ValueError"
  | AssertionError => "AssertionError"
  end.

Definition format_exc (e : exn) : string :=
  "Traceback (most recent call last):" +:+ nl +:+ rt_frames rt e +:+
  exn_type_name (exc_type e) +:+ ": " +:+ exc_msg e +:+ nl.
End Naming.

(** ** Generated methods *)

(** The two closures the module builds, with the variables they capture. *)
Inductive closure :=
| fail_method (exception_stacktrace : string)
| new_test_method
    (urlname status method initialize url_kwargs request_data
     user_credentials : pyval).

(** A function object: [__name__], [__doc__] and its code. *)
Record function := Function {
  fn_name : string;
  fn_doc : option string;
  fn_code : closure
}.

Definition generate_fail_test_method (exception_stacktrace : string)
    : function :=
  Function "fail_method" None (fail_method exception_stacktrace).

Definition generate_test_method
    (urlname status method initialize url_kwargs request_data
     user_credentials : pyval) : function :=
  Function "new_test_method" None
    (new_test_method urlname status method initialize url_kwargs request_data
                     user_credentials).

Definition set_name (f : function) (name : string) : function :=
  Function name (fn_doc f) (fn_code f).

Definition set_doc (f : function) (doc : string) : function :=
  Function (fn_name f) (Some doc) (fn_code f).

(** What a test-case instance offers to a running test method: the host
    framework's collaborators, the effect of calling a callable of the
    configuration with the instance, and its [longMessage] attribute
    ([True] unless a test case sets it otherwise).  [tc_resolve_url self
    urlname kwargs] is [resolve_url] called with [urlname] and [**kwargs],
    [tc_login self credentials] is [self.client.login] called with
    [**credentials], for keyword arguments the interpreter accepts. *)
Record testcase := TestCaseInstance {
  tc_call : pyval -> outcome pyval;
  tc_resolve_url : pyval -> pyval -> outcome pyval;
  tc_login : pyval -> outcome pyval;
  (* [getattr(self.client, name)], a function of the url and the data that
     gives the [status_code] of the response *)
  tc_client : string -> outcome (pyval -> pyval -> outcome pyval);
  tc_longMessage : bool
}.

Definition obind {A B} (o : outcome A) (k : A -> outcome B) : outcome B :=
  match o with
  | Ret a => k a
  | Raise e => Raise e
  | Exhausted => Exhausted
  end.

Section Running.
Variable rt : runtime.
Variable h : heap.

(** [x(self)]. *)
Definition call (self : testcase) (x : pyval) : outcome pyval :=
  if callable x then tc_call self x
  else Raise (Exn TypeError (rt_error_text rt (NotCallable x))).

(** [x(self) if callable(x) else (x or {})]. *)
Definition resolve_source (self : testcase) (x : pyval) : outcome pyval :=
  if callable x then tc_call self x
  else Ret (if truthy h x then x else VDict []).

(** A call of [f] with [**kwargs]: the keyword arguments come from a
    mapping whose keys are strings. *)
Definition with_kwargs {A} (kwargs : pyval) (f : pyval -> outcome A)
    : outcome A :=
  match kwargs with
  | VDict d =>
      if forallb is_string (dict_keys d) then f kwargs
      else Raise (Exn TypeError (rt_error_text rt (BadKeywords kwargs)))
  | _ => Raise (Exn TypeError (rt_error_text rt (NotAMapping kwargs)))
  end.

(** [a == b].  An [int] or [bool] equals the numbers of its value, [None]
    equals itself, strings are equal as texts, tuples item by item up to the
    first difference; a list equals itself, and the interpreter compares two
    lists otherwise, two dicts and two callables. *)
Fixpoint py_eq (a b : pyval) : outcome bool :=
  match a, b with
  | VNone, VNone => Ret true
  | VStr s, VStr t => Ret (String.eqb s t)
  | VTuple l, VTuple l' =>
      (fix items (l l' : list pyval) : outcome bool :=
         match l, l' with
         | [], [] => Ret true
         | x :: l, y :: l' =>
             obind (py_eq x y) (fun equal =>
             if equal : bool then items l l' else Ret false)
         | _, _ => Ret false
         end) l l'
  | VList r, VList r' => if Nat.eqb r r' then Ret true else rt_eq rt h a b
  | VDict _, VDict _ => rt_eq rt h a b
  | VCallable _, VCallable _ => rt_eq rt h a b
  | _, _ =>
      Ret (match int_key a, int_key b with
           | Some x, Some y => (x =? y)%Z
           | _, _ => false
           end)
  end.

(** [self._formatMessage(msg, standardMsg)] for a [msg] that is a [str]. *)
Definition format_message (self : testcase) (msg standardMsg : string)
    : string :=
  if tc_longMessage self then standardMsg +:+ " : " +:+ msg
  else if String.eqb msg "" then standardMsg else msg.

(** [self.assertTrue(expr, msg)]. *)
Definition assertTrue (self : testcase) (expr : pyval) (msg : string)
    : outcome unit :=
  if truthy h expr then Ret tt
  else Raise (Exn AssertionError
                (format_message self msg
                   (py_repr rt h expr +:+ " is not true"))).

(** The pairs for which [assertEqual] has a comparison of its own, whose
    message shows the difference. *)
Definition shows_difference (first second : pyval) : bool :=
  match first, second with
  | VStr _, VStr _ | VTuple _, VTuple _ | VList _, VList _
  | VDict _, VDict _ => true
  | _, _ => false
  end.

(** The message of a failing [assertEqual(first, second)]. *)
Definition assert_equal_msg (first second : pyval) : string :=
  let r1 := py_repr rt h first in
  let r2 := py_repr rt h second in
  if shows_difference first second
     || (80 <? length (chars r1))%nat || (80 <? length (chars r2))%nat
  then rt_assert_equal rt h first second
  else r1 +:+ " != " +:+ r2.

(** [self.assertEqual(first, second)]. *)
Definition assertEqual (first second : pyval) : outcome unit :=
  obind (py_eq first second) (fun equal =>
  if equal : bool then Ret tt
  else Raise (Exn AssertionError (assert_equal_msg first second))).

(** Calling a generated method on a test-case instance. *)
Definition call_method (f : function) (self : testcase) : outcome unit :=
  match fn_code f with
  | fail_method exception_stacktrace =>
      (* self.fail(exception_stacktrace) *)
      Raise (Exn AssertionError exception_stacktrace)
  | new_test_method urlname status method initialize url_kwargs
                    request_data user_credentials =>
      obind (if truthy h initialize then call self initialize
             else Ret VNone) (fun _ =>
      obind (resolve_source self url_kwargs) (fun prepared_url_kwargs =>
      obind (with_kwargs prepared_url_kwargs (tc_resolve_url self urlname))
            (fun resolved_url =>
      obind (if truthy h user_credentials then
               obind (if callable user_credentials
                      then tc_call self user_credentials
                      else Ret user_credentials) (fun credentials =>
               obind (with_kwargs credentials (tc_login self))
                     (fun logged_in =>
               assertTrue self logged_in
                 (INCORRECT_USER_CREDENTIALS (py_repr rt h credentials))))
             else Ret tt) (fun _ =>
      match method with
      | VStr m =>
          obind (tc_client self (str_lower rt m)) (fun function =>
          obind (resolve_source self request_data) (fun prepared_data =>
          obind (function resolved_url prepared_data) (fun status_code =>
          assertEqual status_code status)))
      | _ => Raise (Exn AttributeError
                      (rt_error_text rt (NoAttribute method "lower")))
      end))))
  end.
End Running.

(** ** Classes and the metaclass *)

Inductive attr :=
| AValue (v : pyval)
| AFunction (f : function).

(** A class object: its name, bases, whether it is an instance of
    [GenerateTestMethodsMeta], and its own [__dict__]. *)
Inductive pyclass :=
| Class (name : string) (bases : list pyclass) (meta : bool)
        (dict : gmap string attr).

Definition cls_name (c : pyclass) := let 'Class n _ _ _ := c in n.
Definition cls_bases (c : pyclass) := let 'Class _ b _ _ := c in b.
Definition cls_meta (c : pyclass) := let 'Class _ _ m _ := c in m.
Definition cls_dict (c : pyclass) := let 'Class _ _ _ d := c in d.

(** Attribute lookup on a class: its own [__dict__], then its bases from
    left to right, depth first (the method resolution order of every
    hierarchy without diamonds). *)
Fixpoint class_lookup (c : pyclass) (a : string) : option attr :=
  match c with
  | Class _ bases _ dict =>
      match dict !! a with
      | Some x => Some x
      | None =>
          (fix through (bs : list pyclass) : option attr :=
             match bs with
             | [] => None
             | b :: bs' =>
                 match class_lookup b a with
                 | Some x => Some x
                 | None => through bs'
                 end
             end) bases
      end
  end.

(** The value an attribute reads as. *)
Definition attr_value (x : attr) : pyval :=
  match x with
  | AValue v => v
  | AFunction f => VCallable (Some (fn_name f))
  end.

(** The functions in the class's own [__dict__]: what the metaclass
    attached, since a class body holds plain values. *)
Definition generated_methods (c : pyclass) : gmap string function :=
  omap (fun x => match x with AFunction f => Some f | AValue _ => None end)
       (cls_dict c).

Section Metaclass.
Variable rt : runtime.

(** [cls.a]. *)
Definition class_getattr (cls : pyclass) (a : string) : py pyval :=
  match class_lookup cls a with
  | Some x => ret (attr_value x)
  | None => builtin_raise rt AttributeError (ClassAttribute a)
  end.

(** The class with [f] bound to [name] in its own [__dict__]. *)
Definition class_setattr (cls : pyclass) (name : string) (f : function)
    : pyclass :=
  Class (cls_name cls) (cls_bases cls) (cls_meta cls)
        (<[name := AFunction f]> (cls_dict cls)).

(** What [setattr(cls, name, f)] raises for a [str] name: the attributes
    the type object keeps for itself are all named [__x__], and any other
    name is accepted. *)
Definition setattr_error (name : string) : option exn_type :=
  if String.prefix "__" name then rt_setattr rt name else None.

(** [setattr(cls, name, f)] with the name already known to be a [str]. *)
Definition setattr (cls : pyclass) (name : string) (f : function)
    : py pyclass :=
  match setattr_error name with
  | Some t => builtin_raise rt t (ReadonlyAttribute name)
  | None => ret (class_setattr cls name f)
  end.

(** What iterating over [v] yields: the items of a tuple or list, the
    characters of a string, the keys of a dict. *)
Definition iterate (h : heap) (v : pyval) : option (list pyval) :=
  match v with
  | VTuple l => Some l
  | VList a => Some (deref h a)
  | VStr s => Some (VStr <$> chars s)
  | VDict d => Some (dict_keys d)
  | _ => None
  end.

(** [a, b, c, d = v]. *)
Definition unpack4 (v : pyval) : py (pyval * pyval * pyval * pyval) :=
  fun h =>
    match iterate h v with
    | Some [a; b; c; d] => ret (a, b, c, d) h
    | Some _ => builtin_raise rt ValueError (BadUnpack v) h
    | None => builtin_raise rt TypeError (NotIterable v) h
    end.

(** [data.get(key, None)]. *)
Definition get_option (data : pyval) (key : string) : py pyval :=
  match data with
  | VDict d => ret (dict_get d key)
  | _ => builtin_raise rt AttributeError (NoAttribute data "get")
  end.

(** The body of the [else] loop (lines 296-313) for one entry; [calls]
    counts the [uuid4()] calls made so far. *)
Definition attach_test_method (cls : pyclass) (calls : nat) (conf : pyval)
    : py (pyclass * nat) :=
  let* '(urlname, status, method, data) := unpack4 conf in
  let* initialize := get_option data "initialize" in
  let* get_url_kwargs := get_option data "url_kwargs" in
  let* request_data := get_option data "request_data" in
  let* get_user_credentials := get_option data "user_credentials" in
  let* status_text := status_text_of rt status in
  let* test_method_name :=
    prepare_test_name rt urlname method status (rt_uuid4 rt calls) in
  let test_method :=
    generate_test_method urlname status method initialize get_url_kwargs
                         request_data get_user_credentials in
  let test_method := set_name test_method test_method_name in
  let* doc :=
    prepare_test_method_doc rt method urlname status status_text
                            request_data in
  let test_method := set_doc test_method doc in
  let* cls := setattr cls test_method_name test_method in
  ret (cls, S calls).

Fixpoint attach_test_methods (cls : pyclass) (calls : nat)
    (config : list pyval) : py (pyclass * nat) :=
  match config with
  | [] => ret (cls, calls)
  | conf :: config' =>
      let* '(cls, calls) := attach_test_method cls calls conf in
      attach_test_methods cls calls config'
  end.

(** The [except Exception] handler (lines 290-294). *)
Definition attach_fail_method (cls : pyclass) (e : exn) : py pyclass :=
  let fail_method := generate_fail_test_method (format_exc rt e) in
  let* fail_method_name := class_getattr cls "FAIL_METHOD_NAME" in
  let* h := get_heap in
  let fail_method := set_name fail_method (py_str rt h fail_method_name) in
  match fail_method_name with
  | VStr name => setattr cls name fail_method
  | _ => builtin_raise rt TypeError (BadAttributeName fail_method_name)
  end.

(** The body of the [try] (line 288):
    [prepare_configuration(cls.TESTS_CONFIGURATION)]. *)
Definition validate_class (cls : pyclass) : py (list pyval) :=
  let* tests_configuration := class_getattr cls "TESTS_CONFIGURATION" in
  prepare_configuration rt tests_configuration.

(** [GenerateTestMethodsMeta.__new__(mcs, name, bases, attrs)].  The class
    body [attrs] holds plain values; [except Exception] catches every
    exception of the embedding. *)
Definition meta_new (calls : nat) (name : string) (bases : list pyclass)
    (attrs : gmap string pyval) : py (pyclass * nat) :=
  let cls := Class name bases true (AValue <$> attrs) in
  let parents := filter (fun b => cls_meta b = true) bases in
  match parents with
  | [] => ret (cls, calls)
  | _ :: _ =>
      fun h =>
        match validate_class cls h with
        | (h', Raise e) =>
            (let* cls := attach_fail_method cls e in ret (cls, calls)) h'
        | (h', Ret config) => attach_test_methods cls calls config h'
        | (h', Exhausted) => (h', Exhausted)
        end
  end.

(** [class SmokeTestCase(six.with_metaclass(GenerateTestMethodsMeta,
    TestCase))]: [with_metaclass] has the metaclass build the class with
    [TestCase] as its only base. *)
Definition FAIL_METHOD_NAME : string := "test_fail_cause_bad_configuration".

Definition SmokeTestCase_attrs : gmap string pyval :=
  {[ "TESTS_CONFIGURATION" := VNone;
     "FAIL_METHOD_NAME" := VStr FAIL_METHOD_NAME ]}.

Definition define_SmokeTestCase (calls : nat) (TestCase : pyclass)
    : py (pyclass * nat) :=
  meta_new calls "SmokeTestCase" [TestCase] SmokeTestCase_attrs.
End Metaclass.

(** ** A concrete runtime and the host's [TestCase], for examples

    [TestCase] stands for Django's class: it is not built by the metaclass,
    and its own attributes play no part here.  The examples hold ASCII text
    and compare numbers: the runtime leaves other text as it is, knows the
    [repr] of strings and of [{}] only, and finds no two containers equal
    but two empty dicts. *)

Definition demo_rt : runtime :=
  {| rt_repr := fun _ v =>
       match v with
       | VStr s => "'" +:+ s +:+ "'"
       | VDict [] => "{}"
       | _ => "<object>"
       end;
     rt_callable_type := fun _ => "function";
     rt_set_order := fun l => l;
     rt_error_text := fun _ => "builtin error";
     rt_frames := fun _ => "";
     rt_uuid4 := fun k => (N.of_nat k mod 2 ^ 128)%N;
     rt_status_text := {[ 200%Z := "OK"; 404%Z := "NOT FOUND" ]};
     rt_lower := fun s => s;
     rt_upper := fun s => s;
     rt_eq := fun _ a b =>
       match a, b with
       | VDict [], VDict [] => Ret true
       | _, _ => Ret false
       end;
     rt_setattr := fun name =>
       if bool_decide (name ∈ ["__name__"; "__qualname__"; "__bases__";
                               "__class__"])
       then Some TypeError
       else if bool_decide (name ∈ ["__dict__"; "__mro__"])
       then Some AttributeError
       else None;
     rt_assert_equal := fun _ _ _ => "the values differ" |}.

Definition TestCase : pyclass := Class "TestCase" [] false ∅.

(** [SmokeTestCase] as [define_SmokeTestCase] builds it. *)
Definition SmokeTestCase : pyclass :=
  Class "SmokeTestCase" [TestCase] true (AValue <$> SmokeTestCase_attrs).

(** * Vocabulary of the statements *)

(** ** What the entry checks decide *)

(** The first three fields raise no type error: a [str], an [int], and a
    [str] that is an allowed method when lower-cased. *)
Definition fields_ok (a b c : pyval) : Prop :=
  is_string a = true ∧ is_int b = true ∧
  ∃ m, c = VStr m ∧ lower m ∈ HTTP_METHODS.

(** An option has a recognized key and a value its predicate accepts. *)
Definition option_ok (kv : pyval * pyval) : Prop :=
  ∃ ti, type_check_of kv.1 = Some ti ∧ func ti kv.2 = true.

(** The end of the loop body: raise the lines collected, followed by the
    documentation link, or append the entry. *)
Definition entry_verdict (errs : list string) (conf : pyval) : outcome pyval :=
  match errs with
  | [] => Ret conf
  | _ :: _ =>
      Raise (Exn ImproperlyConfigured
               (join nl (errs ++ [LINK_TO_DOCUMENTATION])))
  end.

(** What becomes of a four-item entry whose options hold unknown keys. *)
Definition unsupported_verdict (rt : runtime) (diff : list pyval)
    : outcome pyval :=
  match join_strings rt (rt_set_order rt diff) with
  | Ret names =>
      Raise (Exn ImproperlyConfigured
               (append_doc_link
                  (UNSUPPORTED_CONFIGURATION_KEY_MSG (join ", " names))))
  | Raise e => Raise e
  | Exhausted => Exhausted
  end.

(** [e] is a tuple or list of three items, or of four items whose last is a
    dict with recognized keys only; [opts] are the options to check. *)
Definition entry_fields (h : heap) (e a b c : pyval)
    (opts : list (pyval * pyval)) : Prop :=
  is_tuple_or_list e = true ∧
  ((seq_items h e = [a; b; c] ∧ opts = []) ∨
   (seq_items h e = [a; b; c; VDict opts] ∧
    unknown_keys (dict_keys opts) = [])).

(** The lines the entry checks produce, before the documentation link. *)
Definition entry_errors (rt : runtime) (h : heap) (a b c : pyval)
    (opts : list (pyval * pyval)) : list string :=
  (required_errors rt h [a; b; c] ++ method_errors c) ++
  match optional_errors rt h opts with
  | Ret more => more
  | _ => []
  end.

(** The lines for a mistyped [url], [status] and [method]. *)
Definition url_problem rt h (a : pyval) : string :=
  INCORRECT_REQUIRED_PARAM_TYPE_MSG "url" "0" (pytype_str string_types)
    (type_str rt a) (py_str rt h a).

Definition status_problem rt h (b : pyval) : string :=
  INCORRECT_REQUIRED_PARAM_TYPE_MSG "status" "1" (pytype_str int)
    (type_str rt b) (py_str rt h b).

Definition method_problem rt h (c : pyval) : string :=
  INCORRECT_REQUIRED_PARAM_TYPE_MSG "method" "2" (pytype_str string_types)
    (type_str rt c) (py_str rt h c).

(** The aggregated message [msg] lists [problem]: it is the lines of the
    problems found, then the documentation link. *)
Definition reports (msg problem : string) : Prop :=
  ∃ errs, problem ∈ errs ∧ msg = join nl (errs ++ [LINK_TO_DOCUMENTATION]).

(** One line of the aggregated message: a mistyped required field, an
    unknown http method, or an option value that fails its check. *)
Definition problem_line (l : string) : Prop :=
  (∃ name idx expected actual value,
     l = INCORRECT_REQUIRED_PARAM_TYPE_MSG name idx expected actual value) ∨
  (∃ m, l = UNKNOWN_HTTP_METHOD_MSG m) ∨
  (∃ name expected actual value,
     l = INCORRECT_NOT_REQUIRED_PARAM_TYPE_MSG name expected actual value).

(** The texts an entry is rejected with, before the documentation link: the
    improperly-built message, the unsupported-keys message, or problem lines
    joined by newlines. *)
Definition entry_problem (body : string) : Prop :=
  body = IMPROPERLY_BUILT_CONFIGURATION_MSG ∨
  (∃ names, body = UNSUPPORTED_CONFIGURATION_KEY_MSG (join ", " names)) ∨
  (∃ errs, errs ≠ [] ∧ Forall problem_line errs ∧ body = join nl errs).

(** The set iteration order supplied by the runtime lists exactly the
    elements it is given. *)
Definition set_order_ok (rt : runtime) : Prop :=
  ∀ l, rt_set_order rt l ≡ₚ l.

(** An entry of the documented shape: a tuple or list whose fourth item, if
    it has four, is a dict with string keys. *)
Definition entry_shaped (h : heap) (e : pyval) : Prop :=
  is_tuple_or_list e = true ∧
  ∀ a b c o, seq_items h e = [a; b; c; o] →
    ∃ d, o = VDict d ∧ Forall (λ k, is_string k = true) (dict_keys d).

(** ** The store along a run *)

(** The computation leaves the store as it found it. *)
Definition pure {A} (m : py A) : Prop :=
  ∀ h h' o, m h = (h', o) → h' = h.

(** The computation returns or raises within the iteration budget. *)
Definition terminates {A} (m : py A) : Prop := ∀ h, (m h).2 ≠ Exhausted.

(** How a passing three-item entry [e] relates to the value [conf] appended
    to [confs]: a tuple is rebuilt with [{}] appended, a list is the same
    object, extended in the store. *)
Definition extended (h h' : heap) (e conf : pyval) : Prop :=
  match e with
  | VTuple l => conf = VTuple (l ++ [VDict []]) ∧ h' = h
  | VList r => conf = VList r ∧ h' = <[r := deref h r ++ [VDict []]]> h
  | _ => False
  end.

(** The store [h] differs from [h0] at most by three-item lists that were
    extended with [{}]. *)
Definition grown (h0 h : heap) : Prop :=
  ∀ r, h !! r = h0 !! r ∨
       (length (deref h0 r) = 3 ∧ h !! r = Some (deref h0 r ++ [VDict []])).

(** Along a run in which every entry so far has passed, a list that was
    extended had valid fields. *)
Definition grown_ok (h0 h : heap) : Prop :=
  ∀ r, h !! r = h0 !! r ∨
       ∃ a b c, deref h0 r = [a; b; c] ∧ fields_ok a b c ∧
                h !! r = Some [a; b; c; VDict []].

(** Entry [e] of the initial store has passed and [conf] was appended for
    it. *)
Definition passed (h0 h : heap) (e conf : pyval) : Prop :=
  (∃ a b c, seq_items h0 e = [a; b; c] ∧ fields_ok a b c ∧
     match e with
     | VTuple l => conf = VTuple (l ++ [VDict []])
     | VList r => conf = VList r ∧ deref h r = [a; b; c; VDict []]
     | _ => False
     end) ∨
  (∃ a b c d, is_tuple_or_list e = true ∧
     seq_items h0 e = [a; b; c; VDict d] ∧ fields_ok a b c ∧
     Forall option_ok d ∧ conf = e ∧ seq_items h e = seq_items h0 e).

(** The loop invariant before position [i] is read: the store has grown
    from [h0] by passing entries only, the configuration object itself is
    as it was, and [confs] holds what the first [i] entries became. *)
Record loop_inv (h0 : heap) (tc : pyval) (i : nat) (confs : list pyval)
    (h : heap) : Prop := LoopInv {
  inv_grown : grown_ok h0 h;
  inv_config : seq_items h tc = seq_items h0 tc;
  inv_confs : Forall2 (passed h0 h) (take i (seq_items h0 tc)) confs
}.

(** Validation gets from position [i] to position [j]: every entry in
    between passes. *)
Inductive reaches (rt : runtime) (tc : pyval)
    : nat → list pyval → heap → nat → list pyval → heap → Prop :=
| reaches_here i confs h : reaches rt tc i confs h i confs h
| reaches_next i confs h e h1 conf j confs' h' :
    seq_items h tc !! i = Some e →
    prepare_test_config rt e h = (h1, Ret conf) →
    reaches rt tc (S i) (confs ++ [conf]) h1 j confs' h' →
    reaches rt tc i confs h j confs' h'.

(** How a returned entry [conf] relates to the entry [e] it was made from:
    [h] is the store before the call, [h'] the store after it. *)
Definition normalised (h h' : heap) (e conf : pyval) : Prop :=
  is_tuple_or_list conf = true ∧
  ((length (seq_items h e) = 3 ∧
    seq_items h' conf = seq_items h e ++ [VDict []]) ∨
   (length (seq_items h e) = 4 ∧ conf = e ∧
    seq_items h' conf = seq_items h e)).

(** The store [h] differs from [h0] at most at entries of the configuration
    [tc] that were lists of three items, extended with [{}]. *)
Definition footprint (h0 : heap) (tc : pyval) (h : heap) : Prop :=
  ∀ r, h !! r = h0 !! r ∨
       (VList r ∈ seq_items h0 tc ∧ length (deref h0 r) = 3 ∧
        h !! r = Some (deref h0 r ++ [VDict []])).

(** An entry of four items that passes every check, in the store [h]. *)
Definition settled (h : heap) (conf : pyval) : Prop :=
  ∃ a b c d, is_tuple_or_list conf = true ∧
    seq_items h conf = [a; b; c; VDict d] ∧ fields_ok a b c ∧
    Forall option_ok d.

(** An entry of the documented form: a tuple of a url, a status and a
    method, with or without a dict of options. *)
Definition valid_tuple_entry (e : pyval) : Prop :=
  ∃ a b c, fields_ok a b c ∧
    (e = VTuple [a; b; c] ∨
     ∃ d, e = VTuple [a; b; c; VDict d] ∧ Forall option_ok d).

(** What [prepare_configuration] returns for a tuple entry. *)
Definition normalise_tuple (e : pyval) : pyval :=
  match e with
  | VTuple [a; b; c] => VTuple [a; b; c; VDict []]
  | _ => e
  end.

(** ** Names *)

(** The slug of a urlname in the words of the documentation: leading and
    trailing slashes are stripped, then every colon and every slash becomes
    an underscore. *)
Fixpoint underscore_colons_and_slashes (s : string) : string :=
  match s with
  | EmptyString => EmptyString
  | String c s' =>
      String (if Ascii.eqb c ":" || Ascii.eqb c "/" then "_"%char else c)
             (underscore_colons_and_slashes s')
  end.

(** The slug as the documentation describes it. *)
Definition spec_slug (urlname : string) : string :=
  underscore_colons_and_slashes (strip_char "/" urlname).



(** [low] is [m] with each of the letters [A] to [Z] (codes 65 to 90)
    replaced by the small letter, 32 codes further, and every other
    character kept. *)
Definition lower_cased (m low : string) : Prop :=
  String.length low = String.length m ∧
  ∀ i c, String.get i m = Some c →
    String.get i low =
    Some (if bool_decide (65 ≤ nat_of_ascii c ≤ 90)
          then ascii_of_nat (nat_of_ascii c + 32) else c).

(** The value of a hexadecimal digit. *)
Definition hex_value (c : ascii) : N :=
  match c with
  | "0" => 0 | "1" => 1 | "2" => 2 | "3" => 3 | "4" => 4 | "5" => 5
  | "6" => 6 | "7" => 7 | "8" => 8 | "9" => 9 | "a" => 10 | "b" => 11
  | "c" => 12 | "d" => 13 | "e" => 14 | _ => 15
  end%char%N.

(** The name [prepare_test_name] builds from a urlname and a method that are
    strings. *)
Definition test_name rt h (u m : string) (status : pyval) (uuid : N) : string :=
  "test_smoke_" +:+ spec_slug u +:+ "_" +:+ str_lower rt m +:+ "_" +:+
  py_str rt h status +:+ "_" +:+ uuid_hex uuid.

(** ** Classes *)

(** The function is a generated test method, not the failsafe. *)
Definition is_smoke_test (f : function) : Prop :=
  match fn_code f with
  | new_test_method _ _ _ _ _ _ _ => True
  | fail_method _ => False
  end.

(** A validated entry the [else] loop can turn into a method: its
    [request_data], when callable, has a [__name__]. *)
Definition attachable (h : heap) (conf : pyval) : Prop :=
  ∃ u s m d,
    is_tuple_or_list conf = true ∧
    seq_items h conf = [VStr u; s; VStr m; VDict d] ∧
    is_int s = true ∧
    dict_get d "request_data" ≠ VCallable None.

(** The generated methods of a class so far: named as their [__name__]
    says, all of them test methods, each name ending in the uuid of one of
    the first [calls] draws. *)
Definition names_below (rt : runtime) (calls : nat)
    (g : gmap string function) : Prop :=
  ∀ name f, g !! name = Some f →
    fn_name f = name ∧ is_smoke_test f ∧
    ∃ k p, k < calls ∧ name = p +:+ uuid_hex (rt_uuid4 rt k).

(** The method the [else] loop builds for the validated entry [conf] at the
    [k]-th call of [uuid4]: its name, its doc string and the values its code
    captures. *)
Definition method_of_entry (rt : runtime) (h : heap) (k : nat) (conf : pyval)
    (name : string) (f : function) : Prop :=
  ∃ u s m d text doc,
    seq_items h conf = [VStr u; s; VStr m; VDict d] ∧
    status_text_of rt s h = (h, Ret text) ∧
    prepare_test_method_doc rt (VStr m) (VStr u) s text
      (dict_get d "request_data") h = (h, Ret doc) ∧
    name = test_name rt h u m s (rt_uuid4 rt k) ∧
    f = {| fn_name := name;
           fn_doc := Some doc;
           fn_code :=
             new_test_method (VStr u) s (VStr m)
               (dict_get d "initialize") (dict_get d "url_kwargs")
               (dict_get d "request_data") (dict_get d "user_credentials") |}.

(** A validated entry whose [request_data] is a callable without a
    [__name__]. *)
Definition unnamed_request_data (h : heap) (conf : pyval) : Prop :=
  ∃ a b c d, seq_items h conf = [a; b; c; VDict d] ∧
             dict_get d "request_data" = VCallable None.

(** [uuid4().int] is a 128-bit number. *)
Definition uuids_bounded (rt : runtime) : Prop :=
  ∀ k, (rt_uuid4 rt k < 2 ^ 128)%N.

(** The first [n] draws are pairwise different. *)
Definition uuids_fresh (rt : runtime) (n : nat) : Prop :=
  ∀ i j, i < n → j < n → rt_uuid4 rt i = rt_uuid4 rt j → i = j.

(** ** Running a test *)

(** What [**] accepts: a dict whose keys are strings. *)
Definition keywords (v : pyval) : Prop :=
  ∃ d, v = VDict d ∧ forallb is_string (dict_keys d) = true.


(** The login of a running test went well, if there was one: with
    credentials configured, [self] gave credentials and the login with them
    returned a true value. *)
Definition logged_in (h : heap) (self : testcase) (user_credentials : pyval)
    : Prop :=
  truthy h user_credentials = true →
  ∃ credentials answer,
    resolve_source h self user_credentials = Ret credentials ∧
    tc_login self credentials = Ret answer ∧
    truthy h answer = true.

(** The [repr] has at most 80 characters: [assertEqual] shows it in full. *)
Definition short_repr (rt : runtime) (h : heap) (v : pyval) : Prop :=
  length (chars (py_repr rt h v)) ≤ 80.

(** ** Configurations used in examples *)

(** A store with one list object, the entry [['about', 200, 'GET']]. *)
Definition demo_heap : heap := {[ 0 := [VStr "about"; VInt 200; VStr "GET"] ]}.

(** A valid configuration: a three-item tuple, the list at address 0 and a
    four-item tuple. *)
Definition demo_config : pyval :=
  VTuple [ VTuple [VStr "home"; VInt 200; VStr "get"];
           VList 0;
           VTuple [VStr "api:items"; VInt 404; VStr "post";
                   VDict [(VStr "request_data", VCallable (Some "payload"))]] ].

(** What [prepare_configuration] returns for [demo_config], and the store it
    leaves. *)
Definition demo_confs : list pyval :=
  [ VTuple [VStr "home"; VInt 200; VStr "get"; VDict []];
    VList 0;
    VTuple [VStr "api:items"; VInt 404; VStr "post";
            VDict [(VStr "request_data", VCallable (Some "payload"))]] ].

Definition demo_heap_after : heap :=
  <[0 := [VStr "about"; VInt 200; VStr "GET"; VDict []]]> demo_heap.

(** The class the hook builds for [demo_config]. *)
Definition demo_class : pyclass :=
  match meta_new demo_rt 0 "DemoTests" [SmokeTestCase]
                 {[ "TESTS_CONFIGURATION" := demo_config ]} demo_heap with
  | (_, Ret (cls, _)) => cls
  | _ => TestCase
  end.

(** An entry with an unknown option key and a status that is not an [int]. *)
Definition bogus_key_config : pyval :=
  VTuple [VTuple [VStr "home"; VStr "x"; VStr "get";
                  VDict [(VStr "bogus", VInt 1)]]].

(** An entry with an unknown option key and the method ["delete"]. *)
Definition delete_bogus_config : pyval :=
  VTuple [VTuple [VStr "home"; VInt 200; VStr "delete";
                  VDict [(VStr "bogus", VInt 1)]]].

(** The body of a class whose configuration is the empty tuple. *)
Definition empty_config_attrs : gmap string pyval :=
  {[ "TESTS_CONFIGURATION" := VTuple [] ]}.

(** A test-case instance whose client answers every GET with
    [status_code] and has no other method. *)
Definition demo_self (status_code : Z) : testcase :=
  {| tc_call := fun _ => Ret VNone;
     tc_resolve_url := fun urlname _ => Ret urlname;
     tc_login := fun _ => Ret (VBool true);
     tc_client := fun name =>
       if String.eqb name "get" then Ret (fun _ _ => Ret (VInt status_code))
       else Raise (Exn AttributeError "no such client method");
     tc_longMessage := true |}.

(** A test-case instance whose callables return [{}], whose login is
    refused and whose client answers every request with 200. *)
Definition refused_self : testcase :=
  {| tc_call := fun _ => Ret (VDict []);
     tc_resolve_url := fun urlname _ => Ret urlname;
     tc_login := fun _ => Ret (VBool false);
     tc_client := fun _ => Ret (fun _ _ => Ret (VInt 200));
     tc_longMessage := true |}.

(** The configuration of the documentation's first example. *)
Definition home_config : pyval :=
  VTuple [VTuple [VStr "home"; VInt 200; VStr "get"]].

Definition home_test_name : string :=
  "test_smoke_home_get_200_00000000000000000000000000000000".

Definition home_test : function :=
  {| fn_name := home_test_name;
     fn_doc := Some ("GET home 200 " +:+ dq +:+ "OK" +:+ dq +:+ " {}");
     fn_code := new_test_method (VStr "home") (VInt 200) (VStr "get")
                                VNone VNone VNone VNone |}.

(** A configuration whose [request_data] is a callable without a
    [__name__]. *)
Definition partial_request_data_config : pyval :=
  VTuple [VTuple [VStr "home"; VInt 200; VStr "get";
                  VDict [(VStr "request_data", VCallable None)]]].

(** * Properties *)

(** ** The store *)

Lemma deref_insert_eq (h : heap) a l : deref (<[a := l]> h) a = l.
Proof. unfold deref. by rewrite lookup_insert_eq. Qed.

Lemma deref_insert_ne (h : heap) a b l :
  a ≠ b → deref (<[a := l]> h) b = deref h b.
Proof. intros. unfold deref. by rewrite lookup_insert_ne. Qed.

(** ** One entry *)

#[local] Arguments required_errors : simpl never.
#[local] Arguments method_errors : simpl never.
#[local] Arguments optional_errors : simpl never.
#[local] Arguments join : simpl never.
#[local] Arguments append_doc_link : simpl never.
#[local] Arguments unknown_keys : simpl never.
#[local] Arguments dict_keys : simpl never.
#[local] Arguments UNSUPPORTED_CONFIGURATION_KEY_MSG : simpl never.

Lemma prepare_test_config_tuple3 rt a b c h :
  prepare_test_config rt (VTuple [a; b; c]) h =
  (h, entry_verdict (required_errors rt h [a; b; c] ++ method_errors c)
                    (VTuple [a; b; c; VDict []])).
Proof.
  unfold prepare_test_config, normalize_length, bind, ret, get_heap. cbn.
  destruct (required_errors rt h [a; b; c] ++ method_errors c); reflexivity.
Qed.

Lemma prepare_test_config_list3 rt r a b c h :
  deref h r = [a; b; c] →
  let h' := <[r := [a; b; c; VDict []]]> h in
  prepare_test_config rt (VList r) h =
  (h', entry_verdict (required_errors rt h' [a; b; c] ++ method_errors c)
                     (VList r)).
Proof.
  intros Hr h'.
  unfold prepare_test_config, normalize_length, bind, ret, get_heap. cbn.
  unfold index_list.
  repeat (rewrite ?deref_insert_eq, ?Hr; cbn).
  destruct (required_errors rt _ [a; b; c] ++ method_errors c); reflexivity.
Qed.

Lemma prepare_test_config_unsupported rt e a b c d k ks h :
  is_tuple_or_list e = true →
  seq_items h e = [a; b; c; VDict d] →
  unknown_keys (dict_keys d) = k :: ks →
  prepare_test_config rt e h = (h, unsupported_verdict rt (k :: ks)).
Proof.
  intros He Hitems Hdiff.
  unfold prepare_test_config, normalize_length, bind, ret, get_heap, lift,
    unsupported_verdict.
  destruct e; try discriminate; cbn in Hitems |- *;
    repeat (unfold index_list; rewrite ?Hitems, ?Hdiff; cbn);
    destruct (join_strings rt (rt_set_order rt (k :: ks))); reflexivity.
Qed.

Lemma prepare_test_config_4 rt e a b c d h :
  is_tuple_or_list e = true →
  seq_items h e = [a; b; c; VDict d] →
  unknown_keys (dict_keys d) = [] →
  prepare_test_config rt e h =
  (h, match optional_errors rt h d with
      | Ret more =>
          entry_verdict
            ((required_errors rt h [a; b; c] ++ method_errors c) ++ more) e
      | Raise x => Raise x
      | Exhausted => Exhausted
      end).
Proof.
  intros He Hitems Hdiff.
  unfold prepare_test_config, normalize_length, bind, ret, get_heap, lift.
  destruct e; try discriminate; cbn in Hitems |- *;
    repeat (unfold index_list; rewrite ?Hitems, ?Hdiff; cbn);
    destruct (optional_errors rt h d); try reflexivity;
    destruct (_ ++ _); reflexivity.
Qed.

Lemma prepare_test_config_not_dict rt e a b c o h :
  is_tuple_or_list e = true →
  seq_items h e = [a; b; c; o] →
  is_dict o = false →
  prepare_test_config rt e h =
  (h, Raise (Exn AttributeError (rt_error_text rt (NoAttribute o "keys")))).
Proof.
  intros He Hitems Ho.
  unfold prepare_test_config, normalize_length, bind, ret, get_heap, lift.
  destruct e; try discriminate; cbn in Hitems |- *;
    repeat (unfold index_list; rewrite ?Hitems; cbn);
    destruct o; try discriminate; reflexivity.
Qed.

Lemma prepare_test_config_bad_length rt e h :
  is_tuple_or_list e = true →
  length (seq_items h e) ≠ 3 →
  length (seq_items h e) ≠ 4 →
  prepare_test_config rt e h =
  (h, Raise (Exn ImproperlyConfigured
               (append_doc_link IMPROPERLY_BUILT_CONFIGURATION_MSG))).
Proof.
  intros He H3 H4.
  unfold prepare_test_config, normalize_length, bind, ret, get_heap, lift.
  destruct e; try discriminate; cbn in H3, H4 |- *.
  - destruct (Nat.eqb_spec (length items0) 3); [done|].
    destruct (Nat.eqb_spec (length items0) 4); done.
  - destruct (Nat.eqb_spec (length (deref h a)) 3); [done|].
    destruct (Nat.eqb_spec (length (deref h a)) 4); done.
Qed.

(** *** Computations that leave the store alone *)

Lemma pure_ret {A} (a : A) : pure (ret a).
Proof. intros h h' o [= <- _]. done. Qed.

Lemma pure_raise {A} e : pure (@raise A e).
Proof. intros h h' o [= <- _]. done. Qed.

Lemma pure_lift {A} (x : outcome A) : pure (lift x).
Proof. intros h h' o [= <- _]. done. Qed.

Lemma pure_get_heap : pure get_heap.
Proof. intros h h' o [= <- _]. done. Qed.

Lemma pure_bind {A B} (m : py A) (k : A → py B) :
  pure m → (∀ a, pure (k a)) → pure (bind m k).
Proof.
  intros Hm Hk h h' o. unfold bind.
  destruct (m h) as [h1 [a|e|]] eqn:E; apply Hm in E as ->.
  - apply Hk.
  - by intros [= <- _].
  - by intros [= <- _].
Qed.

Lemma pure_builtin_raise {A} rt t w : pure (@builtin_raise rt A t w).
Proof. apply pure_raise. Qed.

Lemma pure_py_len rt v : pure (py_len rt v).
Proof. intros h h' o. destruct v; by intros [= <- _]. Qed.

Lemma pure_index_list rt v l i : pure (index_list rt v l i).
Proof. unfold index_list. destruct (l !! i); [apply pure_ret|apply pure_raise]. Qed.

Lemma pure_getitem rt v i : pure (getitem rt v i).
Proof.
  destruct v; unfold getitem; try apply pure_raise.
  - intros h. apply pure_index_list.
  - intros h. apply pure_index_list.
  - intros h. apply pure_index_list.
  - intros h h' o. destruct (dict_get_int _ _); by intros [= <- _].
Qed.

Lemma pure_slice3 rt v : pure (slice3 rt v).
Proof. intros h h' o. destruct v; by intros [= <- _]. Qed.

Lemma pure_keys rt v : pure (keys rt v).
Proof. destruct v; first [apply pure_ret | apply pure_raise]. Qed.

Lemma pure_items rt v : pure (items rt v).
Proof. destruct v; first [apply pure_ret | apply pure_raise]. Qed.

Create HintDb pure.
#[local] Hint Resolve pure_ret pure_raise pure_lift pure_get_heap
  pure_builtin_raise pure_py_len pure_getitem pure_slice3 pure_keys
  pure_items : pure.

Ltac pure_steps :=
  repeat first
    [ apply pure_bind; [|intros ?]
    | progress eauto with pure
    | match goal with
      | |- pure (match ?x with _ => _ end) => destruct x
      | |- pure (if ?x then _ else _) => destruct x
      end ].

(** The only write to the store is the in-place extension of a three-item
    list. *)
Lemma normalize_length_store rt e h h' o :
  normalize_length rt e h = (h', o) →
  h' = h ∨
  ∃ r, e = VList r ∧ length (deref h r) = 3 ∧
       h' = <[r := deref h r ++ [VDict []]]> h.
Proof.
  unfold normalize_length, bind at 1.
  destruct (py_len rt e h) as [h1 [n| |]] eqn:Hlen;
    apply pure_py_len in Hlen as Hh1; subst h1;
    [|intros [= <- _]; by left..].
  destruct (Nat.eqb_spec n 3) as [->|_].
  - destruct e; cbn; try (intros [= <- _]; by left).
    cbn in Hlen. injection Hlen as Hlen.
    intros [= <- _]. right. by exists a.
  - intros H. left. revert H. generalize h h' o.
    change (pure (if n =? 4 then
      let* options := getitem rt e 3 in
      let* ks := keys rt options in
      match unknown_keys ks with
      | [] => ret (e, true)
      | _ :: _ =>
          let* names := lift (join_strings rt (rt_set_order rt (unknown_keys ks))) in
          raise (Exn ImproperlyConfigured
                   (append_doc_link
                      (UNSUPPORTED_CONFIGURATION_KEY_MSG (join ", " names))))
      end
     else raise (Exn ImproperlyConfigured
               (append_doc_link IMPROPERLY_BUILT_CONFIGURATION_MSG)))).
    pure_steps.
Qed.

Lemma prepare_test_config_store rt e h h' o :
  prepare_test_config rt e h = (h', o) →
  h' = h ∨
  ∃ r, e = VList r ∧ length (deref h r) = 3 ∧
       h' = <[r := deref h r ++ [VDict []]]> h.
Proof.
  unfold prepare_test_config, bind at 1.
  destruct (normalize_length rt e h) as [h1 [[tc cd]| |]] eqn:Hn;
    apply normalize_length_store in Hn as Hh1;
    [|intros [= <- _]; done..].
  intros H.
  assert (h' = h1) as ->; [|done].
  revert H. generalize h1 h' o. clear.
  match goal with |- ∀ h1 h' o, ?m h1 = _ → _ => change (pure m) end.
  pure_steps.
Qed.

Lemma join_strings_terminates rt vs : join_strings rt vs ≠ Exhausted.
Proof.
  induction vs as [|v vs IH]; [done|].
  destruct v; try done. cbn. by destruct (join_strings rt vs).
Qed.

Lemma optional_errors_terminates rt h d : optional_errors rt h d ≠ Exhausted.
Proof.
  induction d as [|[k v] d IH]; [done|].
  unfold optional_errors; fold (optional_errors rt h d).
  destruct (type_check_of k); [|done].
  by destruct (optional_errors rt h d).
Qed.

(** *** Entries that are not tuples or lists never pass *)

Lemma lookup_chars s i v : (VStr <$> chars s) !! i = Some v → is_string v = true.
Proof.
  rewrite list_lookup_fmap. destruct (chars s !! i); by intros [= <-].
Qed.

Lemma lookup_chars_not_dict s i d : (VStr <$> chars s) !! i ≠ Some (VDict d).
Proof. intros H. by apply lookup_chars in H. Qed.

Lemma normalize_length_kind rt e h h' tc cd :
  normalize_length rt e h = (h', Ret (tc, cd)) →
  (is_tuple_or_list e = true ∧ is_tuple_or_list tc = true) ∨
  (is_dict e = true ∧ tc = e).
Proof.
  unfold normalize_length, bind, ret, raise, lift.
  destruct e; cbn; unfold builtin_raise, raise, index_list, ret;
    intros H; repeat case_match; simplify_eq; auto.
  match goal with
  | H : (VStr <$> chars _) !! _ = Some ?a |- _ =>
      apply lookup_chars in H; by destruct a
  end.
Qed.

Lemma prepare_test_config_not_sequence rt e h h' o :
  is_tuple_or_list e = false →
  prepare_test_config rt e h = (h', o) → ∃ x, o = Raise x.
Proof.
  intros He. unfold prepare_test_config, bind at 1.
  destruct (normalize_length rt e h) as [h1 [[tc cd]| |]] eqn:Hn.
  - apply normalize_length_kind in Hn as [[? _]|[Hd ->]]; [congruence|].
    destruct e; try discriminate; cbn.
    intros H; inversion H; eauto.
  - intros H; inversion H; eauto.
  - exfalso. revert Hn.
    unfold normalize_length, bind, ret, raise, lift, keys.
    destruct e; cbn; unfold builtin_raise, raise, index_list, ret;
      intros H; repeat case_match; simplify_eq;
      by eapply join_strings_terminates.
Qed.

(** *** When the field checks are silent *)

Lemma required_errors_3 rt h a b c :
  required_errors rt h [a; b; c] =
  (if is_string a then []
   else [INCORRECT_REQUIRED_PARAM_TYPE_MSG "url" "0" (pytype_str string_types)
           (type_str rt a) (py_str rt h a)]) ++
  (if is_int b then []
   else [INCORRECT_REQUIRED_PARAM_TYPE_MSG "status" "1" (pytype_str int)
           (type_str rt b) (py_str rt h b)]) ++
  (if is_string c then []
   else [INCORRECT_REQUIRED_PARAM_TYPE_MSG "method" "2"
           (pytype_str string_types) (type_str rt c) (py_str rt h c)]).
Proof.
  unfold required_errors. cbn.
  destruct (is_string a), (is_int b), (is_string c); reflexivity.
Qed.

Lemma field_errors_nil rt h a b c :
  required_errors rt h [a; b; c] ++ method_errors c = [] ↔ fields_ok a b c.
Proof.
  rewrite required_errors_3. unfold fields_ok, method_errors. split.
  - destruct (is_string a), (is_int b); try discriminate.
    destruct c; try discriminate. cbn.
    case_bool_decide; [|discriminate]. eauto.
  - intros (-> & -> & m & -> & Hm). cbn. by rewrite bool_decide_true.
Qed.

Lemma known_key_type_check k :
  known_key k = true ↔ is_Some (type_check_of k).
Proof.
  destruct k; cbn -[String.eqb];
    try (split; [discriminate|by intros [? ?]]).
  rewrite bool_decide_eq_true. split.
  - intros Hs. set_unfold in Hs.
    destruct Hs as [-> | [-> | [-> | [-> | []]]]]; cbn; eauto.
  - intros [ti Hti]. cbn -[String.eqb] in Hti.
    repeat match type of Hti with
           | context [String.eqb ?x s] =>
               destruct (String.eqb_spec x s) as [<-|?]; [set_solver|]
           end.
    discriminate.
Qed.

Lemma unknown_keys_nil ks :
  unknown_keys ks = [] ↔ Forall (λ k, known_key k = true) ks.
Proof.
  unfold unknown_keys. induction ks as [|k ks IH]; [done|].
  rewrite filter_cons. destruct (known_key k) eqn:E.
  - rewrite decide_False by done. rewrite IH. split; [by constructor|].
    by inversion 1.
  - rewrite decide_True by done. split; [done|]. inversion 1; congruence.
Qed.

Lemma optional_errors_known rt h d :
  unknown_keys (dict_keys d) = [] → ∃ more, optional_errors rt h d = Ret more.
Proof.
  rewrite unknown_keys_nil. induction d as [|[k v] d IH]; [by eexists|].
  intros Hk. inversion_clear Hk as [|?? Hk1 Hk2].
  apply known_key_type_check in Hk1 as [ti Hti].
  destruct (IH Hk2) as [more Hmore].
  unfold optional_errors; fold (optional_errors rt h d).
  rewrite Hti, Hmore. by eexists.
Qed.

Lemma optional_errors_nil rt h d :
  optional_errors rt h d = Ret [] ↔ Forall option_ok d.
Proof.
  induction d as [|[k v] d IH]; [by split; [constructor|]|].
  unfold optional_errors; fold (optional_errors rt h d). split.
  - destruct (type_check_of k) as [ti|] eqn:Hti; [|discriminate].
    destruct (optional_errors rt h d) as [more| |]; try discriminate.
    destruct (func ti v) eqn:Hf; [|discriminate]. cbn. intros [= ->].
    constructor; [by exists ti|by apply IH].
  - inversion_clear 1 as [|?? (ti & Hti & Hf) Hd]. cbn in Hti, Hf.
    apply IH in Hd. by rewrite Hti, Hf, Hd.
Qed.

(** *** Entries that pass *)

Lemma option_ok_known d :
  Forall option_ok d → unknown_keys (dict_keys d) = [].
Proof.
  intros Hd. apply unknown_keys_nil. unfold dict_keys.
  apply Forall_fmap. eapply Forall_impl; [exact Hd|].
  intros [k v] (ti & Hti & _). apply known_key_type_check. by exists ti.
Qed.

Lemma entry_verdict_Ret errs conf c :
  entry_verdict errs conf = Ret c ↔ errs = [] ∧ c = conf.
Proof.
  destruct errs; cbn; split.
  - by intros [= ->].
  - by intros [_ ->].
  - discriminate.
  - by intros [[=] _].
Qed.

Lemma prepare_test_config_Ret rt e h h' conf :
  prepare_test_config rt e h = (h', Ret conf) ↔
  (∃ a b c, seq_items h e = [a; b; c] ∧ fields_ok a b c ∧
            extended h h' e conf) ∨
  (∃ a b c d, is_tuple_or_list e = true ∧
              seq_items h e = [a; b; c; VDict d] ∧ fields_ok a b c ∧
              Forall option_ok d ∧ conf = e ∧ h' = h).
Proof.
  split.
  - intros H. destruct (is_tuple_or_list e) eqn:He;
      [|by apply prepare_test_config_not_sequence in H as [? [=]]].
    destruct (seq_items h e) as [|a [|b [|c [|o [|]]]]] eqn:Hitems;
      try (rewrite prepare_test_config_bad_length in H
             by (rewrite ?Hitems; cbn; done || lia); discriminate).
    + left. exists a, b, c. split; [done|].
      destruct e; try discriminate; cbn in Hitems; subst.
      * rewrite prepare_test_config_tuple3 in H.
        injection H as <- H. apply entry_verdict_Ret in H as [H ->].
        by apply field_errors_nil in H.
      * rewrite (prepare_test_config_list3 _ _ _ _ _ _ Hitems) in H.
        injection H as <- H. apply entry_verdict_Ret in H as [H ->].
        apply field_errors_nil in H. cbn. by rewrite Hitems.
    + right. destruct (is_dict o) eqn:Ho;
        [|by rewrite (prepare_test_config_not_dict _ _ _ _ _ _ _ He Hitems Ho)
            in H].
      destruct o as [| | | | | |d|]; try discriminate.
      destruct (unknown_keys (dict_keys d)) as [|k ks] eqn:Hdiff.
      * rewrite (prepare_test_config_4 _ _ _ _ _ _ _ He Hitems Hdiff) in H.
        injection H as <- H.
        destruct (optional_errors rt h d) as [more| |] eqn:Hopt;
          try discriminate.
        apply entry_verdict_Ret in H as [H ->].
        apply app_eq_nil in H as [H ->].
        apply field_errors_nil in H. apply optional_errors_nil in Hopt.
        by exists a, b, c, d.
      * rewrite (prepare_test_config_unsupported _ _ _ _ _ _ _ _ _ He Hitems
                   Hdiff) in H.
        unfold unsupported_verdict in H.
        by destruct (join_strings _ _).
  - intros [(a & b & c & Hitems & Hf & Hext)|
            (a & b & c & d & He & Hitems & Hf & Hd & -> & ->)].
    + destruct e; try done; cbn in Hitems, Hext; destruct Hext as [-> ->].
      * subst. rewrite prepare_test_config_tuple3.
        by rewrite (proj2 (field_errors_nil _ _ _ _ _) Hf).
      * rewrite (prepare_test_config_list3 _ _ _ _ _ _ Hitems). cbn.
        rewrite (proj2 (field_errors_nil _ _ _ _ _) Hf). by rewrite Hitems.
    + rewrite (prepare_test_config_4 _ _ _ _ _ _ _ He Hitems
                 (option_ok_known _ Hd)).
      rewrite (proj2 (optional_errors_nil _ _ _) Hd).
      by rewrite (proj2 (field_errors_nil _ _ _ _ _) Hf).
Qed.

(** *** The entry checks always finish *)

Lemma terminates_ret {A} (a : A) : terminates (ret a).
Proof. by intros h. Qed.

Lemma terminates_raise {A} e : terminates (@raise A e).
Proof. by intros h. Qed.

Lemma terminates_get_heap : terminates get_heap.
Proof. by intros h. Qed.

Lemma terminates_lift {A} (x : outcome A) : x ≠ Exhausted → terminates (lift x).
Proof. by intros Hx h. Qed.

Lemma terminates_bind {A B} (m : py A) (k : A → py B) :
  terminates m → (∀ a, terminates (k a)) → terminates (bind m k).
Proof.
  intros Hm Hk h. unfold bind. specialize (Hm h).
  destruct (m h) as [h1 [a|e|]]; [apply Hk|done|done].
Qed.

Lemma terminates_py_len rt v : terminates (py_len rt v).
Proof. intros h. by destruct v. Qed.

Lemma terminates_iadd rt v : terminates (iadd_empty_dict rt v).
Proof. intros h. by destruct v. Qed.

Lemma terminates_getitem rt v i : terminates (getitem rt v i).
Proof.
  intros h. destruct v; cbn; unfold index_list; try done; by case_match.
Qed.

Lemma terminates_slice3 rt v : terminates (slice3 rt v).
Proof. intros h. by destruct v. Qed.

Lemma terminates_keys rt v : terminates (keys rt v).
Proof. intros h. by destruct v. Qed.

Lemma terminates_items rt v : terminates (items rt v).
Proof. intros h. by destruct v. Qed.

Create HintDb terminates.
#[local] Hint Resolve terminates_ret terminates_raise terminates_get_heap
  terminates_lift terminates_py_len terminates_iadd terminates_getitem
  terminates_slice3 terminates_keys terminates_items join_strings_terminates
  optional_errors_terminates : terminates.

Ltac terminates_steps :=
  repeat first
    [ apply terminates_bind; [|intros ?]
    | progress eauto with terminates
    | match goal with
      | |- terminates (match ?x with _ => _ end) => destruct x
      | |- terminates (if ?x then _ else _) => destruct x
      end ].

Lemma terminates_prepare_test_config rt e :
  terminates (prepare_test_config rt e).
Proof. unfold prepare_test_config, normalize_length. terminates_steps. Qed.

(** ** The loop over the configuration *)

Lemma grown_refl h : grown h h.
Proof. intros r. by left. Qed.

Lemma grown_deref h0 h r :
  grown h0 h →
  deref h r = deref h0 r ∨
  (length (deref h0 r) = 3 ∧ deref h r = deref h0 r ++ [VDict []]).
Proof.
  intros Hg. destruct (Hg r) as [Hr|[? Hr]].
  - left. unfold deref. by rewrite Hr.
  - right. split; [done|]. unfold deref at 1. by rewrite Hr.
Qed.

Lemma grown_step rt h0 h e h' o :
  grown h0 h → prepare_test_config rt e h = (h', o) → grown h0 h'.
Proof.
  intros Hg H.
  apply prepare_test_config_store in H as [->|(r & -> & Hlen & ->)]; [done|].
  intros r'. destruct (decide (r = r')) as [<-|Hne].
  - rewrite lookup_insert_eq.
    destruct (grown_deref _ _ r Hg) as [Heq|[Hlen0 Heq]].
    + right. rewrite <- Heq. split; [done|]. done.
    + rewrite Heq, length_app in Hlen. cbn in Hlen. lia.
  - rewrite lookup_insert_ne by done. apply Hg.
Qed.

Lemma grown_length h0 h v :
  grown h0 h →
  length (seq_items h v) ≤ Nat.max 4 (length (seq_items h0 v)).
Proof.
  intros Hg. destruct v; cbn; try lia.
  destruct (grown_deref _ _ a Hg) as [->|[Hlen ->]]; [lia|].
  rewrite length_app. cbn. lia.
Qed.

Lemma for_each_config_terminates rt h0 tc budget i confs h :
  grown h0 h →
  Nat.max 4 (length (seq_items h0 tc)) ≤ budget + i →
  (for_each_config rt budget tc i confs h).2 ≠ Exhausted.
Proof.
  revert i confs h. induction budget as [|budget IH]; intros i confs h Hg Hb.
  - cbn. destruct (seq_items h tc !! i) as [e|] eqn:Hi; [|done].
    apply lookup_lt_Some in Hi. pose proof (grown_length _ _ tc Hg). lia.
  - cbn. destruct (seq_items h tc !! i) as [e|] eqn:Hi; [|done].
    unfold bind.
    destruct (prepare_test_config rt e h) as [h1 [conf|x|]] eqn:He.
    + apply IH; [by eapply grown_step|lia].
    + done.
    + by pose proof (terminates_prepare_test_config rt e h) as Ht;
        rewrite He in Ht.
Qed.

(** [prepare_configuration] returns or raises: the iteration budget of the
    embedding is never used up. *)
Lemma prepare_configuration_terminates rt tc h :
  (prepare_configuration rt tc h).2 ≠ Exhausted.
Proof.
  unfold prepare_configuration. destruct (is_tuple_or_list tc); [|done].
  unfold bind, get_heap.
  pose proof (for_each_config_terminates rt h tc
                (Nat.max 4 (length (seq_items h tc))) 0 [] h
                (grown_refl h)) as Ht.
  destruct (for_each_config _ _ _ _ _ _) as [h1 [[|c confs]|x|]];
    try done.
  apply Ht. cbn. lia.
Qed.

Lemma for_each_config_grown rt h0 tc budget i confs h h' o :
  grown h0 h →
  for_each_config rt budget tc i confs h = (h', o) → grown h0 h'.
Proof.
  revert i confs h. induction budget as [|budget IH]; intros i confs h Hg;
    cbn; destruct (seq_items h tc !! i) as [e|] eqn:Hi;
    try by intros [= <- _].
  unfold bind.
  destruct (prepare_test_config rt e h) as [h1 [conf|x|]] eqn:He;
    apply (grown_step _ _ _ _ _ _ Hg) in He.
  - by apply IH.
  - by intros [= <- _].
  - by intros [= <- _].
Qed.

(** In whatever way [prepare_configuration] ends, the store differs from the
    initial one at most by three-item lists extended with [{}]. *)
Lemma prepare_configuration_store rt tc h h' o :
  prepare_configuration rt tc h = (h', o) → grown h h'.
Proof.
  unfold prepare_configuration. destruct (is_tuple_or_list tc);
    [|intros [= <- _]; apply grown_refl].
  unfold bind, get_heap.
  destruct (for_each_config _ _ _ _ _ _) as [h1 out] eqn:Hloop.
  apply (for_each_config_grown _ h) in Hloop; [|apply grown_refl].
  destruct out as [[|c confs]|x|]; by intros [= <- _].
Qed.

(** X1.  [prepare_configuration] always comes to an end: it returns a
    configuration or raises an exception, also when the configuration is a
    list that holds itself as an entry and grows while it is iterated. *)
Theorem prepare_configuration_returns_or_raises rt tc h :
  ∃ h', (∃ confs, prepare_configuration rt tc h = (h', Ret confs)) ∨
        (∃ x, prepare_configuration rt tc h = (h', Raise x)).
Proof.
  unfold prepare_configuration. destruct (is_tuple_or_list tc);
    [|eexists; right; by eexists].
  unfold bind, get_heap.
  destruct (for_each_config _ _ _ _ _ _) as [h1 [[|c confs]|x|]] eqn:Hloop;
    exists h1.
  - right. by eexists.
  - left. by eexists.
  - right. by eexists.
  - exfalso.
    eapply (for_each_config_terminates rt h tc _ 0 [] h (grown_refl h));
      [|by rewrite Hloop].
    lia.
Qed.

(** *** The successful run *)

Lemma passed_sequence h0 h e conf :
  passed h0 h e conf → is_tuple_or_list e = true.
Proof.
  intros [(a & b & c & _ & _ & H)|(a & b & c & d & H & _)]; [|done].
  by destruct e.
Qed.

Lemma grown_ok_deref h0 h r :
  grown_ok h0 h →
  deref h r = deref h0 r ∨
  ∃ a b c, deref h0 r = [a; b; c] ∧ fields_ok a b c ∧
           deref h r = [a; b; c; VDict []].
Proof.
  intros Hg. destruct (Hg r) as [Hr|(a & b & c & ? & ? & Hr)].
  - left. unfold deref. by rewrite Hr.
  - right. exists a, b, c. split_and!; [done..|]. unfold deref at 1.
    by rewrite Hr.
Qed.

Lemma passed_extend h0 h r a b c e conf :
  deref h r = [a; b; c] →
  passed h0 h e conf →
  passed h0 (<[r := [a; b; c; VDict []]]> h) e conf.
Proof.
  intros Hr [(a' & b' & c' & Hitems & Hf & H)|
             (a' & b' & c' & d & He & Hitems & Hf & Hd & -> & Hsame)].
  - left. exists a', b', c'. split_and!; [done..|].
    destruct e; try done. destruct H as [-> H]. split; [done|].
    rewrite deref_insert_ne; [done|]. intros ->. by rewrite Hr in H.
  - right. exists a', b', c', d. split_and!; try done.
    destruct e; try done. cbn in *.
    rewrite deref_insert_ne; [done|]. intros ->. congruence.
Qed.

Lemma loop_inv_start h tc : loop_inv h tc 0 [] h.
Proof. split; [by left|done|by rewrite take_0]. Qed.

Lemma loop_inv_step rt h0 tc i confs h e h1 conf :
  loop_inv h0 tc i confs h →
  seq_items h tc !! i = Some e →
  prepare_test_config rt e h = (h1, Ret conf) →
  loop_inv h0 tc (S i) (confs ++ [conf]) h1.
Proof.
  intros [Hg Htc Hconfs] Hi He. rewrite Htc in Hi.
  apply prepare_test_config_Ret in He.
  assert (Htake : take (S i) (seq_items h0 tc) =
                  take i (seq_items h0 tc) ++ [e])
    by (by erewrite take_S_r).
  destruct He as [(a & b & c & Hitems & Hf & Hext)|
                  (a & b & c & d & Hseq & Hitems & Hf & Hd & -> & ->)].
  - destruct e; try done; cbn in Hitems, Hext; destruct Hext as [-> ->].
    + (* a three-item tuple *)
      split; [done..|].
      rewrite Htake. apply Forall2_app; [done|].
      constructor; [|constructor]. left. exists a, b, c. by subst.
    + (* a three-item list, extended in place *)
      rename a0 into r. rewrite Hitems.
      assert (Hr0 : deref h0 r = [a; b; c]).
      { destruct (grown_ok_deref _ _ r Hg) as [<-|(?&?&?&_&_&Hr)]; [done|].
        congruence. }
      split.
      * intros r'. destruct (decide (r = r')) as [<-|Hne].
        -- right. exists a, b, c. by rewrite lookup_insert_eq.
        -- rewrite lookup_insert_ne by done. apply Hg.
      * destruct tc as [| | | |l|r0| |]; try done. cbn in *.
        rewrite deref_insert_ne; [done|]. intros ->.
        (* the configuration list itself cannot be a passing entry *)
        rewrite Hr0 in Hi, Hconfs.
        destruct Hf as [Ha _]. destruct i as [|i].
        -- cbn in Hi. injection Hi as ->. done.
        -- cbn in Hconfs.
           apply Forall2_cons_inv_l in Hconfs as (? & ? & Hp & _ & _).
           apply passed_sequence in Hp. by destruct a.
      * rewrite Htake. apply Forall2_app.
        -- eapply Forall2_impl; [exact Hconfs|].
           intros e' c'. by apply passed_extend.
        -- constructor; [|constructor]. left. exists a, b, c.
           split_and!; [done..|]. by rewrite deref_insert_eq.
  - (* a four-item entry *)
    split; [done..|].
    rewrite Htake. apply Forall2_app; [done|].
    constructor; [|constructor].
    destruct e; try done; cbn in Hitems.
    + right. exists a, b, c, d. by subst.
    + destruct (grown_ok_deref _ _ a0 Hg) as [Heq|(a'&b'&c'&Hr0&Hf'&Hr)].
      * right. exists a, b, c, d. cbn. split_and!; try done. congruence.
      * left. exists a', b', c'. cbn. by split_and!.
Qed.

Lemma reaches_inv rt h0 tc i confs h j confs' h' :
  reaches rt tc i confs h j confs' h' →
  loop_inv h0 tc i confs h → loop_inv h0 tc j confs' h'.
Proof.
  induction 1 as [|i confs h e h1 conf j confs' h' Hi He _ IH]; [done|].
  intros Hinv. apply IH. by eapply loop_inv_step.
Qed.

Lemma reaches_le rt tc i confs h j confs' h' :
  reaches rt tc i confs h j confs' h' → i ≤ j.
Proof. induction 1; lia. Qed.

(** The loop unrolled along [reaches]. *)
Lemma for_each_config_reaches rt tc budget i confs h j confs' h' :
  reaches rt tc i confs h j confs' h' →
  j - i ≤ budget →
  for_each_config rt budget tc i confs h =
  for_each_config rt (budget - (j - i)) tc j confs' h'.
Proof.
  intros Hr. revert budget.
  induction Hr as [|i confs h e h1 conf j confs' h' Hi He Hr IH];
    intros budget Hb.
  - by replace (budget - (i - i)) with budget by lia.
  - apply reaches_le in Hr as Hle.
    destruct budget as [|budget]; [lia|]. cbn [for_each_config].
    rewrite Hi. unfold bind. rewrite He. rewrite IH by lia.
    f_equal. lia.
Qed.

(** Every run of the loop is a stretch of passing entries followed by the
    end of the configuration or by an entry that raises. *)
Lemma for_each_config_outcome rt tc budget i confs h h' o :
  for_each_config rt budget tc i confs h = (h', o) →
  match o with
  | Ret out =>
      ∃ j, reaches rt tc i confs h j out h' ∧ seq_items h' tc !! j = None
  | Raise x =>
      ∃ j confs1 h1 e,
        reaches rt tc i confs h j confs1 h1 ∧
        seq_items h1 tc !! j = Some e ∧
        prepare_test_config rt e h1 = (h', Raise x)
  | Exhausted => True
  end.
Proof.
  revert i confs h. induction budget as [|budget IH]; intros i confs h; cbn;
    destruct (seq_items h tc !! i) as [e|] eqn:Hi.
  - by intros [= <- <-].
  - intros [= <- <-]. exists i. split; [constructor|done].
  - unfold bind.
    destruct (prepare_test_config rt e h) as [h1 [conf|x|]] eqn:He.
    + intros Hloop. apply IH in Hloop.
      destruct o as [out|x|]; [| |done].
      * destruct Hloop as (j & Hr & Hj). exists j. split; [|done].
        by econstructor.
      * destruct Hloop as (j & confs1 & h2 & e' & Hr & Hj & He').
        exists j, confs1, h2, e'. split_and!; [|done..]. by econstructor.
    + intros [= <- <-]. exists i, confs, h, e. split_and!; [constructor|done..].
    + by intros [= <- <-].
  - intros [= <- <-]. exists i. split; [constructor|done].
Qed.

Lemma for_each_config_Ret rt tc budget h h' out :
  for_each_config rt budget tc 0 [] h = (h', Ret out) →
  Forall2 (passed h h') (seq_items h tc) out.
Proof.
  intros Hloop. apply for_each_config_outcome in Hloop as (j & Hr & Hj).
  apply (reaches_inv _ h) in Hr as [_ Htc Hconfs]; [|apply loop_inv_start].
  rewrite Htc in Hj. apply lookup_ge_None in Hj.
  by rewrite take_ge in Hconfs.
Qed.

Lemma passed_normalised h h' e conf :
  passed h h' e conf → normalised h h' e conf.
Proof.
  intros [(a & b & c & Hitems & _ & H)|
          (a & b & c & d & He & Hitems & _ & _ & -> & Hsame)].
  - destruct e; try done; cbn in Hitems.
    + subst. split; [done|]. by left.
    + destruct H as [-> H]. split; [done|]. left. cbn.
      by rewrite Hitems, H.
  - split; [done|]. right. by rewrite Hsame, Hitems.
Qed.

Lemma prepare_configuration_Ret rt tc h h' confs :
  prepare_configuration rt tc h = (h', Ret confs) →
  is_tuple_or_list tc = true ∧ confs ≠ [] ∧
  Forall2 (passed h h') (seq_items h tc) confs.
Proof.
  unfold prepare_configuration. destruct (is_tuple_or_list tc); [|done].
  unfold bind, get_heap.
  destruct (for_each_config _ _ _ _ _ _) as [h1 [out| |]] eqn:Hloop;
    try discriminate.
  destruct out as [|c out]; [discriminate|]. intros [= <- <-].
  split_and!; [done..|].
  by eapply for_each_config_Ret.
Qed.

(** C6. When [prepare_configuration] returns, the result is not empty and
    holds one entry per entry of the configuration, in the same order: an
    entry of length three was extended by one item, the empty dict [{}], and
    an entry of length four is returned as it was given. *)
Theorem prepare_configuration_normalises rt tc h h' confs :
  prepare_configuration rt tc h = (h', Ret confs) →
  confs ≠ [] ∧ Forall2 (normalised h h') (seq_items h tc) confs.
Proof.
  intros H. apply prepare_configuration_Ret in H as (_ & Hne & Hp).
  split; [done|].
  eapply Forall2_impl; [exact Hp|]. apply passed_normalised.
Qed.

Lemma prepare_configuration_normalises_witness :
  [ VTuple [VStr "home"; VInt 200; VStr "get"; VDict []];
    VList 0;
    VTuple [VStr "api:items"; VInt 404; VStr "post";
            VDict [(VStr "request_data", VCallable (Some "payload"))]] ] ≠ [] ∧
  Forall2
    (normalised demo_heap
       (<[0 := [VStr "about"; VInt 200; VStr "GET"; VDict []]]> demo_heap))
    (seq_items demo_heap demo_config)
    [ VTuple [VStr "home"; VInt 200; VStr "get"; VDict []];
      VList 0;
      VTuple [VStr "api:items"; VInt 404; VStr "post";
              VDict [(VStr "request_data", VCallable (Some "payload"))]] ].
Proof.
  apply (prepare_configuration_normalises demo_rt demo_config).
  vm_compute. reflexivity.
Defined.

(** *** Configurations of the documented form are accepted *)

Lemma prepare_test_config_valid_tuple rt e h :
  valid_tuple_entry e →
  prepare_test_config rt e h = (h, Ret (normalise_tuple e)).
Proof.
  intros (a & b & c & Hf & [->|(d & -> & Hd)]); apply prepare_test_config_Ret.
  - left. by exists a, b, c.
  - right. by exists a, b, c, d.
Qed.

Lemma reaches_tuples rt es pre confs h :
  Forall valid_tuple_entry es →
  reaches rt (VTuple (pre ++ es)) (length pre) confs h
          (length pre + length es) (confs ++ (normalise_tuple <$> es)) h.
Proof.
  intros Hes. revert pre confs.
  induction Hes as [|e es He _ IH]; intros pre confs.
  - rewrite Nat.add_0_r, !app_nil_r. constructor.
  - eapply reaches_next.
    + cbn. by apply list_lookup_middle.
    + by apply prepare_test_config_valid_tuple.
    + specialize (IH (pre ++ [e]) (confs ++ [normalise_tuple e])).
      rewrite <- !app_assoc, length_app in IH. cbn in IH.
      rewrite fmap_cons. cbn [length].
      replace (S (length pre)) with (length pre + 1) by lia.
      by replace (length pre + S (length es))
        with (length pre + 1 + length es) by lia.
Qed.

(** A non-empty tuple of entries of the documented form is accepted: the
    result is the entries, each three-item one with [{}] appended, and the
    store is untouched. *)
Lemma prepare_configuration_accepts rt es h :
  es ≠ [] →
  Forall valid_tuple_entry es →
  prepare_configuration rt (VTuple es) h = (h, Ret (normalise_tuple <$> es)).
Proof.
  intros Hne Hes. unfold prepare_configuration. cbn [is_tuple_or_list].
  unfold bind at 1, get_heap. unfold bind at 1. cbn [seq_items].
  pose proof (reaches_tuples rt es [] [] h Hes) as Hr. cbn in Hr.
  rewrite (for_each_config_reaches _ _ _ _ _ _ _ _ _ Hr) by lia.
  replace (for_each_config rt _ (VTuple es) (length es) (normalise_tuple <$> es) h)
    with (h, Ret (normalise_tuple <$> es) : outcome (list pyval)).
  - by destruct es.
  - destruct (Nat.max 4 (length es) - (length es - 0)); cbn;
      by rewrite lookup_ge_None_2.
Qed.

Lemma passed_tuple h h' l conf :
  passed h h' (VTuple l) conf →
  valid_tuple_entry (VTuple l) ∧ conf = normalise_tuple (VTuple l).
Proof.
  intros [(a & b & c & Hitems & Hf & ->)|
          (a & b & c & d & _ & Hitems & Hf & Hd & -> & _)];
    cbn in Hitems; subst l.
  - split; [|done]. exists a, b, c. split; [done|]. by left.
  - split; [|done]. exists a, b, c. split; [done|]. right. by exists d.
Qed.

(** X2.  A configuration that is a tuple of tuples is accepted exactly when
    it is not empty and every entry is a url that is a [str], a status that
    is an [int] and an allowed method, with or without a dict of options
    that pass their checks; what is returned is the entries, each three-item
    one with [{}] appended, and the store is left as it was. *)
Theorem tuple_configuration_accepted rt es h h' confs :
  Forall (λ e, ∃ l, e = VTuple l) es →
  prepare_configuration rt (VTuple es) h = (h', Ret confs) ↔
  es ≠ [] ∧ Forall valid_tuple_entry es ∧
  confs = normalise_tuple <$> es ∧ h' = h.
Proof.
  intros Htuples. split.
  - intros H. apply prepare_configuration_Ret in H as Hp.
    destruct Hp as (_ & Hne & Hp). cbn [seq_items] in Hp.
    assert (Hvalid : Forall valid_tuple_entry es).
    { apply Forall_forall. intros e Hin.
      apply list_elem_of_lookup in Hin as [i Hi].
      destruct (Forall2_lookup_l _ _ _ _ _ Hp Hi) as (conf & _ & Hpassed).
      destruct (Forall_lookup_1 _ _ _ _ Htuples Hi) as [l ->].
      by apply passed_tuple in Hpassed as [? _]. }
    assert (Hes : es ≠ []).
    { intros ->. apply Forall2_nil_inv_l in Hp. done. }
    rewrite (prepare_configuration_accepts rt es h Hes Hvalid) in H.
    by injection H as <- <-.
  - intros (Hne & Hvalid & -> & ->).
    by apply prepare_configuration_accepts.
Qed.

Lemma tuple_configuration_accepted_witness :
  prepare_configuration demo_rt
    (VTuple [VTuple [VStr "home"; VInt 200; VStr "get"];
             VTuple [VStr "api:items"; VInt 404; VStr "post";
                     VDict [(VStr "initialize", VCallable (Some "setup"))]]])
    ∅ =
    (∅, Ret [VTuple [VStr "home"; VInt 200; VStr "get"; VDict []];
             VTuple [VStr "api:items"; VInt 404; VStr "post";
                     VDict [(VStr "initialize", VCallable (Some "setup"))]]]) ↔
  [VTuple [VStr "home"; VInt 200; VStr "get"];
   VTuple [VStr "api:items"; VInt 404; VStr "post";
           VDict [(VStr "initialize", VCallable (Some "setup"))]]] ≠ [] ∧
  Forall valid_tuple_entry
    [VTuple [VStr "home"; VInt 200; VStr "get"];
     VTuple [VStr "api:items"; VInt 404; VStr "post";
             VDict [(VStr "initialize", VCallable (Some "setup"))]]] ∧
  [VTuple [VStr "home"; VInt 200; VStr "get"; VDict []];
   VTuple [VStr "api:items"; VInt 404; VStr "post";
           VDict [(VStr "initialize", VCallable (Some "setup"))]]] =
  normalise_tuple <$>
    [VTuple [VStr "home"; VInt 200; VStr "get"];
     VTuple [VStr "api:items"; VInt 404; VStr "post";
             VDict [(VStr "initialize", VCallable (Some "setup"))]]] ∧
  (∅ : heap) = ∅.
Proof.
  apply (tuple_configuration_accepted demo_rt).
  repeat constructor; by eexists.
Defined.

(** *** Accepted once, accepted again *)

Lemma passed_settled h h' e conf : passed h h' e conf → settled h' conf.
Proof.
  intros [(a & b & c & Hitems & Hf & H)|
          (a & b & c & d & He & Hitems & Hf & Hd & -> & Hsame)].
  - exists a, b, c, []. destruct e; try done; cbn in Hitems.
    + by subst.
    + by destruct H as [-> H].
  - exists a, b, c, d. by rewrite Hsame.
Qed.

Lemma settled_Ret rt h conf :
  settled h conf → prepare_test_config rt conf h = (h, Ret conf).
Proof.
  intros (a & b & c & d & Hseq & Hitems & Hf & Hd).
  apply prepare_test_config_Ret. right. by exists a, b, c, d.
Qed.

Lemma reaches_settled rt tc h n i confs :
  Forall (settled h) (seq_items h tc) →
  i + n = length (seq_items h tc) →
  reaches rt tc i confs h (length (seq_items h tc))
          (confs ++ drop i (seq_items h tc)) h.
Proof.
  intros Hall. revert i confs. induction n as [|n IH]; intros i confs Hi.
  - rewrite Nat.add_0_r in Hi. subst i. rewrite drop_all, app_nil_r.
    constructor.
  - destruct (lookup_lt_is_Some_2 (seq_items h tc) i) as [e He]; [lia|].
    eapply reaches_next; [exact He| |].
    + apply settled_Ret. by eapply Forall_lookup_1.
    + rewrite (drop_S _ _ _ He).
      replace (confs ++ e :: drop (S i) (seq_items h tc))
        with ((confs ++ [e]) ++ drop (S i) (seq_items h tc))
        by (by rewrite <- app_assoc).
      apply IH. lia.
Qed.

(** X3.  A configuration that [prepare_configuration] returned is accepted
    again as it is: given a tuple or list that holds the returned entries,
    [prepare_configuration] returns the same entries and changes
    nothing. *)
Theorem prepare_configuration_idempotent rt tc h h' confs tc' :
  prepare_configuration rt tc h = (h', Ret confs) →
  is_tuple_or_list tc' = true →
  seq_items h' tc' = confs →
  prepare_configuration rt tc' h' = (h', Ret confs).
Proof.
  intros H Htc' Hitems.
  apply prepare_configuration_Ret in H as (_ & Hne & Hp).
  assert (Hall : Forall (settled h') (seq_items h' tc')).
  { rewrite Hitems. apply Forall_forall. intros conf Hin.
    apply list_elem_of_lookup in Hin as [i Hi].
    destruct (Forall2_lookup_r _ _ _ _ _ Hp Hi) as (e & _ & Hpassed).
    by eapply passed_settled. }
  pose proof (reaches_settled rt tc' h' _ 0 [] Hall eq_refl) as Hr.
  cbn in Hr. rewrite drop_0 in Hr.
  unfold prepare_configuration. rewrite Htc'.
  unfold bind at 1, get_heap. unfold bind at 1.
  rewrite (for_each_config_reaches _ _ _ _ _ _ _ _ _ Hr) by lia.
  set (b := _ - _). rewrite Hitems.
  replace (for_each_config rt b tc' (length confs) confs h')
    with (h', Ret confs : outcome (list pyval)).
  - by destruct confs.
  - destruct b; cbn; rewrite lookup_ge_None_2; (done || (rewrite Hitems; lia)).
Qed.

Lemma prepare_configuration_idempotent_witness :
  prepare_configuration demo_rt
    (VTuple [ VTuple [VStr "home"; VInt 200; VStr "get"; VDict []];
              VList 0;
              VTuple [VStr "api:items"; VInt 404; VStr "post";
                      VDict [(VStr "request_data",
                              VCallable (Some "payload"))]] ])
    (<[0 := [VStr "about"; VInt 200; VStr "GET"; VDict []]]> demo_heap) =
  (<[0 := [VStr "about"; VInt 200; VStr "GET"; VDict []]]> demo_heap,
   Ret [ VTuple [VStr "home"; VInt 200; VStr "get"; VDict []];
         VList 0;
         VTuple [VStr "api:items"; VInt 404; VStr "post";
                 VDict [(VStr "request_data",
                         VCallable (Some "payload"))]] ]).
Proof.
  apply (prepare_configuration_idempotent demo_rt demo_config demo_heap).
  - vm_compute. reflexivity.
  - reflexivity.
  - reflexivity.
Defined.

Lemma passed_rerun rt h h' e conf :
  passed h h' e conf → prepare_test_config rt e h' = (h', Ret conf).
Proof.
  intros [(a & b & c & Hitems & Hf & H)|
          (a & b & c & d & He & Hitems & Hf & Hd & -> & Hsame)];
    apply prepare_test_config_Ret.
  - destruct e; try done; cbn in Hitems.
    + left. exists a, b, c. by subst.
    + destruct H as [-> H]. right. exists a, b, c, []. by split_and!.
  - right. exists a, b, c, d. rewrite Hsame. by split_and!.
Qed.

Lemma reaches_rerun rt tc h rest i pre :
  Forall2 (λ e conf, prepare_test_config rt e h = (h, Ret conf))
          (drop i (seq_items h tc)) rest →
  reaches rt tc i pre h (i + length rest) (pre ++ rest) h.
Proof.
  revert i pre. induction rest as [|conf rest IH]; intros i pre Hall.
  - rewrite Nat.add_0_r, app_nil_r. constructor.
  - apply Forall2_cons_inv_r in Hall as (e & tl & He & Hall & Hdrop).
    assert (Hi : seq_items h tc !! i = Some e).
    { pose proof (lookup_drop (seq_items h tc) i 0) as Hl.
      rewrite Hdrop, Nat.add_0_r in Hl. done. }
    assert (Htl : drop (S i) (seq_items h tc) = tl).
    { replace (S i) with (i + 1) by lia. by rewrite <- drop_drop, Hdrop. }
    eapply reaches_next; [exact Hi|exact He|].
    replace (pre ++ conf :: rest) with ((pre ++ [conf]) ++ rest)
      by (by rewrite <- app_assoc).
    cbn [length]. replace (i + S (length rest)) with (S i + length rest) by lia.
    apply IH. by rewrite Htl.
Qed.

Lemma first_run_inv rt tc h h' confs :
  prepare_configuration rt tc h = (h', Ret confs) →
  is_tuple_or_list tc = true ∧ confs ≠ [] ∧
  seq_items h' tc = seq_items h tc ∧
  Forall2 (passed h h') (seq_items h tc) confs.
Proof.
  unfold prepare_configuration.
  destruct (is_tuple_or_list tc); [|done]. unfold bind, get_heap.
  destruct (for_each_config _ _ _ _ _ _) as [h1 [out| |]] eqn:Hloop;
    try discriminate.
  destruct out as [|c out]; [discriminate|]. intros [= <- <-].
  apply for_each_config_outcome in Hloop as (j & Hr & Hj).
  apply (reaches_inv _ h) in Hr as [Hg Hsame Hconfs]; [|apply loop_inv_start].
  rewrite Hsame in Hj. apply lookup_ge_None in Hj.
  rewrite take_ge in Hconfs by done. done.
Qed.

(** A run in which every entry passes and the store stays as it is. *)
Lemma prepare_configuration_run rt tc h confs :
  is_tuple_or_list tc = true → confs ≠ [] →
  length (seq_items h tc) = length confs →
  reaches rt tc 0 [] h (length confs) confs h →
  prepare_configuration rt tc h = (h, Ret confs).
Proof.
  intros Htc Hne Hlen Hr.
  unfold prepare_configuration. rewrite Htc.
  unfold bind at 1, get_heap. unfold bind at 1.
  rewrite (for_each_config_reaches _ _ _ _ _ _ _ _ _ Hr) by lia.
  set (b := _ - _).
  replace (for_each_config rt b tc (length confs) confs h)
    with (h, Ret confs : outcome (list pyval)).
  - by destruct confs.
  - destruct b; cbn; rewrite lookup_ge_None_2; (done || lia).
Qed.

(** X4.  Validating a configuration a second time changes nothing: when
    [prepare_configuration] has returned, a second call on the same
    configuration, in the store the first call left, returns the same
    entries and leaves the store as it is. *)
Theorem prepare_configuration_rerun rt tc h h' confs :
  prepare_configuration rt tc h = (h', Ret confs) →
  prepare_configuration rt tc h' = (h', Ret confs).
Proof.
  intros H. apply first_run_inv in H as (Htc & Hne & Hsame & Hp).
  apply prepare_configuration_run; [done..| |].
  - rewrite Hsame. by eapply Forall2_length.
  - apply (reaches_rerun rt tc h' confs 0 []). rewrite drop_0, Hsame.
    eapply Forall2_impl; [exact Hp|]. intros e conf. apply passed_rerun.
Qed.

Lemma prepare_configuration_rerun_witness :
  prepare_configuration demo_rt demo_config demo_heap_after =
  (demo_heap_after, Ret demo_confs).
Proof.
  apply (prepare_configuration_rerun demo_rt demo_config demo_heap).
  vm_compute. reflexivity.
Defined.

(** *** Where an exception of [prepare_configuration] comes from *)

Lemma prepare_configuration_raise_at rt tc h j confs h1 e h2 x :
  is_tuple_or_list tc = true →
  reaches rt tc 0 [] h j confs h1 →
  seq_items h1 tc !! j = Some e →
  prepare_test_config rt e h1 = (h2, Raise x) →
  prepare_configuration rt tc h = (h2, Raise x).
Proof.
  intros Htc Hr Hj He. unfold prepare_configuration. rewrite Htc.
  unfold bind at 1, get_heap. unfold bind at 1.
  pose proof (reaches_inv _ h _ _ _ _ _ _ _ Hr (loop_inv_start h tc))
    as [_ Hsame _].
  apply lookup_lt_Some in Hj as Hlt. rewrite Hsame in Hlt.
  rewrite (for_each_config_reaches _ _ _ _ _ _ _ _ _ Hr) by lia.
  replace (j - 0) with j by lia.
  destruct (Nat.max 4 (length (seq_items h tc)) - j) as [|b] eqn:Hb; [lia|].
  cbn [for_each_config]. rewrite Hj. unfold bind. by rewrite He.
Qed.

Lemma prepare_configuration_Raise rt tc h h' x :
  prepare_configuration rt tc h = (h', Raise x) →
  (is_tuple_or_list tc = false ∧ h' = h ∧
   x = Exn ImproperlyConfigured
         (append_doc_link INCORRECT_TEST_CONFIGURATION_MSG)) ∨
  (is_tuple_or_list tc = true ∧ seq_items h tc = [] ∧ h' = h ∧
   x = Exn ImproperlyConfigured (append_doc_link EMPTY_TEST_CONFIGURATION_MSG)) ∨
  (is_tuple_or_list tc = true ∧
   ∃ j confs h1 e,
     reaches rt tc 0 [] h j confs h1 ∧ seq_items h1 tc !! j = Some e ∧
     prepare_test_config rt e h1 = (h', Raise x)).
Proof.
  unfold prepare_configuration. destruct (is_tuple_or_list tc);
    [|intros [= <- <-]; by left].
  unfold bind, get_heap.
  destruct (for_each_config _ _ _ _ _ _) as [h1 [out|y|]] eqn:Hloop;
    try discriminate.
  - destruct out; [|discriminate]. intros [= <- <-]. right. left.
    apply for_each_config_outcome in Hloop as (j & Hr & Hj).
    inversion Hr as [|i0 c0 hh e h2 conf j0 c1 h3 Hi He Hr']; subst.
    + split_and!; try done. by destruct (seq_items h1 tc).
    + apply reaches_le in Hr' as Hle.
      apply reaches_inv with (h0 := h) in Hr' as [_ _ Hc].
      * apply Forall2_length in Hc. rewrite length_take in Hc.
        cbn in Hc. apply lookup_lt_Some in Hi. lia.
      * eapply loop_inv_step; [apply loop_inv_start|done..].
  - intros [= <- <-]. right. right. split; [done|].
    by apply for_each_config_outcome in Hloop.
Qed.

(** *** Entries of the wrong length *)

(** X5.  When validation reaches an entry that has a length, and the length
    is neither three nor four, [prepare_configuration] raises
    [ImproperlyConfigured] with the improperly-built message followed by the
    documentation link; the entry may be a tuple, a list, a [str] or a dict,
    and the store is as the entries before it left it. *)
Theorem wrong_length_entry_rejected rt tc h i confs h1 e n :
  is_tuple_or_list tc = true →
  reaches rt tc 0 [] h i confs h1 →
  seq_items h1 tc !! i = Some e →
  py_len rt e h1 = (h1, Ret n) →
  n ≠ 3 → n ≠ 4 →
  prepare_configuration rt tc h =
    (h1, Raise (Exn ImproperlyConfigured
                  (append_doc_link IMPROPERLY_BUILT_CONFIGURATION_MSG))).
Proof.
  intros Htc Hr Hi Hlen H3 H4.
  eapply prepare_configuration_raise_at; [done..|].
  unfold prepare_test_config, normalize_length, bind. rewrite Hlen.
  destruct (Nat.eqb_spec n 3); [done|].
  by destruct (Nat.eqb_spec n 4).
Qed.

Lemma wrong_length_entry_rejected_witness :
  prepare_configuration demo_rt
    (VTuple [VTuple [VStr "home"; VInt 200; VStr "get"];
             VStr "about"]) ∅ =
    (∅, Raise (Exn ImproperlyConfigured
                 (append_doc_link IMPROPERLY_BUILT_CONFIGURATION_MSG))).
Proof.
  apply (wrong_length_entry_rejected demo_rt _ ∅ 1
           [VTuple [VStr "home"; VInt 200; VStr "get"; VDict []]] ∅
           (VStr "about") 5).
  - reflexivity.
  - apply (reaches_next demo_rt _ 0 [] ∅
             (VTuple [VStr "home"; VInt 200; VStr "get"]) ∅
             (VTuple [VStr "home"; VInt 200; VStr "get"; VDict []]));
      [reflexivity|vm_compute; reflexivity|apply reaches_here].
  - reflexivity.
  - reflexivity.
  - lia.
  - lia.
Defined.

(** *** Entries after the first invalid one *)

Lemma reaches_valid_prefix rt es pre rest confs h :
  Forall valid_tuple_entry es →
  reaches rt (VTuple (pre ++ es ++ rest)) (length pre) confs h
          (length pre + length es) (confs ++ (normalise_tuple <$> es)) h.
Proof.
  intros Hes. revert pre confs.
  induction Hes as [|e es He _ IH]; intros pre confs.
  - rewrite Nat.add_0_r, app_nil_r. constructor.
  - eapply reaches_next.
    + cbn. by apply list_lookup_middle.
    + by apply prepare_test_config_valid_tuple.
    + specialize (IH (pre ++ [e]) (confs ++ [normalise_tuple e])).
      rewrite <- !app_assoc, length_app in IH. cbn in IH.
      rewrite fmap_cons. cbn [length].
      replace (S (length pre)) with (length pre + 1) by lia.
      by replace (length pre + S (length es))
        with (length pre + 1 + length es) by lia.
Qed.

(** X6.  Validation stops at the first entry that fails: when the entries
    before it are of the documented form, [prepare_configuration] raises
    what the checks of that entry raise, whatever entries follow it. *)
Theorem first_invalid_entry_reported rt pre e rest h h' x :
  Forall valid_tuple_entry pre →
  prepare_test_config rt e h = (h', Raise x) →
  prepare_configuration rt (VTuple (pre ++ e :: rest)) h = (h', Raise x).
Proof.
  intros Hpre He.
  pose proof (reaches_valid_prefix rt pre [] (e :: rest) [] h Hpre) as Hr.
  cbn in Hr.
  eapply prepare_configuration_raise_at; [done|exact Hr| |exact He].
  cbn. by apply list_lookup_middle.
Qed.

Lemma first_invalid_entry_reported_witness :
  prepare_configuration demo_rt
    (VTuple ([VTuple [VStr "home"; VInt 200; VStr "get"]] ++
             VTuple [VStr "home"; VInt 200; VStr "XYZ"] ::
             [VNone; VTuple [VInt 1]])) ∅ =
  (∅, Raise (Exn ImproperlyConfigured
               (join nl [UNKNOWN_HTTP_METHOD_MSG "XYZ";
                         LINK_TO_DOCUMENTATION]))).
Proof.
  apply (first_invalid_entry_reported demo_rt
           [VTuple [VStr "home"; VInt 200; VStr "get"]]
           (VTuple [VStr "home"; VInt 200; VStr "XYZ"])
           [VNone; VTuple [VInt 1]] ∅ ∅).
  - constructor; [|constructor].
    exists (VStr "home"), (VInt 200), (VStr "get").
    split; [|by left]. split_and!; [done..|].
    exists "get". split; [done|]. by vm_compute.
  - vm_compute. reflexivity.
Defined.

(** ** Messages *)

Lemma append_cons c (s1 s2 : string) :
  String c s1 +:+ s2 = String c (s1 +:+ s2).
Proof. reflexivity. Qed.

Lemma append_assoc (s1 s2 s3 : string) :
  (s1 +:+ s2) +:+ s3 = s1 +:+ (s2 +:+ s3).
Proof.
  induction s1 as [|c s1 IH]; [done|]. by rewrite !append_cons, IH.
Qed.

Lemma length_append (s1 s2 : string) :
  String.length (s1 +:+ s2) = String.length s1 + String.length s2.
Proof.
  induction s1 as [|c s1 IH]; [done|]. rewrite append_cons. cbn.
  by rewrite IH.
Qed.

Lemma join_snoc sep errs x :
  errs ≠ [] → join sep (errs ++ [x]) = join sep errs +:+ sep +:+ x.
Proof.
  unfold join. induction errs as [|e [|e' errs] IH]; [done|done|].
  intros _. specialize (IH ltac:(done)).
  change (String.concat sep ((e :: e' :: errs) ++ [x]))
    with (e +:+ sep +:+ String.concat sep ((e' :: errs) ++ [x])).
  rewrite IH.
  change (String.concat sep (e :: e' :: errs))
    with (e +:+ sep +:+ String.concat sep (e' :: errs)).
  by rewrite !append_assoc.
Qed.

Lemma length_join_elem sep errs x y :
  x ∈ errs →
  String.length x + String.length sep + String.length y ≤
  String.length (join sep (errs ++ [y])).
Proof.
  unfold join. induction errs as [|e errs IH]; [by intros ?%elem_of_nil|].
  intros Hx. destruct errs as [|e' errs].
  - apply list_elem_of_singleton in Hx as ->. cbn.
    rewrite !length_append. lia.
  - change (String.concat sep ((e :: e' :: errs) ++ [y]))
      with (e +:+ sep +:+ String.concat sep ((e' :: errs) ++ [y])).
    rewrite !length_append.
    apply elem_of_cons in Hx as [->|Hx].
    + assert (String.length y ≤
              String.length (String.concat sep ((e' :: errs) ++ [y]))).
      { clear. generalize (e' :: errs). intros l.
        induction l as [|a [|b l] IHl]; cbn; [done| |].
        - rewrite !length_append. lia.
        - cbn in IHl. rewrite !length_append. lia. }
      lia.
    + specialize (IH Hx). lia.
Qed.

(** A message too short to hold a problem line and the link does not list
    the problem. *)
Lemma not_reports_short msg problem :
  String.length msg <
    String.length problem + 1 + String.length LINK_TO_DOCUMENTATION →
  ¬ reports msg problem.
Proof.
  intros Hlen (errs & Hin & ->).
  pose proof (length_join_elem nl errs problem LINK_TO_DOCUMENTATION Hin) as H.
  change (String.length nl) with 1 in H. lia.
Qed.

(** ** An entry that reaches the type checks *)

Lemma prepare_test_config_fields rt h e a b c opts :
  entry_fields h e a b c opts →
  ∃ h' conf,
    prepare_test_config rt e h =
      (h', entry_verdict (entry_errors rt h' a b c opts) conf).
Proof.
  intros [He [[Hitems ->]|[Hitems Hdiff]]].
  - assert (Herrs : ∀ h', entry_errors rt h' a b c [] =
                            required_errors rt h' [a; b; c] ++ method_errors c)
      by (intros h'; unfold entry_errors; cbn; by rewrite app_nil_r).
    destruct e; try done; cbn in Hitems.
    + subst. rewrite prepare_test_config_tuple3. do 2 eexists.
      by rewrite Herrs.
    + rewrite (prepare_test_config_list3 _ _ _ _ _ _ Hitems). do 2 eexists.
      by rewrite Herrs.
  - rewrite (prepare_test_config_4 _ _ _ _ _ _ _ He Hitems Hdiff).
    exists h, e. unfold entry_errors.
    by destruct (optional_errors_known rt h opts Hdiff) as [more ->].
Qed.

Lemma entry_verdict_Raise errs conf :
  errs ≠ [] →
  entry_verdict errs conf =
  Raise (Exn ImproperlyConfigured (join nl (errs ++ [LINK_TO_DOCUMENTATION]))).
Proof. by destruct errs. Qed.

Lemma method_errors_unknown m :
  lower m ∉ HTTP_METHODS →
  method_errors (VStr m) = [UNKNOWN_HTTP_METHOD_MSG m].
Proof. intros Hm. unfold method_errors. by rewrite bool_decide_false. Qed.

(** An entry that reaches the type checks with a problem makes
    [prepare_configuration] raise the lines of [entry_errors] and the link. *)
Lemma entry_errors_raise rt tc h i confs h1 e a b c opts :
  is_tuple_or_list tc = true →
  reaches rt tc 0 [] h i confs h1 →
  seq_items h1 tc !! i = Some e →
  entry_fields h1 e a b c opts →
  ∃ h2,
    (entry_errors rt h2 a b c opts ≠ [] →
     prepare_configuration rt tc h =
       (h2, Raise (Exn ImproperlyConfigured
                     (join nl (entry_errors rt h2 a b c opts ++
                               [LINK_TO_DOCUMENTATION]))))).
Proof.
  intros Htc Hr Hi Hfields.
  destruct (prepare_test_config_fields rt _ _ _ _ _ _ Hfields)
    as (h2 & conf & He).
  exists h2. intros Hne. rewrite (entry_verdict_Raise _ _ Hne) in He.
  by apply (prepare_configuration_raise_at _ _ _ _ _ _ _ _ _ Htc Hr Hi).
Qed.

Lemma unknown_method_in_errors rt h a b m opts :
  lower m ∉ HTTP_METHODS →
  UNKNOWN_HTTP_METHOD_MSG m ∈ entry_errors rt h a b (VStr m) opts.
Proof.
  intros Hm. unfold entry_errors. rewrite (method_errors_unknown _ Hm).
  rewrite !elem_of_app, list_elem_of_singleton. auto.
Qed.

Lemma optional_errors_elem rt h d more k v ti :
  optional_errors rt h d = Ret more →
  (k, v) ∈ d → type_check_of k = Some ti → func ti v = false →
  INCORRECT_NOT_REQUIRED_PARAM_TYPE_MSG
    (py_str rt h k) (type ti) (type_str rt v) (py_str rt h v) ∈ more.
Proof.
  revert more. induction d as [|[k' v'] d IH]; intros more Hopt Hin Hti Hf;
    [by apply elem_of_nil in Hin|].
  revert Hopt. unfold optional_errors; fold (optional_errors rt h d).
  destruct (type_check_of k') as [ti'|] eqn:Hti'; [|done].
  destruct (optional_errors rt h d) as [rest| |]; [|done..].
  intros [= <-]. apply elem_of_app.
  apply elem_of_cons in Hin as [[= <- <-]|Hin].
  - left. rewrite Hti in Hti'. injection Hti' as <-. rewrite Hf.
    apply list_elem_of_here.
  - right. by apply IH.
Qed.

Lemma required_errors_lines rt h l : Forall problem_line (required_errors rt h l).
Proof.
  unfold required_errors. apply Forall_flat_map, Forall_forall.
  intros [idx v] _. destruct (REQUIRED_PARAMS !! idx); [|done].
  case_match; [done|]. constructor; [|done]. left. by do 5 eexists.
Qed.

Lemma method_errors_lines c : Forall problem_line (method_errors c).
Proof.
  unfold method_errors. destruct c; try done. case_match; [done|].
  constructor; [|done]. right. left. by eexists.
Qed.

Lemma optional_errors_lines rt h d more :
  optional_errors rt h d = Ret more → Forall problem_line more.
Proof.
  revert more. induction d as [|[k v] d IH]; intros more.
  - by intros [= <-].
  - unfold optional_errors; fold (optional_errors rt h d).
    destruct (type_check_of k) as [ti|]; [|done].
    destruct (optional_errors rt h d) as [rest| |]; [|done..].
    intros [= <-]. apply Forall_app. split; [|by apply IH].
    case_match; [done|]. constructor; [|done]. right. right.
    by do 4 eexists.
Qed.

Lemma entry_errors_lines rt h a b c opts :
  Forall problem_line (entry_errors rt h a b c opts).
Proof.
  unfold entry_errors. rewrite !Forall_app. split_and!.
  - apply required_errors_lines.
  - apply method_errors_lines.
  - destruct (optional_errors rt h opts) eqn:Hopt; [|done..].
    by eapply optional_errors_lines.
Qed.

Lemma option_in_errors rt h h' e a b c opts k v ti :
  entry_fields h' e a b c opts →
  (k, v) ∈ opts → type_check_of k = Some ti → func ti v = false →
  INCORRECT_NOT_REQUIRED_PARAM_TYPE_MSG
    (py_str rt h k) (type ti) (type_str rt v) (py_str rt h v) ∈
  entry_errors rt h a b c opts.
Proof.
  intros [_ [[_ ->]|[_ Hdiff]]] Hin Hti Hf; [by apply elem_of_nil in Hin|].
  unfold entry_errors. apply elem_of_app. right.
  destruct (optional_errors_known rt h opts Hdiff) as [more Hmore].
  rewrite Hmore. by eapply optional_errors_elem.
Qed.

(** C4, amended.  Validation has reached an entry of three items, or of four
    items with recognized option keys only.  If its status is not an [int],
    its url or method is not a [str], or its method is a [str] that is not an
    allowed method when lower-cased, then [prepare_configuration] raises
    [ImproperlyConfigured]; the message is the lines of the problems of that
    entry joined by newlines, every such problem has its line, so has every
    option whose value fails the check of its key, every line reports a
    problem, and the documentation link is the last line. *)
Theorem type_errors_accumulate rt tc h i confs h1 e a b c opts :
  is_tuple_or_list tc = true →
  reaches rt tc 0 [] h i confs h1 →
  seq_items h1 tc !! i = Some e →
  entry_fields h1 e a b c opts →
  (is_int b = false ∨ is_string a = false ∨ is_string c = false ∨
   ∃ m, c = VStr m ∧ lower m ∉ HTTP_METHODS) →
  ∃ h2 errs,
    prepare_configuration rt tc h =
      (h2, Raise (Exn ImproperlyConfigured
                    (join nl (errs ++ [LINK_TO_DOCUMENTATION])))) ∧
    (is_string a = false → url_problem rt h2 a ∈ errs) ∧
    (is_int b = false → status_problem rt h2 b ∈ errs) ∧
    (is_string c = false → method_problem rt h2 c ∈ errs) ∧
    (∀ m, c = VStr m → lower m ∉ HTTP_METHODS →
          UNKNOWN_HTTP_METHOD_MSG m ∈ errs) ∧
    (∀ k v ti, (k, v) ∈ opts → type_check_of k = Some ti →
               func ti v = false →
               INCORRECT_NOT_REQUIRED_PARAM_TYPE_MSG
                 (py_str rt h2 k) (type ti) (type_str rt v) (py_str rt h2 v)
               ∈ errs) ∧
    Forall problem_line errs ∧
    join nl (errs ++ [LINK_TO_DOCUMENTATION]) =
      join nl errs +:+ nl +:+ LINK_TO_DOCUMENTATION ∧
    String.index 0 nl LINK_TO_DOCUMENTATION = None.
Proof.
  intros Htc Hr Hi Hfields Hbad.
  destruct (entry_errors_raise rt _ _ _ _ _ _ _ _ _ _ Htc Hr Hi Hfields)
    as (h2 & Hraise).
  exists h2, (entry_errors rt h2 a b c opts).
  assert (Hin : (is_string a = false →
                   url_problem rt h2 a ∈ entry_errors rt h2 a b c opts) ∧
                (is_int b = false →
                   status_problem rt h2 b ∈ entry_errors rt h2 a b c opts) ∧
                (is_string c = false →
                   method_problem rt h2 c ∈ entry_errors rt h2 a b c opts) ∧
                (∀ m, c = VStr m → lower m ∉ HTTP_METHODS →
                   UNKNOWN_HTTP_METHOD_MSG m ∈ entry_errors rt h2 a b c opts)).
  { split_and!; [| | |by intros m -> Hm; apply unknown_method_in_errors].
    all: unfold entry_errors; rewrite required_errors_3;
      unfold url_problem, status_problem, method_problem; intros ->;
      rewrite !elem_of_app, list_elem_of_singleton; auto 6. }
  assert (Hne : entry_errors rt h2 a b c opts ≠ []).
  { destruct Hin as (Ha & Hb & Hc & Hm). intros Hnil. rewrite Hnil in *.
    destruct Hbad as [Hbad|[Hbad|[Hbad|(m & -> & Hbad)]]].
    - by apply Hb, elem_of_nil in Hbad.
    - by apply Ha, elem_of_nil in Hbad.
    - by apply Hc, elem_of_nil in Hbad.
    - by apply (Hm m eq_refl), elem_of_nil in Hbad. }
  split_and!; try apply Hin.
  - by apply Hraise.
  - intros k v ti Hk Hti Hf. by eapply option_in_errors.
  - apply entry_errors_lines.
  - by apply join_snoc.
  - reflexivity.
Qed.

Lemma type_errors_accumulate_witness :
  ∃ h2 errs,
    prepare_configuration demo_rt
      (VTuple [VTuple [VInt 5; VStr "x"; VStr "DELETE";
                       VDict [(VStr "initialize", VInt 1)]]]) ∅ =
      (h2, Raise (Exn ImproperlyConfigured
                    (join nl errs +:+ nl +:+ LINK_TO_DOCUMENTATION))) ∧
    INCORRECT_REQUIRED_PARAM_TYPE_MSG
      "url" "0" "(<class 'str'>,)" "<class 'int'>" "5" ∈ errs ∧
    INCORRECT_REQUIRED_PARAM_TYPE_MSG
      "status" "1" "<class 'int'>" "<class 'str'>" "x" ∈ errs ∧
    UNKNOWN_HTTP_METHOD_MSG "DELETE" ∈ errs ∧
    INCORRECT_NOT_REQUIRED_PARAM_TYPE_MSG
      "initialize" "callable" "<class 'int'>" "1" ∈ errs.
Proof.
  destruct (type_errors_accumulate demo_rt
              (VTuple [VTuple [VInt 5; VStr "x"; VStr "DELETE";
                               VDict [(VStr "initialize", VInt 1)]]])
              ∅ 0 [] ∅
              (VTuple [VInt 5; VStr "x"; VStr "DELETE";
                       VDict [(VStr "initialize", VInt 1)]])
              (VInt 5) (VStr "x") (VStr "DELETE")
              [(VStr "initialize", VInt 1)])
    as (h2 & errs & Hraise & Hurl & Hstatus & _ & Hmethod & Hoption & _ &
        Hjoin & _).
  - reflexivity.
  - constructor.
  - reflexivity.
  - split; [reflexivity|]. right. split; reflexivity.
  - left. reflexivity.
  - exists h2, errs. split_and!.
    + by rewrite <- Hjoin.
    + by apply Hurl.
    + by apply Hstatus.
    + apply (Hmethod "DELETE"); [done|by vm_compute].
    + apply (Hoption (VStr "initialize") (VInt 1)
               {| type := "callable"; func := callable |});
        [apply list_elem_of_here|reflexivity|reflexivity].
Defined.

(** Against C4 without the amendment: the status of this entry is not an
    integer, yet the message raised is the unsupported-keys message alone and
    does not list the status problem. *)
Lemma type_errors_accumulate_counterexample :
  is_int (VStr "x") = false ∧
  prepare_configuration demo_rt bogus_key_config ∅ =
    (∅, Raise (Exn ImproperlyConfigured
                 (append_doc_link
                    (UNSUPPORTED_CONFIGURATION_KEY_MSG "bogus")))) ∧
  ¬ reports (append_doc_link (UNSUPPORTED_CONFIGURATION_KEY_MSG "bogus"))
            (status_problem demo_rt ∅ (VStr "x")).
Proof.
  split_and!; [reflexivity|reflexivity|].
  apply not_reports_short. vm_compute. lia.
Qed.

(** C9, amended.  ["detete"] is an allowed method and ["delete"] is not.
    When validation reaches an entry of three items, or of four items with
    recognized option keys only, whose method is ["delete"] in any letter
    case, [prepare_configuration] raises [ImproperlyConfigured] and the
    message lists the unknown-http-method line; a method that is ["detete"]
    in any letter case passes the method check. *)
Theorem delete_is_unknown rt tc h i confs h1 e a b m opts :
  is_tuple_or_list tc = true →
  reaches rt tc 0 [] h i confs h1 →
  seq_items h1 tc !! i = Some e →
  entry_fields h1 e a b (VStr m) opts →
  lower m = "delete" →
  "detete" ∈ HTTP_METHODS ∧ ("delete" ∉ HTTP_METHODS) ∧
  (∃ h2 errs,
     prepare_configuration rt tc h =
       (h2, Raise (Exn ImproperlyConfigured
                     (join nl (errs ++ [LINK_TO_DOCUMENTATION])))) ∧
     UNKNOWN_HTTP_METHOD_MSG m ∈ errs) ∧
  (∀ m', lower m' = "detete" → method_errors (VStr m') = []).
Proof.
  intros Htc Hr Hi Hfields Hm.
  assert (Hdelete : "delete" ∉ HTTP_METHODS) by (by vm_compute).
  split_and!; [by vm_compute|done| |].
  - destruct (entry_errors_raise rt _ _ _ _ _ _ _ _ _ _ Htc Hr Hi Hfields)
      as (h2 & Hraise).
    assert (Hin : UNKNOWN_HTTP_METHOD_MSG m ∈
                  entry_errors rt h2 a b (VStr m) opts)
      by (apply unknown_method_in_errors; by rewrite Hm).
    exists h2, (entry_errors rt h2 a b (VStr m) opts). split; [|done].
    apply Hraise. intros Hnil. rewrite Hnil in Hin.
    by apply elem_of_nil in Hin.
  - intros m' Hm'. unfold method_errors. rewrite Hm'. by vm_compute.
Qed.

Lemma delete_is_unknown_witness :
  "detete" ∈ HTTP_METHODS ∧ ("delete" ∉ HTTP_METHODS) ∧
  (∃ h2 errs,
     prepare_configuration demo_rt
       (VTuple [VTuple [VStr "home"; VInt 200; VStr "get"];
                VTuple [VStr "item"; VInt 204; VStr "DeLeTe"]]) ∅ =
       (h2, Raise (Exn ImproperlyConfigured
                     (join nl (errs ++ [LINK_TO_DOCUMENTATION])))) ∧
     UNKNOWN_HTTP_METHOD_MSG "DeLeTe" ∈ errs) ∧
  (∀ m', lower m' = "detete" → method_errors (VStr m') = []).
Proof.
  eapply (delete_is_unknown demo_rt _ ∅ 1
            [VTuple [VStr "home"; VInt 200; VStr "get"; VDict []]] ∅ _
            (VStr "item") (VInt 204) "DeLeTe" []).
  - reflexivity.
  - apply (reaches_next demo_rt _ 0 [] ∅
             (VTuple [VStr "home"; VInt 200; VStr "get"]) ∅
             (VTuple [VStr "home"; VInt 200; VStr "get"; VDict []]));
      [reflexivity|vm_compute; reflexivity|apply reaches_here].
  - reflexivity.
  - split; [reflexivity|]. left. split; reflexivity.
  - reflexivity.
Defined.

(** Against C9 without the amendment: the method of this entry is
    ["delete"], yet the message raised is the unsupported-keys message alone
    and does not list the unknown-http-method line. *)
Lemma delete_is_unknown_counterexample :
  prepare_configuration demo_rt delete_bogus_config ∅ =
    (∅, Raise (Exn ImproperlyConfigured
                 (append_doc_link
                    (UNSUPPORTED_CONFIGURATION_KEY_MSG "bogus")))) ∧
  ¬ reports (append_doc_link (UNSUPPORTED_CONFIGURATION_KEY_MSG "bogus"))
            (UNKNOWN_HTTP_METHOD_MSG "delete").
Proof.
  split; [reflexivity|]. apply not_reports_short. vm_compute. lia.
Qed.

(** *** Option values *)

(** X7.  When validation reaches a four-item entry with recognized option
    keys only, and the value of one option fails the check of its key,
    [prepare_configuration] raises [ImproperlyConfigured]; the message holds
    the line that names the key, the kind of value expected, and the type
    and value found. *)
Theorem optional_value_rejected rt tc h i confs h1 e a b c d k v ti :
  is_tuple_or_list tc = true →
  reaches rt tc 0 [] h i confs h1 →
  seq_items h1 tc !! i = Some e →
  is_tuple_or_list e = true →
  seq_items h1 e = [a; b; c; VDict d] →
  unknown_keys (dict_keys d) = [] →
  (k, v) ∈ d → type_check_of k = Some ti → func ti v = false →
  ∃ errs,
    prepare_configuration rt tc h =
      (h1, Raise (Exn ImproperlyConfigured
                    (join nl (errs ++ [LINK_TO_DOCUMENTATION])))) ∧
    INCORRECT_NOT_REQUIRED_PARAM_TYPE_MSG
      (py_str rt h1 k) (type ti) (type_str rt v) (py_str rt h1 v) ∈ errs.
Proof.
  intros Htc Hr Hi He Hitems Hdiff Hin Hti Hf.
  destruct (optional_errors_known rt h1 d Hdiff) as [more Hmore].
  pose proof (optional_errors_elem _ _ _ _ _ _ _ Hmore Hin Hti Hf) as Hline.
  exists ((required_errors rt h1 [a; b; c] ++ method_errors c) ++ more).
  split; [|apply elem_of_app; by right].
  eapply prepare_configuration_raise_at; [done..|].
  rewrite (prepare_test_config_4 _ _ _ _ _ _ _ He Hitems Hdiff), Hmore.
  rewrite entry_verdict_Raise; [done|].
  intros [_ ->]%app_eq_nil. by apply elem_of_nil in Hline.
Qed.

Lemma optional_value_rejected_witness :
  ∃ errs,
    prepare_configuration demo_rt
      (VTuple [VTuple [VStr "home"; VInt 200; VStr "get";
                       VDict [(VStr "request_data", VNone)]]]) ∅ =
      (∅, Raise (Exn ImproperlyConfigured
                   (join nl (errs ++ [LINK_TO_DOCUMENTATION])))) ∧
    INCORRECT_NOT_REQUIRED_PARAM_TYPE_MSG
      (py_str demo_rt ∅ (VStr "request_data")) "dict or callable"
      (type_str demo_rt VNone) (py_str demo_rt ∅ VNone) ∈ errs.
Proof.
  apply (optional_value_rejected demo_rt _ ∅ 0 [] ∅
           (VTuple [VStr "home"; VInt 200; VStr "get";
                    VDict [(VStr "request_data", VNone)]])
           (VStr "home") (VInt 200) (VStr "get")
           [(VStr "request_data", VNone)] (VStr "request_data") VNone
           {| type := "dict or callable"; func := dict_or_callable |}).
  - reflexivity.
  - apply reaches_here.
  - reflexivity.
  - reflexivity.
  - reflexivity.
  - reflexivity.
  - apply list_elem_of_here.
  - reflexivity.
  - reflexivity.
Defined.

(** ** Unknown option keys *)

Lemma join_strings_str rt l :
  Forall (λ v, is_string v = true) l →
  ∃ names, join_strings rt l = Ret names ∧ l = VStr <$> names.
Proof.
  induction 1 as [|v l Hv _ (names & IH & ->)]; [by exists []|].
  destruct v; try discriminate. exists (s :: names). cbn. by rewrite IH.
Qed.

Lemma join_strings_not_str rt l v :
  v ∈ l → is_string v = false →
  ∃ x, join_strings rt l = Raise x ∧ exc_type x = TypeError.
Proof.
  intros Hin Hv. induction l as [|w l IH]; [by apply elem_of_nil in Hin|].
  destruct (is_string w) eqn:Hw.
  - apply elem_of_cons in Hin as [->|Hin]; [congruence|].
    destruct (IH Hin) as (x & Hx & Ht). destruct w; try discriminate.
    exists x. cbn. by rewrite Hx.
  - destruct w; try discriminate; cbn; eauto.
Qed.

Lemma unknown_keys_elem k ks :
  k ∈ unknown_keys ks ↔ k ∈ ks ∧ known_key k = false.
Proof. unfold unknown_keys. rewrite list_elem_of_filter. tauto. Qed.

Lemma demo_rt_set_order_ok : set_order_ok demo_rt.
Proof. intros l. reflexivity. Defined.

(** X8.  With option keys that are strings, an entry with an unknown key
    raises the unsupported-keys message as soon as validation reaches it; the
    message is made of the unknown keys alone, whatever the first three
    fields are. *)
Lemma unsupported_keys_reported rt tc h i confs h1 e a b c d :
  set_order_ok rt →
  is_tuple_or_list tc = true →
  reaches rt tc 0 [] h i confs h1 →
  seq_items h1 tc !! i = Some e →
  is_tuple_or_list e = true →
  seq_items h1 e = [a; b; c; VDict d] →
  unknown_keys (dict_keys d) ≠ [] →
  Forall (λ k, is_string k = true) (unknown_keys (dict_keys d)) →
  ∃ names,
    VStr <$> names ≡ₚ unknown_keys (dict_keys d) ∧
    prepare_configuration rt tc h =
      (h1, Raise (Exn ImproperlyConfigured
                    (append_doc_link
                       (UNSUPPORTED_CONFIGURATION_KEY_MSG (join ", " names))))).
Proof.
  intros Hord Htc Hr Hi He Hitems Hne Hstr.
  destruct (unknown_keys (dict_keys d)) as [|k ks] eqn:Hdiff; [done|].
  destruct (join_strings_str rt (rt_set_order rt (k :: ks)))
    as (names & Hjoin & Hnames).
  { by rewrite (Hord (k :: ks)). }
  exists names. split; [by rewrite <- Hnames|].
  eapply prepare_configuration_raise_at; [done..|].
  rewrite (prepare_test_config_unsupported _ _ _ _ _ _ _ _ _ He Hitems Hdiff).
  unfold unsupported_verdict. by rewrite Hjoin.
Qed.

Lemma unsupported_keys_reported_witness :
  ∃ names,
    VStr <$> names ≡ₚ
      unknown_keys (dict_keys [(VStr "initialize", VCallable (Some "setup"));
                               (VStr "bogus", VInt 1);
                               (VStr "other", VNone)]) ∧
    prepare_configuration demo_rt
      (VTuple [VTuple [VInt 5; VStr "x"; VStr "BAD";
                       VDict [(VStr "initialize", VCallable (Some "setup"));
                              (VStr "bogus", VInt 1);
                              (VStr "other", VNone)]]]) ∅ =
      (∅, Raise (Exn ImproperlyConfigured
                   (append_doc_link
                      (UNSUPPORTED_CONFIGURATION_KEY_MSG (join ", " names))))).
Proof.
  eapply (unsupported_keys_reported demo_rt _ ∅ 0 [] ∅ _
            (VInt 5) (VStr "x") (VStr "BAD")).
  - exact demo_rt_set_order_ok.
  - reflexivity.
  - apply reaches_here.
  - reflexivity.
  - reflexivity.
  - reflexivity.
  - by vm_compute.
  - vm_compute. repeat constructor.
Defined.

(** C10.  When validation reaches a four-item entry whose options have a
    key that is not a [str], the key is unknown, [', '.join(diff)] raises
    [TypeError], and no [ImproperlyConfigured] with the unsupported-keys
    message is raised. *)
Theorem unsupported_key_not_string rt tc h i confs h1 e a b c d k :
  set_order_ok rt →
  is_tuple_or_list tc = true →
  reaches rt tc 0 [] h i confs h1 →
  seq_items h1 tc !! i = Some e →
  is_tuple_or_list e = true →
  seq_items h1 e = [a; b; c; VDict d] →
  k ∈ dict_keys d →
  is_string k = false →
  ∃ x, prepare_configuration rt tc h = (h1, Raise x) ∧
       exc_type x = TypeError.
Proof.
  intros Hord Htc Hr Hi He Hitems Hk Hnot.
  assert (Hin : k ∈ unknown_keys (dict_keys d)).
  { apply unknown_keys_elem. split; [done|]. by destruct k. }
  destruct (unknown_keys (dict_keys d)) as [|k' ks] eqn:Hdiff;
    [by apply elem_of_nil in Hin|].
  destruct (join_strings_not_str rt (rt_set_order rt (k' :: ks)) k)
    as (x & Hjoin & Hx); [by rewrite (Hord (k' :: ks))|done|].
  exists x. split; [|done].
  eapply prepare_configuration_raise_at; [done..|].
  rewrite (prepare_test_config_unsupported _ _ _ _ _ _ _ _ _ He Hitems Hdiff).
  unfold unsupported_verdict. by rewrite Hjoin.
Qed.

Lemma unsupported_key_not_string_witness :
  ∃ x, prepare_configuration demo_rt
         (VTuple [VTuple [VInt 5; VStr "x"; VStr "BAD";
                          VDict [(VStr "bogus", VInt 1); (VInt 2, VInt 3)]]])
         ∅ = (∅, Raise x) ∧
       exc_type x = TypeError.
Proof.
  eapply (unsupported_key_not_string demo_rt _ ∅ 0 [] ∅ _ (VInt 5) (VStr "x")
            (VStr "BAD") [(VStr "bogus", VInt 1); (VInt 2, VInt 3)] (VInt 2)).
  - exact demo_rt_set_order_ok.
  - reflexivity.
  - apply reaches_here.
  - reflexivity.
  - reflexivity.
  - reflexivity.
  - unfold dict_keys. cbn. apply list_elem_of_further, list_elem_of_here.
  - reflexivity.
Defined.

(** ** Exceptions other than [ImproperlyConfigured] *)

(** C3.  [prepare_configuration] lets exceptions of the interpreter escape:
    [TypeError] for an option key that is not a [str] and for an entry
    without a length, [AttributeError] for options that are not a dict and
    for a configuration given as one bare entry. *)
Theorem prepare_configuration_builtin_exceptions rt h :
  set_order_ok rt →
  (∃ x, prepare_configuration rt
          (VTuple [VTuple [VStr "home"; VInt 200; VStr "get";
                           VDict [(VInt 1, VInt 2)]]]) h = (h, Raise x) ∧
        exc_type x = TypeError) ∧
  (∃ x, prepare_configuration rt
          (VTuple [VTuple [VStr "home"; VInt 200; VStr "get"; VNone]]) h =
          (h, Raise x) ∧
        exc_type x = AttributeError) ∧
  (∃ x, prepare_configuration rt
          (VTuple [VStr "home"; VInt 200; VStr "get"]) h = (h, Raise x) ∧
        exc_type x = AttributeError) ∧
  (∃ x, prepare_configuration rt (VTuple [VInt 200]) h = (h, Raise x) ∧
        exc_type x = TypeError).
Proof.
  intros Hord. split_and!.
  - destruct (join_strings_not_str rt (rt_set_order rt [VInt 1]) (VInt 1))
      as (x & Hjoin & Hx);
      [rewrite (Hord [VInt 1]); apply list_elem_of_here|done|].
    exists x. split; [|done].
    eapply (prepare_configuration_raise_at rt _ h 0 [] h);
      [done|apply reaches_here|reflexivity|].
    rewrite (prepare_test_config_unsupported rt _ (VStr "home") (VInt 200)
               (VStr "get") [(VInt 1, VInt 2)] (VInt 1) []);
      [|done..].
    unfold unsupported_verdict. by rewrite Hjoin.
  - eexists. split; [|shelve].
    eapply (prepare_configuration_raise_at rt _ h 0 [] h);
      [done|apply reaches_here|reflexivity|reflexivity].
    Unshelve. done.
  - eexists. split; [|shelve].
    eapply (prepare_configuration_raise_at rt _ h 0 [] h);
      [done|apply reaches_here|reflexivity|reflexivity].
    Unshelve. done.
  - eexists. split; [|shelve].
    eapply (prepare_configuration_raise_at rt _ h 0 [] h);
      [done|apply reaches_here|reflexivity|reflexivity].
    Unshelve. done.
Qed.

Lemma prepare_configuration_builtin_exceptions_witness :
  (∃ x, prepare_configuration demo_rt
          (VTuple [VTuple [VStr "home"; VInt 200; VStr "get";
                           VDict [(VInt 1, VInt 2)]]]) ∅ = (∅, Raise x) ∧
        exc_type x = TypeError) ∧
  (∃ x, prepare_configuration demo_rt
          (VTuple [VTuple [VStr "home"; VInt 200; VStr "get"; VNone]]) ∅ =
          (∅, Raise x) ∧
        exc_type x = AttributeError) ∧
  (∃ x, prepare_configuration demo_rt
          (VTuple [VStr "home"; VInt 200; VStr "get"]) ∅ = (∅, Raise x) ∧
        exc_type x = AttributeError) ∧
  (∃ x, prepare_configuration demo_rt (VTuple [VInt 200]) ∅ = (∅, Raise x) ∧
        exc_type x = TypeError).
Proof.
  apply (prepare_configuration_builtin_exceptions demo_rt ∅).
  exact demo_rt_set_order_ok.
Defined.

Lemma entry_verdict_type errs conf x :
  entry_verdict errs conf = Raise x → exc_type x = ImproperlyConfigured.
Proof. destruct errs; [done|]. by intros [= <-]. Qed.

Lemma prepare_test_config_shaped rt e h h' x :
  set_order_ok rt →
  entry_shaped h e →
  prepare_test_config rt e h = (h', Raise x) →
  exc_type x = ImproperlyConfigured.
Proof.
  intros Hord [He Hshape] H.
  destruct (seq_items h e) as [|a [|b [|c [|o [|]]]]] eqn:Hitems;
    try (rewrite prepare_test_config_bad_length in H
           by (rewrite ?Hitems; cbn; done || lia); by injection H as _ <-).
  - destruct e; try done; cbn in Hitems.
    + subst. rewrite prepare_test_config_tuple3 in H. injection H as _ H.
      by eapply entry_verdict_type.
    + rewrite (prepare_test_config_list3 _ _ _ _ _ _ Hitems) in H.
      injection H as _ H. by eapply entry_verdict_type.
  - destruct (Hshape a b c o eq_refl) as (d & -> & Hkeys).
    destruct (unknown_keys (dict_keys d)) as [|k ks] eqn:Hdiff.
    + rewrite (prepare_test_config_4 _ _ _ _ _ _ _ He Hitems Hdiff) in H.
      destruct (optional_errors_known rt h d Hdiff) as [more Hmore].
      rewrite Hmore in H. injection H as _ H. by eapply entry_verdict_type.
    + rewrite (prepare_test_config_unsupported _ _ _ _ _ _ _ _ _ He Hitems
                 Hdiff) in H.
      unfold unsupported_verdict in H.
      destruct (join_strings_str rt (rt_set_order rt (k :: ks)))
        as (names & Hjoin & _).
      { rewrite (Hord (k :: ks)), <- Hdiff. apply Forall_forall.
        intros v [Hv _]%unknown_keys_elem.
        by eapply Forall_forall in Hkeys. }
      rewrite Hjoin in H. by injection H as _ <-.
Qed.

(** X9.  For a configuration of the documented shape, in which every entry
    is a tuple or list and every fourth item is a dict whose keys are
    strings, every exception that [prepare_configuration] raises is
    [ImproperlyConfigured]. *)
Lemma prepare_configuration_shaped rt tc h h' x :
  set_order_ok rt →
  Forall (entry_shaped h) (seq_items h tc) →
  prepare_configuration rt tc h = (h', Raise x) →
  exc_type x = ImproperlyConfigured.
Proof.
  intros Hord Hshape H.
  apply prepare_configuration_Raise in H
    as [(_ & _ & ->)|[(_ & _ & _ & ->)|(Htc & j & confs & h1 & e & Hr & Hj & He)]];
    [done..|].
  apply (reaches_inv _ h) in Hr as [Hg Hsame _]; [|apply loop_inv_start].
  rewrite Hsame in Hj.
  eapply Forall_lookup_1 in Hshape as [Hseq Hfour]; [|exact Hj].
  eapply prepare_test_config_shaped; [done| |exact He].
  split; [done|]. intros a b c o Hitems.
  destruct e; try done; cbn in Hitems, Hfour; [by eapply Hfour|].
  destruct (grown_ok_deref _ _ a0 Hg) as [Heq|(a'&b'&c'&Hr0&_&Hr1)].
  - rewrite Heq in Hitems. by eapply Hfour.
  - rewrite Hr1 in Hitems. injection Hitems as <- <- <- <-.
    exists []. split; [done|]. constructor.
Qed.

Lemma prepare_configuration_shaped_witness :
  exc_type (Exn ImproperlyConfigured
              (append_doc_link (UNSUPPORTED_CONFIGURATION_KEY_MSG "bogus"))) =
  ImproperlyConfigured.
Proof.
  apply (prepare_configuration_shaped demo_rt bogus_key_config ∅ ∅).
  - exact demo_rt_set_order_ok.
  - constructor; [|constructor]. split; [reflexivity|].
    intros a b c o [= <- <- <- <-]. eexists. split; [reflexivity|].
    constructor; [reflexivity|constructor].
  - reflexivity.
Defined.

(** ** Side effects on the configuration *)

(** C5.  [prepare_configuration] is not free of side effects: when it
    returns, every entry that is a list of three items has been extended in
    place with [{}], so the caller's configuration has changed. *)
Theorem prepare_configuration_extends_lists rt tc h h' confs r :
  prepare_configuration rt tc h = (h', Ret confs) →
  VList r ∈ seq_items h tc →
  length (deref h r) = 3 →
  deref h' r = deref h r ++ [VDict []] ∧ h' ≠ h.
Proof.
  intros H Hin Hlen.
  apply prepare_configuration_Ret in H as (_ & _ & Hp).
  apply list_elem_of_lookup in Hin as [i Hi].
  destruct (Forall2_lookup_l _ _ _ _ _ Hp Hi) as (conf & _ & Hpassed).
  assert (Hext : deref h' r = deref h r ++ [VDict []]).
  { destruct Hpassed as [(a & b & c & Hitems & _ & _ & Hr)|
                         (a & b & c & d & _ & Hitems & _)];
      cbn in Hitems; rewrite Hitems in *; [done|discriminate]. }
  split; [done|]. intros ->.
  apply (f_equal length) in Hext. rewrite length_app in Hext. cbn in Hext. lia.
Qed.

Lemma prepare_configuration_extends_lists_witness :
  deref (<[0 := [VStr "about"; VInt 200; VStr "GET"; VDict []]]> demo_heap) 0 =
    deref demo_heap 0 ++ [VDict []] ∧
  <[0 := [VStr "about"; VInt 200; VStr "GET"; VDict []]]> demo_heap ≠ demo_heap.
Proof.
  apply (prepare_configuration_extends_lists demo_rt (VTuple [VList 0])
           demo_heap _ [VList 0] 0).
  - vm_compute. reflexivity.
  - apply list_elem_of_here.
  - reflexivity.
Defined.

(** A list entry is extended even when validation then rejects it. *)
Example prepare_configuration_extends_rejected_list :
  prepare_configuration demo_rt (VTuple [VList 0])
    {[ 0 := [VStr "about"; VStr "200"; VStr "GET"] ]} =
  ({[ 0 := [VStr "about"; VStr "200"; VStr "GET"; VDict []] ]},
   Raise (Exn ImproperlyConfigured
            (join nl [status_problem demo_rt ∅ (VStr "200");
                      LINK_TO_DOCUMENTATION]))).
Proof. vm_compute. reflexivity. Qed.

Lemma reaches_store rt tc i confs h j confs' h' :
  reaches rt tc i confs h j confs' h' →
  (∀ r, VList r ∈ seq_items h tc → length (deref h r) ≠ 3) →
  h' = h.
Proof.
  induction 1 as [|i confs h e h1 conf j confs' h' Hi He _ IH]; [done|].
  intros Hno.
  apply prepare_test_config_store in He as [->|(r & -> & Hlen & _)];
    [by apply IH|].
  exfalso. eapply Hno; [|done]. by eapply list_elem_of_lookup_2.
Qed.

(** The store is left as it was when no entry is a list of three items, in
    particular when every entry is a tuple. *)
Lemma prepare_configuration_frame rt tc h h' o :
  prepare_configuration rt tc h = (h', o) →
  (∀ r, VList r ∈ seq_items h tc → length (deref h r) ≠ 3) →
  h' = h.
Proof.
  intros H Hno. destruct o as [confs|x|].
  - unfold prepare_configuration in H.
    destruct (is_tuple_or_list tc); [|done]. unfold bind, get_heap in H.
    destruct (for_each_config _ _ _ _ _ _) as [h1 [out| |]] eqn:Hloop;
      try discriminate.
    destruct out; [discriminate|]. injection H as <- _.
    apply for_each_config_outcome in Hloop as (j & Hr & _).
    by eapply reaches_store.
  - apply prepare_configuration_Raise in H
      as [(_ & -> & _)|[(_ & _ & -> & _)|
                        (Htc & j & confs & h1 & e & Hr & Hj & He)]];
      [done..|].
    apply reaches_store in Hr as ->; [|done].
    apply prepare_test_config_store in He as [->|(r & -> & Hlen & _)];
      [done|].
    exfalso. eapply Hno; [|done]. by eapply list_elem_of_lookup_2.
  - by pose proof (prepare_configuration_terminates rt tc h) as Ht;
      rewrite H in Ht.
Qed.

(** *** What the call can change *)

Lemma footprint_step rt h0 tc i h e h' o :
  seq_items h tc = seq_items h0 tc →
  seq_items h tc !! i = Some e →
  prepare_test_config rt e h = (h', o) →
  footprint h0 tc h → footprint h0 tc h'.
Proof.
  intros Hsame Hi He Hfp.
  apply prepare_test_config_store in He as [->|(r & -> & Hlen & ->)]; [done|].
  rewrite Hsame in Hi. apply list_elem_of_lookup_2 in Hi.
  intros r'. destruct (decide (r = r')) as [<-|Hne].
  - rewrite lookup_insert_eq. destruct (Hfp r) as [Hr|(_ & Hlen0 & Hr)].
    + assert (Hd : deref h r = deref h0 r) by (unfold deref; by rewrite Hr).
      right. rewrite <- Hd. by split_and!.
    + exfalso. unfold deref in Hlen at 1. rewrite Hr in Hlen. cbn in Hlen.
      rewrite length_app in Hlen. cbn in Hlen. lia.
  - rewrite lookup_insert_ne by done. apply Hfp.
Qed.

Lemma reaches_footprint rt h0 tc i confs h j confs' h' :
  reaches rt tc i confs h j confs' h' →
  loop_inv h0 tc i confs h →
  footprint h0 tc h → footprint h0 tc h'.
Proof.
  induction 1 as [|i confs h e h1 conf j confs' h' Hi He _ IH]; [done|].
  intros Hinv Hfp. apply IH.
  - by eapply loop_inv_step.
  - eapply footprint_step; [apply Hinv|done..].
Qed.

(** X10.  In whatever way [prepare_configuration] ends, the only objects it
    has changed are entries of the configuration that were lists of three
    items, each extended with [{}]; every other list of the store is as it
    was. *)
Theorem prepare_configuration_footprint rt tc h h' o :
  prepare_configuration rt tc h = (h', o) → footprint h tc h'.
Proof.
  assert (Hstart : footprint h tc h) by (intros r; by left).
  unfold prepare_configuration. destruct (is_tuple_or_list tc);
    [|by intros [= <- _]].
  unfold bind, get_heap.
  destruct (for_each_config _ _ _ _ _ _) as [h1 out] eqn:Hloop.
  assert (Hfp : footprint h tc h1).
  { destruct out as [confs|x|].
    - apply for_each_config_outcome in Hloop as (j & Hr & _).
      eapply reaches_footprint; [done|apply loop_inv_start|done].
    - apply for_each_config_outcome in Hloop
        as (j & confs & h2 & e & Hr & Hj & He).
      pose proof (reaches_inv _ h _ _ _ _ _ _ _ Hr (loop_inv_start h tc))
        as Hinv.
      eapply footprint_step; [apply Hinv|done..|].
      eapply reaches_footprint; [done|apply loop_inv_start|done].
    - (* the loop never uses up its budget *)
      exfalso.
      eapply (for_each_config_terminates rt h tc _ 0 [] h (grown_refl h));
        [|by rewrite Hloop].
      lia. }
  destruct out as [[|c confs]|x|]; by intros [= <- _].
Qed.

Lemma prepare_configuration_footprint_witness :
  footprint demo_heap demo_config
    (<[0 := [VStr "about"; VInt 200; VStr "GET"; VDict []]]> demo_heap).
Proof.
  apply (prepare_configuration_footprint demo_rt demo_config demo_heap _
           (Ret [ VTuple [VStr "home"; VInt 200; VStr "get"; VDict []];
                  VList 0;
                  VTuple [VStr "api:items"; VInt 404; VStr "post";
                          VDict [(VStr "request_data",
                                  VCallable (Some "payload"))]] ])).
  vm_compute. reflexivity.
Defined.

(** ** Test names *)

Lemma lstrip_replace_colon s :
  lstrip_char "/" (replace_char ":" "_" s) =
  replace_char ":" "_" (lstrip_char "/" s).
Proof.
  induction s as [|c s IH]; [done|]. cbn [replace_char lstrip_char].
  destruct (Ascii.eqb_spec c ":") as [->|Hc]; [done|].
  destruct (Ascii.eqb_spec c "/") as [->|Hs]; [done|].
  cbn [replace_char]. by rewrite (proj2 (Ascii.eqb_neq _ _) Hc).
Qed.

Lemma replace_char_empty old new s :
  replace_char old new s = "" ↔ s = "".
Proof. by destruct s. Qed.

Lemma rstrip_replace_colon s :
  rstrip_char "/" (replace_char ":" "_" s) =
  replace_char ":" "_" (rstrip_char "/" s).
Proof.
  induction s as [|c s IH]; [done|]. cbn [replace_char rstrip_char].
  rewrite IH. destruct (rstrip_char "/" s) as [|c' r] eqn:Hr.
  - cbn [replace_char].
    destruct (Ascii.eqb_spec c ":") as [->|Hc]; [done|].
    destruct (Ascii.eqb_spec c "/") as [->|Hs]; [done|].
    cbn [replace_char]. by rewrite (proj2 (Ascii.eqb_neq _ _) Hc).
  - done.
Qed.

Lemma replace_both s :
  replace_char "/" "_" (replace_char ":" "_" s) =
  underscore_colons_and_slashes s.
Proof.
  induction s as [|c s IH]; [done|]. cbn. rewrite IH. f_equal.
  destruct (Ascii.eqb_spec c ":") as [->|Hc]; [done|].
  by destruct (Ascii.eqb_spec c "/") as [->|Hs].
Qed.

(** The code strips between the two replacements; that is the slug of the
    documentation. *)
Lemma prepared_url_spec u :
  replace_char "/" "_" (strip_char "/" (replace_char ":" "_" u)) = spec_slug u.
Proof.
  unfold strip_char, spec_slug.
  by rewrite lstrip_replace_colon, rstrip_replace_colon, replace_both.
Qed.

(** *** Stripping and lower-casing, in their own terms *)












Lemma get_lower i s : String.get i (lower s) = lower_char <$> String.get i s.
Proof.
  revert i. induction s as [|c s IH]; intros [|i]; try done. cbn. apply IH.
Qed.

Lemma length_lower s : String.length (lower s) = String.length s.
Proof. induction s as [|c s IH]; [done|]. cbn. by rewrite IH. Qed.

Lemma lower_lower_cased m : lower_cased m (lower m).
Proof.
  split; [apply length_lower|].
  intros i c Hc. rewrite get_lower, Hc. cbn. f_equal.
  unfold lower_char. case_bool_decide as Hd.
  - destruct Hd as [?%Nat.leb_le ?%Nat.leb_le]. by rewrite H, H0.
  - destruct (Nat.leb_spec 65 (nat_of_ascii c)), (Nat.leb_spec (nat_of_ascii c) 90); try done.
    exfalso. apply Hd. lia.
Qed.

(** *** The hexadecimal suffix *)

Lemma append_inj_length s1 t1 s2 t2 :
  String.length s1 = String.length t1 →
  s1 +:+ s2 = t1 +:+ t2 → s1 = t1 ∧ s2 = t2.
Proof.
  revert t1. induction s1 as [|c s1 IH]; intros [|d t1]; try done.
  rewrite !append_cons. cbn. intros [= Hlen] [= -> H].
  by destruct (IH _ Hlen H) as [-> ->].
Qed.

Lemma append_inj_suffix s1 t1 s2 t2 :
  String.length s2 = String.length t2 →
  s1 +:+ s2 = t1 +:+ t2 → s2 = t2.
Proof.
  intros Hlen H. apply (append_inj_length s1 t1); [|done].
  apply (f_equal String.length) in H. rewrite !length_append in H. lia.
Qed.

Lemma length_hex_digits k n : String.length (hex_digits k n) = k.
Proof.
  revert n. induction k as [|k IH]; intros n; [done|].
  cbn [hex_digits]. rewrite length_append, IH. cbn. lia.
Qed.

Lemma hex_value_digit n : (n < 16)%N → hex_value (hex_digit n) = n.
Proof.
  intros Hn.
  assert (n = 0 ∨ n = 1 ∨ n = 2 ∨ n = 3 ∨ n = 4 ∨ n = 5 ∨ n = 6 ∨ n = 7 ∨
          n = 8 ∨ n = 9 ∨ n = 10 ∨ n = 11 ∨ n = 12 ∨ n = 13 ∨ n = 14 ∨
          n = 15)%N as Hcases by lia.
  repeat (destruct Hcases as [->|Hcases]; [reflexivity|]). by subst.
Qed.

Lemma hex_digit_inj a b :
  (a < 16)%N → (b < 16)%N → hex_digit a = hex_digit b → a = b.
Proof.
  intros Ha Hb H. rewrite <- (hex_value_digit a), <- (hex_value_digit b) by done.
  by rewrite H.
Qed.

Lemma hex_digits_inj k a b :
  (a < 16 ^ N.of_nat k)%N → (b < 16 ^ N.of_nat k)%N →
  hex_digits k a = hex_digits k b → a = b.
Proof.
  revert a b. induction k as [|k IH]; intros a b Ha Hb.
  - cbn in Ha, Hb. lia.
  - rewrite Nat2N.inj_succ, N.pow_succ_r' in Ha, Hb.
    cbn [hex_digits]. intros H.
    apply append_inj_length in H as [Hhigh [= Hlow]];
      [|by rewrite !length_hex_digits].
    apply IH in Hhigh;
      [|by apply N.Div0.div_lt_upper_bound..].
    apply hex_digit_inj in Hlow; [|by apply N.mod_lt..].
    rewrite (N.div_mod a 16), (N.div_mod b 16) by done. congruence.
Qed.

Lemma uuid_hex_inj a b :
  (a < 2 ^ 128)%N → (b < 2 ^ 128)%N → uuid_hex a = uuid_hex b → a = b.
Proof. apply (hex_digits_inj 32). Qed.

Lemma prepare_test_name_str rt u m status uuid h :
  prepare_test_name rt (VStr u) (VStr m) status uuid h =
  (h, Ret (test_name rt h u m status uuid)).
Proof.
  unfold prepare_test_name, test_name, bind, ret, get_heap. cbn.
  by rewrite prepared_url_spec.
Qed.

(** Names that end in the hexadecimal form of different uuids differ,
    whatever precedes the suffix. *)
Lemma uuid_suffix_distinct p p' a b :
  (a < 2 ^ 128)%N → (b < 2 ^ 128)%N → a ≠ b →
  p +:+ uuid_hex a ≠ p' +:+ uuid_hex b.
Proof.
  intros Ha Hb Hne H. apply Hne, uuid_hex_inj; [done..|].
  apply (append_inj_suffix p p'); [|done].
  unfold uuid_hex. by rewrite !length_hex_digits.
Qed.

Lemma test_name_suffix rt h u m status uuid :
  ∃ p, test_name rt h u m status uuid = p +:+ uuid_hex uuid.
Proof.
  exists ("test_smoke_" +:+ spec_slug u +:+ "_" +:+ str_lower rt m +:+ "_" +:+
          py_str rt h status +:+ "_").
  unfold test_name. by rewrite !append_assoc.
Qed.



Example test_name_example :
  test_name demo_rt ∅ "/api:items/all/" "GET" (VInt 200) 255 =
  "test_smoke_api_items_all_get_200_000000000000000000000000000000ff".
Proof. vm_compute. reflexivity. Qed.

(** ** The configuration errors *)

Lemma bind_Raise {A B} (m : py A) (k : A → py B) h h' x :
  bind m k h = (h', Raise x) →
  m h = (h', Raise x) ∨ ∃ a h1, m h = (h1, Ret a) ∧ k a h1 = (h', Raise x).
Proof.
  unfold bind. destruct (m h) as [h1 [a|e|]]; intros H.
  - right. by exists a, h1.
  - left. by injection H as <- <-.
  - discriminate.
Qed.

Lemma builtin_raise_type {A} rt t what h h' x :
  @builtin_raise rt A t what h = (h', Raise x) → exc_type x = t.
Proof. by intros [= _ <-]. Qed.

Lemma py_len_Raise rt v h h' x :
  py_len rt v h = (h', Raise x) → exc_type x = TypeError.
Proof. destruct v; cbn; by intros [= _ <-]. Qed.

Lemma iadd_empty_dict_Raise rt v h h' x :
  iadd_empty_dict rt v h = (h', Raise x) → exc_type x = TypeError.
Proof. destruct v; cbn; by intros [= _ <-]. Qed.

Lemma getitem_Raise rt v i h h' x :
  getitem rt v i h = (h', Raise x) → exc_type x ≠ ImproperlyConfigured.
Proof.
  destruct v; cbn; unfold index_list; repeat case_match;
    by intros [= _ <-].
Qed.

Lemma slice3_Raise rt v h h' x :
  slice3 rt v h = (h', Raise x) → exc_type x = TypeError.
Proof. destruct v; cbn; by intros [= _ <-]. Qed.

Lemma keys_Raise rt v h h' x :
  keys rt v h = (h', Raise x) → exc_type x = AttributeError.
Proof. destruct v; cbn; by intros [= _ <-]. Qed.

Lemma items_Raise rt v h h' x :
  items rt v h = (h', Raise x) → exc_type x = AttributeError.
Proof. destruct v; cbn; by intros [= _ <-]. Qed.

Lemma join_strings_Raise rt l x :
  join_strings rt l = Raise x → exc_type x = TypeError.
Proof.
  induction l as [|v l IH]; [done|].
  destruct v; cbn; try by intros [= <-].
  destruct (join_strings rt l); [done| |done]. intros [= <-]. by apply IH.
Qed.

Lemma optional_errors_Raise rt h d x :
  optional_errors rt h d = Raise x → exc_type x = KeyError.
Proof.
  induction d as [|[k v] d IH]; [done|].
  unfold optional_errors; fold (optional_errors rt h d).
  destruct (type_check_of k); [|by intros [= <-]].
  destruct (optional_errors rt h d); [done| |done]. intros [= <-]. by apply IH.
Qed.

Lemma normalize_length_Raise rt e h h' x :
  normalize_length rt e h = (h', Raise x) →
  exc_type x = ImproperlyConfigured →
  exc_msg x = append_doc_link IMPROPERLY_BUILT_CONFIGURATION_MSG ∨
  ∃ names,
    exc_msg x =
    append_doc_link (UNSUPPORTED_CONFIGURATION_KEY_MSG (join ", " names)).
Proof.
  unfold normalize_length. intros H Ht.
  apply bind_Raise in H as [H|(n & h1 & _ & H)];
    [apply py_len_Raise in H; congruence|].
  destruct (n =? 3).
  { apply bind_Raise in H as [H|(v & h2 & _ & [=])].
    apply iadd_empty_dict_Raise in H; congruence. }
  destruct (n =? 4); [|injection H as _ <-; by left].
  apply bind_Raise in H as [H|(o & h2 & _ & H)];
    [apply getitem_Raise in H; congruence|].
  apply bind_Raise in H as [H|(ks & h3 & _ & H)];
    [apply keys_Raise in H; congruence|].
  destruct (unknown_keys ks); [done|].
  apply bind_Raise in H as [H|(names & h4 & _ & H)].
  - injection H as _ H. apply join_strings_Raise in H. congruence.
  - injection H as _ <-. right. by exists names.
Qed.

Lemma prepare_test_config_Raise rt e h h' x :
  prepare_test_config rt e h = (h', Raise x) →
  exc_type x = ImproperlyConfigured →
  ∃ body, entry_problem body ∧ exc_msg x = append_doc_link body.
Proof.
  unfold prepare_test_config. intros H Ht.
  apply bind_Raise in H as [H|([tc cd] & h1 & _ & H)].
  { destruct (normalize_length_Raise _ _ _ _ _ H Ht) as [Hm|[names Hm]];
      eexists; (split; [|exact Hm]); [by left|right; left; by eexists]. }
  apply bind_Raise in H as [H|(first3 & h2 & _ & H)];
    [apply slice3_Raise in H; congruence|].
  apply bind_Raise in H as [[=]|(hh & h3 & [= <- <-] & H)].
  apply bind_Raise in H as [H|(c & h4 & _ & H)];
    [apply getitem_Raise in H; congruence|].
  apply bind_Raise in H as [H|(errs & h5 & Herrs & H)].
  { destruct cd; [|done].
    apply bind_Raise in H as [H|(o & h6 & _ & H)];
      [apply getitem_Raise in H; congruence|].
    apply bind_Raise in H as [H|(kvs & h7 & _ & H)];
      [apply items_Raise in H; congruence|].
    apply bind_Raise in H as [[=]|(hh' & h8 & _ & H)].
    apply bind_Raise in H as [H|(more & h9 & _ & [=])].
    injection H as _ H. apply optional_errors_Raise in H. congruence. }
  assert (Hlines : Forall problem_line errs).
  { clear H. destruct cd.
    - unfold bind, get_heap, lift, ret in Herrs.
      repeat case_match; simplify_eq.
      apply Forall_app. split; [apply Forall_app; split|].
      + apply required_errors_lines.
      + apply method_errors_lines.
      + by eapply optional_errors_lines.
    - injection Herrs as _ <-. apply Forall_app. split.
      + apply required_errors_lines.
      + apply method_errors_lines. }
  destruct errs as [|l errs]; [done|]. injection H as _ <-.
  exists (join nl (l :: errs)). split.
  - right. right. by exists (l :: errs).
  - change (join nl ((l :: errs) ++ [LINK_TO_DOCUMENTATION]) =
            append_doc_link (join nl (l :: errs))).
    by rewrite join_snoc.
Qed.

Lemma append_doc_link_inj b1 b2 :
  append_doc_link b1 = append_doc_link b2 → b1 = b2.
Proof.
  unfold append_doc_link. intros H.
  apply (append_inj_length b1 b2) in H as [H _]; [done|].
  apply (f_equal String.length) in H. rewrite !length_append in H. lia.
Qed.

Lemma problem_line_get l rest :
  problem_line l →
  String.get 17 l ≠ Some "T"%char ∧ String.get 17 (l +:+ rest) ≠ Some "T"%char.
Proof.
  intros [(n & i & t & a & v & ->)|[(m & ->)|(n & t & a & v & ->)]];
    by vm_compute.
Qed.

(** The message of a rejected entry is told from the two messages about the
    configuration as a whole by its eighteenth character. *)
Lemma entry_problem_get body :
  entry_problem body → String.get 17 body ≠ Some "T"%char.
Proof.
  intros [->|[(names & ->)|(errs & Hne & Hlines & ->)]]; [by vm_compute..|].
  destruct Hlines as [|l errs Hl _]; [done|].
  destruct errs as [|l' errs].
  - by apply (problem_line_get l "").
  - by apply problem_line_get.
Qed.

(** X11.  Every [ImproperlyConfigured] that [prepare_configuration] raises
    carries a text followed by a newline and the documentation link; the
    text is the incorrect-configuration message, the empty-configuration
    message, the improperly-built message, the unsupported-keys message, or
    one or more problem lines joined by newlines. *)
Theorem configuration_error_messages rt tc h h' x :
  prepare_configuration rt tc h = (h', Raise x) →
  exc_type x = ImproperlyConfigured →
  ∃ body,
    exc_msg x = body +:+ nl +:+ LINK_TO_DOCUMENTATION ∧
    (body = INCORRECT_TEST_CONFIGURATION_MSG ∨
     body = EMPTY_TEST_CONFIGURATION_MSG ∨
     entry_problem body).
Proof.
  intros H Ht.
  apply prepare_configuration_Raise in H
    as [(_ & _ & ->)|[(_ & _ & _ & ->)|(_ & j & confs & h1 & e & _ & _ & He)]].
  - eexists. split; [reflexivity|]. by left.
  - eexists. split; [reflexivity|]. right. by left.
  - destruct (prepare_test_config_Raise _ _ _ _ _ He Ht) as (body & Hb & ->).
    exists body. split; [done|]. by right; right.
Qed.

Lemma configuration_error_messages_witness :
  ∃ body,
    exc_msg (Exn ImproperlyConfigured
               (append_doc_link (UNSUPPORTED_CONFIGURATION_KEY_MSG "bogus"))) =
      body +:+ nl +:+ LINK_TO_DOCUMENTATION ∧
    (body = INCORRECT_TEST_CONFIGURATION_MSG ∨
     body = EMPTY_TEST_CONFIGURATION_MSG ∨
     entry_problem body).
Proof.
  apply (configuration_error_messages demo_rt bogus_key_config ∅ ∅);
    reflexivity.
Defined.

(** X12.  [prepare_configuration] raises the empty-configuration error
    exactly when the configuration is a tuple or list without items; the
    store is left as it was. *)
Theorem empty_configuration_message rt tc h h' :
  prepare_configuration rt tc h =
    (h', Raise (Exn ImproperlyConfigured
                  (append_doc_link EMPTY_TEST_CONFIGURATION_MSG))) ↔
  is_tuple_or_list tc = true ∧ seq_items h tc = [] ∧ h' = h.
Proof.
  split.
  - intros H. apply prepare_configuration_Raise in H
      as [(_ & _ & H)|[(Htc & Hnil & -> & _)|
                           (_ & j & confs & h1 & e & _ & _ & He)]].
    + apply (f_equal exc_msg) in H. by apply append_doc_link_inj in H.
    + done.
    + destruct (prepare_test_config_Raise _ _ _ _ _ He eq_refl)
        as (body & Hb & Hmsg).
      apply append_doc_link_inj in Hmsg as <-.
      by apply entry_problem_get in Hb.
  - intros (Htc & Hnil & ->). unfold prepare_configuration. rewrite Htc.
    unfold bind, get_heap. rewrite Hnil. cbn. by rewrite Hnil.
Qed.

(** X13.  [prepare_configuration] raises the incorrect-configuration error
    exactly when the configuration is neither a tuple nor a list; the store
    is left as it was. *)
Theorem incorrect_configuration_message rt tc h h' :
  prepare_configuration rt tc h =
    (h', Raise (Exn ImproperlyConfigured
                  (append_doc_link INCORRECT_TEST_CONFIGURATION_MSG))) ↔
  is_tuple_or_list tc = false ∧ h' = h.
Proof.
  split.
  - intros H. apply prepare_configuration_Raise in H
      as [(Htc & -> & _)|[(_ & _ & _ & H)|
                          (_ & j & confs & h1 & e & _ & _ & He)]].
    + done.
    + apply (f_equal exc_msg) in H. by apply append_doc_link_inj in H.
    + destruct (prepare_test_config_Raise _ _ _ _ _ He eq_refl)
        as (body & Hb & Hmsg).
      apply append_doc_link_inj in Hmsg as <-.
      by apply entry_problem_get in Hb.
  - intros (Htc & ->). unfold prepare_configuration. by rewrite Htc.
Qed.

(** ** The metaclass *)

Lemma generated_methods_body name bases attrs :
  generated_methods (Class name bases true (AValue <$> attrs)) = ∅.
Proof.
  unfold generated_methods. cbn. apply map_eq. intros k.
  rewrite lookup_omap, lookup_fmap, lookup_empty.
  by destruct (attrs !! k).
Qed.

Lemma generated_methods_setattr cls name f :
  generated_methods (class_setattr cls name f) =
  <[name := f]> (generated_methods cls).
Proof.
  unfold generated_methods, class_setattr. destruct cls. cbn.
  by erewrite omap_insert_Some.
Qed.

Lemma setattr_ok rt cls name f h :
  setattr_error rt name = None →
  setattr rt cls name f h = (h, Ret (class_setattr cls name f)).
Proof. unfold setattr. by intros ->. Qed.

Lemma setattr_Ret rt cls name f h h' cls' :
  setattr rt cls name f h = (h', Ret cls') →
  cls' = class_setattr cls name f ∧ h' = h.
Proof.
  unfold setattr. destruct (setattr_error rt name); [done|].
  by intros [= <- <-].
Qed.

(** A generated test name is never an attribute of the type object. *)
Lemma setattr_test_name rt h u m status uuid :
  setattr_error rt (test_name rt h u m status uuid) = None.
Proof. reflexivity. Qed.

Lemma setattr_default_name rt : setattr_error rt FAIL_METHOD_NAME = None.
Proof. reflexivity. Qed.

(** *** The failsafe *)

Lemma meta_new_unfold rt calls name bases attrs h :
  filter (λ b, cls_meta b = true) bases ≠ [] →
  let cls := Class name bases true (AValue <$> attrs) in
  meta_new rt calls name bases attrs h =
  match validate_class rt cls h with
  | (h', Raise e) =>
      (let* cls := attach_fail_method rt cls e in ret (cls, calls)) h'
  | (h', Ret config) => attach_test_methods rt cls calls config h'
  | (h', Exhausted) => (h', Exhausted)
  end.
Proof.
  intros Hparents cls. unfold meta_new.
  by destruct (filter _ bases).
Qed.

Lemma format_exc_detail rt e :
  ∃ pre post, format_exc rt e = pre +:+ exc_msg e +:+ post.
Proof.
  exists ("Traceback (most recent call last):" +:+ nl +:+ rt_frames rt e +:+
          exn_type_name (exc_type e) +:+ ": "), nl.
  unfold format_exc. by rewrite !append_assoc.
Qed.

Lemma meta_new_failsafe rt calls name bases attrs h h' e fname :
  let cls := Class name bases true (AValue <$> attrs) in
  filter (λ b, cls_meta b = true) bases ≠ [] →
  validate_class rt cls h = (h', Raise e) →
  class_lookup cls "FAIL_METHOD_NAME" = Some (AValue (VStr fname)) →
  setattr_error rt fname = None →
  let f := Function fname None (fail_method (format_exc rt e)) in
  meta_new rt calls name bases attrs h =
    (h', Ret (class_setattr cls fname f, calls)) ∧
  generated_methods (class_setattr cls fname f) = {[ fname := f ]}.
Proof.
  intros cls Hparents Htry Hname Hset f. split.
  - rewrite meta_new_unfold by done. fold cls. rewrite Htry.
    unfold attach_fail_method, class_getattr, bind, ret, get_heap.
    rewrite Hname. cbn [attr_value py_str]. by rewrite setattr_ok.
  - rewrite generated_methods_setattr. unfold cls.
    by rewrite generated_methods_body.
Qed.

Lemma meta_new_no_name rt calls name bases attrs h h' e a :
  let cls := Class name bases true (AValue <$> attrs) in
  filter (λ b, cls_meta b = true) bases ≠ [] →
  validate_class rt cls h = (h', Raise e) →
  class_lookup cls "FAIL_METHOD_NAME" = Some a →
  is_string (attr_value a) = false →
  meta_new rt calls name bases attrs h =
    (h', Raise (Exn TypeError
                  (rt_error_text rt (BadAttributeName (attr_value a))))).
Proof.
  intros cls Hparents Htry Hname Hstr.
  rewrite meta_new_unfold by done. fold cls. rewrite Htry.
  unfold attach_fail_method, class_getattr, bind, ret, get_heap.
  rewrite Hname. by destruct (attr_value a).
Qed.

Lemma meta_new_refused rt calls name bases attrs h h' e a fname t :
  let cls := Class name bases true (AValue <$> attrs) in
  filter (λ b, cls_meta b = true) bases ≠ [] →
  validate_class rt cls h = (h', Raise e) →
  class_lookup cls "FAIL_METHOD_NAME" = Some a →
  attr_value a = VStr fname →
  setattr_error rt fname = Some t →
  meta_new rt calls name bases attrs h =
    (h', Raise (Exn t (rt_error_text rt (ReadonlyAttribute fname)))).
Proof.
  intros cls Hparents Htry Hname Hstr Hset.
  rewrite meta_new_unfold by done. fold cls. rewrite Htry.
  unfold attach_fail_method, class_getattr, bind, ret, get_heap.
  rewrite Hname, Hstr. unfold setattr. by rewrite Hset.
Qed.

Lemma validate_class_lookup rt cls x h :
  class_lookup cls "TESTS_CONFIGURATION" = Some x →
  validate_class rt cls h = prepare_configuration rt (attr_value x) h.
Proof.
  intros Hconf. unfold validate_class, class_getattr, bind, ret.
  rewrite Hconf. by destruct (prepare_configuration rt (attr_value x) h) as [? []].
Qed.

(** C2, amended.  For a class with a base built by the metaclass, whose
    configuration makes [prepare_configuration] raise [e] (of whatever
    type), the except handler reads the name of the failsafe from the
    attribute [FAIL_METHOD_NAME] of the class.  When that is a [str] the
    class accepts as an attribute name, the hook returns the class with
    exactly one method attached, under that name; calling the method raises
    the test failure on every test-case instance, with the formatted
    traceback of [e] as message, which contains the message of [e].  The
    name is ["test_fail_cause_bad_configuration"] for a class derived from
    [SmokeTestCase] alone that does not define [FAIL_METHOD_NAME] itself.
    When [FAIL_METHOD_NAME] is not a [str], or is a name the class refuses,
    no method is attached and the class statement raises the error of
    [setattr], not [e]. *)
Theorem invalid_configuration_gets_failsafe
    rt calls name bases attrs x h h' e a :
  let cls := Class name bases true (AValue <$> attrs) in
  filter (λ b, cls_meta b = true) bases ≠ [] →
  class_lookup cls "TESTS_CONFIGURATION" = Some x →
  prepare_configuration rt (attr_value x) h = (h', Raise e) →
  class_lookup cls "FAIL_METHOD_NAME" = Some a →
  (∀ fname, attr_value a = VStr fname → setattr_error rt fname = None →
     ∃ cls' f,
       meta_new rt calls name bases attrs h = (h', Ret (cls', calls)) ∧
       generated_methods cls' = {[ fname := f ]} ∧
       fn_name f = fname ∧
       (∀ rt' h'' self,
          call_method rt' h'' f self =
          Raise (Exn AssertionError (format_exc rt e))) ∧
       (∃ pre post, format_exc rt e = pre +:+ exc_msg e +:+ post) ∧
       (bases = [SmokeTestCase] → attrs !! "FAIL_METHOD_NAME" = None →
        fname = "test_fail_cause_bad_configuration")) ∧
  (is_string (attr_value a) = false →
   meta_new rt calls name bases attrs h =
     (h', Raise (Exn TypeError
                   (rt_error_text rt (BadAttributeName (attr_value a)))))) ∧
  (∀ fname t, attr_value a = VStr fname → setattr_error rt fname = Some t →
     meta_new rt calls name bases attrs h =
       (h', Raise (Exn t (rt_error_text rt (ReadonlyAttribute fname))))).
Proof.
  intros cls Hparents Hconf Hraise Hname.
  assert (Htry : validate_class rt cls h = (h', Raise e))
    by (by rewrite (validate_class_lookup _ _ x)).
  split_and!.
  - intros fname Hstr Hset.
    assert (a = AValue (VStr fname)) as -> by (destruct a; by simplify_eq/=).
    destruct (meta_new_failsafe rt calls name bases attrs h h' e fname)
      as [Hnew Hgen]; [done..|].
    do 2 eexists. split_and!; [exact Hnew|exact Hgen|done|done| |].
    + apply format_exc_detail.
    + intros -> Hown. unfold cls in Hname. cbn [class_lookup] in Hname.
      rewrite lookup_fmap, Hown in Hname. by injection Hname as <-.
  - intros Hstr. by eapply meta_new_no_name.
  - intros fname t Hstr Hset. by eapply meta_new_refused.
Qed.

Lemma invalid_configuration_gets_failsafe_witness :
  (∃ cls' f,
     meta_new demo_rt 0 "EmptyTests" [SmokeTestCase] empty_config_attrs ∅ =
       (∅, Ret (cls', 0)) ∧
     generated_methods cls' =
       {[ "test_fail_cause_bad_configuration" := f ]} ∧
     fn_name f = "test_fail_cause_bad_configuration" ∧
     (∀ rt' h'' self,
        call_method rt' h'' f self =
        Raise (Exn AssertionError
                 (format_exc demo_rt
                    (Exn ImproperlyConfigured
                       (append_doc_link EMPTY_TEST_CONFIGURATION_MSG))))) ∧
     ∃ pre post,
       format_exc demo_rt
         (Exn ImproperlyConfigured
            (append_doc_link EMPTY_TEST_CONFIGURATION_MSG)) =
       pre +:+ exc_msg (Exn ImproperlyConfigured
                          (append_doc_link EMPTY_TEST_CONFIGURATION_MSG)) +:+
       post) ∧
  meta_new demo_rt 0 "Numbered" [SmokeTestCase]
           {[ "TESTS_CONFIGURATION" := VTuple [];
              "FAIL_METHOD_NAME" := VInt 5 ]} ∅ =
    (∅, Raise (Exn TypeError
                 (rt_error_text demo_rt (BadAttributeName (VInt 5))))) ∧
  meta_new demo_rt 0 "Ordered" [SmokeTestCase]
           {[ "TESTS_CONFIGURATION" := VTuple [];
              "FAIL_METHOD_NAME" := VStr "__mro__" ]} ∅ =
    (∅, Raise (Exn AttributeError
                 (rt_error_text demo_rt (ReadonlyAttribute "__mro__")))).
Proof.
  split_and!.
  - destruct (invalid_configuration_gets_failsafe demo_rt 0 "EmptyTests"
                [SmokeTestCase] empty_config_attrs (AValue (VTuple [])) ∅ ∅
                (Exn ImproperlyConfigured
                   (append_doc_link EMPTY_TEST_CONFIGURATION_MSG))
                (AValue (VStr FAIL_METHOD_NAME))) as [Hstr _];
      [discriminate|by vm_compute|by vm_compute|by vm_compute|].
    destruct (Hstr FAIL_METHOD_NAME eq_refl eq_refl)
      as (cls' & f & Hnew & Hgen & Hname & Hfail & Hdetail & Hdefault).
    rewrite (Hdefault eq_refl eq_refl) in Hgen, Hname.
    exists cls', f. by split_and!.
  - destruct (invalid_configuration_gets_failsafe demo_rt 0 "Numbered"
                [SmokeTestCase]
                {[ "TESTS_CONFIGURATION" := VTuple [];
                   "FAIL_METHOD_NAME" := VInt 5 ]}
                (AValue (VTuple [])) ∅ ∅
                (Exn ImproperlyConfigured
                   (append_doc_link EMPTY_TEST_CONFIGURATION_MSG))
                (AValue (VInt 5))) as (_ & Hother & _);
      [discriminate|by vm_compute|by vm_compute|by vm_compute|].
    by apply Hother.
  - destruct (invalid_configuration_gets_failsafe demo_rt 0 "Ordered"
                [SmokeTestCase]
                {[ "TESTS_CONFIGURATION" := VTuple [];
                   "FAIL_METHOD_NAME" := VStr "__mro__" ]}
                (AValue (VTuple [])) ∅ ∅
                (Exn ImproperlyConfigured
                   (append_doc_link EMPTY_TEST_CONFIGURATION_MSG))
                (AValue (VStr "__mro__"))) as (_ & _ & Hrefused);
      [discriminate|by vm_compute|by vm_compute|by vm_compute|].
    by apply (Hrefused "__mro__" AttributeError).
Defined.

(** Two classes derived from [SmokeTestCase] without a configuration, which
    is invalid.  The one that overrides [FAIL_METHOD_NAME] gets its failsafe
    under the name it chose, and no method named
    ["test_fail_cause_bad_configuration"]; the one whose [FAIL_METHOD_NAME]
    is the number 5 gets no method at all, the class statement raises
    [TypeError]. *)
Lemma invalid_configuration_gets_failsafe_counterexample :
  class_lookup (Class "Renamed" [SmokeTestCase] true
                  (AValue <$> {[ "FAIL_METHOD_NAME" := VStr "test_broken" ]}))
               "TESTS_CONFIGURATION" = Some (AValue VNone) ∧
  class_lookup (Class "Numbered" [SmokeTestCase] true
                  (AValue <$> {[ "FAIL_METHOD_NAME" := VInt 5 ]}))
               "TESTS_CONFIGURATION" = Some (AValue VNone) ∧
  prepare_configuration demo_rt VNone ∅ =
    (∅, Raise (Exn ImproperlyConfigured
                 (append_doc_link INCORRECT_TEST_CONFIGURATION_MSG))) ∧
  (∃ cls' f,
     meta_new demo_rt 0 "Renamed" [SmokeTestCase]
              {[ "FAIL_METHOD_NAME" := VStr "test_broken" ]} ∅ =
       (∅, Ret (cls', 0)) ∧
     generated_methods cls' = {[ "test_broken" := f ]} ∧
     generated_methods cls' !! "test_fail_cause_bad_configuration" = None) ∧
  meta_new demo_rt 0 "Numbered" [SmokeTestCase]
           {[ "FAIL_METHOD_NAME" := VInt 5 ]} ∅ =
    (∅, Raise (Exn TypeError
                 (rt_error_text demo_rt (BadAttributeName (VInt 5))))).
Proof.
  split_and!; [by vm_compute|by vm_compute|reflexivity| |].
  - destruct (meta_new_failsafe demo_rt 0 "Renamed" [SmokeTestCase]
                {[ "FAIL_METHOD_NAME" := VStr "test_broken" ]} ∅ ∅
                (Exn ImproperlyConfigured
                   (append_doc_link INCORRECT_TEST_CONFIGURATION_MSG))
                "test_broken") as [Hnew Hgen]; try done.
    do 2 eexists. split_and!; [exact Hnew|exact Hgen|].
    by rewrite Hgen.
  - by apply (meta_new_no_name demo_rt 0 "Numbered" [SmokeTestCase]
                {[ "FAIL_METHOD_NAME" := VInt 5 ]} ∅ ∅
                (Exn ImproperlyConfigured
                   (append_doc_link INCORRECT_TEST_CONFIGURATION_MSG))
                (AValue (VInt 5))).
Qed.

(** *** Attaching the test methods *)

Lemma attach_test_method_ok rt cls calls conf h :
  attachable h conf →
  ∃ name f,
    attach_test_method rt cls calls conf h =
      (h, Ret (class_setattr cls name f, S calls)) ∧
    fn_name f = name ∧ is_smoke_test f ∧
    ∃ p, name = p +:+ uuid_hex (rt_uuid4 rt calls).
Proof.
  intros (u & s & m & d & Hseq & Hitems & Hs & Hdata).
  unfold attach_test_method, bind at 1, unpack4.
  replace (iterate h conf) with (Some [VStr u; s; VStr m; VDict d])
    by (destruct conf; try discriminate; cbn in *; by rewrite Hitems).
  cbn [ret get_option bind].
  assert (Hstatus : ∃ text, status_text_of rt s h = (h, Ret text)).
  { unfold status_text_of. destruct s; try discriminate; cbn; eauto. }
  destruct Hstatus as [text Htext]. unfold bind at 1. rewrite Htext.
  unfold bind at 1. rewrite prepare_test_name_str.
  assert (Hdoc : ∃ doc,
    prepare_test_method_doc rt (VStr m) (VStr u) s text
      (dict_get d "request_data") h = (h, Ret doc)).
  { unfold prepare_test_method_doc, bind, ret, get_heap.
    destruct (dict_get d "request_data") as [| | | | | | |[n|]]; cbn; eauto.
    done. }
  destruct Hdoc as [doc Hdoc]. unfold bind. rewrite Hdoc.
  do 2 eexists. split_and!; [reflexivity|done|done|].
  apply test_name_suffix.
Qed.

Lemma attach_test_methods_ok rt cls calls confs h :
  uuids_bounded rt → uuids_fresh rt (calls + length confs) →
  Forall (attachable h) confs →
  names_below rt calls (generated_methods cls) →
  ∃ cls',
    attach_test_methods rt cls calls confs h =
      (h, Ret (cls', calls + length confs)) ∧
    size (generated_methods cls') =
      size (generated_methods cls) + length confs ∧
    names_below rt (calls + length confs) (generated_methods cls').
Proof.
  intros Hbound Hfresh Hconfs. revert cls calls Hfresh.
  induction Hconfs as [|conf confs Hconf _ IH]; intros cls calls Hfresh Hbelow.
  - exists cls. cbn. by rewrite !Nat.add_0_r.
  - destruct (attach_test_method_ok rt cls calls conf h Hconf)
      as (name & f & Hstep & Hname & Hsmoke & p & Hp).
    assert (Hnew : generated_methods cls !! name = None).
    { destruct (generated_methods cls !! name) as [g|] eqn:Hg; [|done].
      destruct (Hbelow _ _ Hg) as (_ & _ & k & p' & Hk & Hp').
      exfalso. rewrite Hp in Hp'.
      eapply (uuid_suffix_distinct p p'); [apply Hbound..| |exact Hp'].
      intros Heq%Hfresh; cbn [length]; lia. }
    destruct (IH (class_setattr cls name f) (S calls))
      as (cls' & Hrest & Hsize & Hbelow').
    { intros i j Hi Hj. apply Hfresh; cbn [length]; lia. }
    { rewrite generated_methods_setattr. intros name' f' Hlook.
      destruct (decide (name = name')) as [<-|Hne].
      - rewrite lookup_insert_eq in Hlook. injection Hlook as <-.
        split_and!; [done..|]. exists calls, p. split; [lia|done].
      - rewrite lookup_insert_ne in Hlook by done.
        destruct (Hbelow _ _ Hlook) as (? & ? & k & p' & Hk & Hp').
        split_and!; [done..|]. exists k, p'. split; [lia|done]. }
    exists cls'. cbn [attach_test_methods length]. unfold bind.
    rewrite Hstep. replace (calls + S (length confs)) with
      (S calls + length confs) by lia.
    split_and!; [done| |done].
    rewrite Hsize, generated_methods_setattr.
    rewrite map_size_insert_None by done. lia.
Qed.

Lemma passed_attachable h h' e conf :
  passed h h' e conf →
  (∀ a b c d, seq_items h' conf = [a; b; c; VDict d] →
              dict_get d "request_data" ≠ VCallable None) →
  attachable h' conf.
Proof.
  intros Hp Hnamed.
  assert (∃ a b c d, is_tuple_or_list conf = true ∧
                     seq_items h' conf = [a; b; c; VDict d] ∧
                     fields_ok a b c) as (a & b & c & d & Hseq & Hitems & Hf).
  { destruct Hp as [(a & b & c & Hitems & Hf & H)|
                    (a & b & c & d & He & Hitems & Hf & _ & -> & Hsame)].
    - exists a, b, c, []. destruct e; try done; cbn in Hitems.
      + by subst.
      + by destruct H as [-> H].
    - exists a, b, c, d. by rewrite Hsame. }
  destruct Hf as (Ha & Hb & m & -> & _). destruct a; try discriminate.
  exists s, b, m, d. split_and!; [done..|]. by eapply Hnamed.
Qed.

(** X14.  What the hook does for a valid configuration whose callable
    [request_data] values have a [__name__], when the uuids drawn are
    128-bit values and those drawn so far and for this class differ from
    one another: it attaches one test method per entry,
    under as many different names, and no failsafe. *)
Lemma valid_configuration_gets_test_methods
    rt calls name bases attrs x h h' confs :
  let cls := Class name bases true (AValue <$> attrs) in
  uuids_bounded rt → uuids_fresh rt (calls + length confs) →
  filter (λ b, cls_meta b = true) bases ≠ [] →
  class_lookup cls "TESTS_CONFIGURATION" = Some x →
  prepare_configuration rt (attr_value x) h = (h', Ret confs) →
  Forall (λ conf, ∀ a b c d, seq_items h' conf = [a; b; c; VDict d] →
                             dict_get d "request_data" ≠ VCallable None)
         confs →
  ∃ cls',
    meta_new rt calls name bases attrs h =
      (h', Ret (cls', calls + length confs)) ∧
    size (generated_methods cls') = length (seq_items h (attr_value x)) ∧
    map_Forall (λ name f, fn_name f = name ∧ is_smoke_test f)
               (generated_methods cls').
Proof.
  intros cls Hbound Hfresh Hparents Hconf Hret Hnamed.
  apply prepare_configuration_Ret in Hret as Hp. destruct Hp as (_ & _ & Hp).
  assert (Hatt : Forall (attachable h') confs).
  { apply Forall_forall. intros conf Hin.
    apply list_elem_of_lookup in Hin as [i Hi].
    destruct (Forall2_lookup_r _ _ _ _ _ Hp Hi) as (e & _ & Hpassed).
    eapply passed_attachable; [done|].
    by eapply Forall_lookup_1 in Hnamed. }
  destruct (attach_test_methods_ok rt cls calls confs h' Hbound Hfresh Hatt)
    as (cls' & Hrun & Hsize & Hbelow).
  { unfold cls. rewrite generated_methods_body. by intros ???. }
  exists cls'. split_and!.
  - rewrite meta_new_unfold by done. fold cls.
    unfold validate_class, class_getattr, bind at 1, ret.
    by rewrite Hconf, Hret.
  - rewrite Hsize. unfold cls. rewrite generated_methods_body, map_size_empty.
    by rewrite (Forall2_length _ _ _ Hp).
  - intros n f Hf. by destruct (Hbelow _ _ Hf) as (? & ? & _).
Qed.

(** C1.  This configuration passes validation, but its [request_data] is a
    callable without a [__name__] (a [functools.partial] object, say):
    building the doc string raises [AttributeError] outside the [try], and
    the class statement fails instead of attaching one test method. *)
Theorem unnamed_request_data_aborts_class rt calls h :
  prepare_configuration rt partial_request_data_config h =
    (h, Ret [VTuple [VStr "home"; VInt 200; VStr "get";
                     VDict [(VStr "request_data", VCallable None)]]]) ∧
  meta_new rt calls "HomeTests" [SmokeTestCase]
           {[ "TESTS_CONFIGURATION" := partial_request_data_config ]} h =
    (h, Raise (Exn AttributeError
                 (rt_error_text rt
                    (NoAttribute (VCallable None) "__name__")))).
Proof.
  assert (Hvalid : prepare_configuration rt partial_request_data_config h =
    (h, Ret [VTuple [VStr "home"; VInt 200; VStr "get";
                     VDict [(VStr "request_data", VCallable None)]]])).
  { assert (He : prepare_test_config rt
                     (VTuple [VStr "home"; VInt 200; VStr "get";
                              VDict [(VStr "request_data", VCallable None)]])
                     h =
                   (h, Ret (VTuple [VStr "home"; VInt 200; VStr "get";
                              VDict [(VStr "request_data", VCallable None)]]))).
    { apply prepare_test_config_Ret. right.
      eexists _, _, _, _. split_and!; try reflexivity.
      - split_and!; [done..|]. exists "get". split; [done|]. by vm_compute.
      - constructor; [|constructor]. eexists. split; reflexivity. }
    unfold prepare_configuration, partial_request_data_config.
    cbn [is_tuple_or_list]. unfold bind at 1, get_heap. unfold bind at 1.
    cbn [seq_items length Nat.max for_each_config lookup list_lookup].
    unfold bind at 1. rewrite He. reflexivity. }
  split; [done|].
  rewrite meta_new_unfold by done.
  unfold validate_class, class_getattr, bind at 1.
  replace (class_lookup _ "TESTS_CONFIGURATION")
    with (Some (AValue partial_request_data_config)) by (by vm_compute).
  cbn [attr_value ret]. rewrite Hvalid.
  reflexivity.
Qed.

Lemma demo_rt_uuids_bounded : uuids_bounded demo_rt.
Proof. intros k. by apply N.mod_lt. Qed.

Lemma demo_rt_uuids_fresh n : n ≤ 1000 → uuids_fresh demo_rt n.
Proof.
  intros Hn i j Hi Hj. cbn.
  rewrite !N.mod_small; [lia| |].
  all: change (2 ^ 128)%N with 340282366920938463463374607431768211456%N; lia.
Qed.

Example valid_configuration_example :
  ∃ cls',
    meta_new demo_rt 0 "DemoTests" [SmokeTestCase]
             {[ "TESTS_CONFIGURATION" := demo_config ]} demo_heap =
      (<[0 := [VStr "about"; VInt 200; VStr "GET"; VDict []]]> demo_heap,
       Ret (cls', 3)) ∧
    size (generated_methods cls') = 3 ∧
    map_Forall (λ name f, fn_name f = name ∧ is_smoke_test f)
               (generated_methods cls').
Proof.
  apply (valid_configuration_gets_test_methods demo_rt 0 "DemoTests"
           [SmokeTestCase] {[ "TESTS_CONFIGURATION" := demo_config ]}
           (AValue demo_config) demo_heap _
           [ VTuple [VStr "home"; VInt 200; VStr "get"; VDict []];
             VList 0;
             VTuple [VStr "api:items"; VInt 404; VStr "post";
                     VDict [(VStr "request_data",
                             VCallable (Some "payload"))]] ]).
  - apply demo_rt_uuids_bounded.
  - apply demo_rt_uuids_fresh. cbn. lia.
  - discriminate.
  - by vm_compute.
  - vm_compute. reflexivity.
  - repeat constructor; intros a b c d [= <- <- <- <-]; done.
Defined.

(** *** The method of every entry *)

Lemma attach_test_method_content rt cls calls conf h :
  attachable h conf →
  ∃ name f,
    attach_test_method rt cls calls conf h =
      (h, Ret (class_setattr cls name f, S calls)) ∧
    method_of_entry rt h calls conf name f.
Proof.
  intros (u & s & m & d & Hseq & Hitems & Hs & Hdata).
  unfold attach_test_method, bind at 1, unpack4.
  replace (iterate h conf) with (Some [VStr u; s; VStr m; VDict d])
    by (destruct conf; try discriminate; cbn in *; by rewrite Hitems).
  cbn [ret get_option bind].
  assert (Hstatus : ∃ text, status_text_of rt s h = (h, Ret text)).
  { unfold status_text_of. destruct s; try discriminate; cbn; eauto. }
  destruct Hstatus as [text Htext]. unfold bind at 1. rewrite Htext.
  unfold bind at 1. rewrite prepare_test_name_str.
  assert (Hdoc : ∃ doc,
    prepare_test_method_doc rt (VStr m) (VStr u) s text
      (dict_get d "request_data") h = (h, Ret doc)).
  { unfold prepare_test_method_doc, bind, ret, get_heap.
    destruct (dict_get d "request_data") as [| | | | | | |[n|]]; cbn; eauto.
    done. }
  destruct Hdoc as [doc Hdoc]. unfold bind. rewrite Hdoc.
  do 2 eexists. split; [reflexivity|].
  exists u, s, m, d, text, doc. by split_and!.
Qed.

Lemma method_of_entry_name rt h k conf name f :
  method_of_entry rt h k conf name f →
  fn_name f = name ∧ is_smoke_test f ∧
  ∃ p, name = p +:+ uuid_hex (rt_uuid4 rt k).
Proof.
  intros (u & s & m & d & text & doc & _ & _ & _ & -> & ->).
  split_and!; [done..|]. apply test_name_suffix.
Qed.

Lemma attach_test_methods_content rt cls calls confs h :
  uuids_bounded rt → uuids_fresh rt (calls + length confs) →
  Forall (attachable h) confs →
  names_below rt calls (generated_methods cls) →
  ∃ cls',
    attach_test_methods rt cls calls confs h =
      (h, Ret (cls', calls + length confs)) ∧
    (∀ i conf, confs !! i = Some conf →
       ∃ name f, method_of_entry rt h (calls + i) conf name f ∧
                 generated_methods cls' !! name = Some f) ∧
    (∀ name f, generated_methods cls' !! name = Some f →
       generated_methods cls !! name = Some f ∨
       ∃ i conf, confs !! i = Some conf ∧
                 method_of_entry rt h (calls + i) conf name f) ∧
    (∀ name f, generated_methods cls !! name = Some f →
       generated_methods cls' !! name = Some f).
Proof.
  intros Hbound Hfresh Hconfs. revert cls calls Hfresh.
  induction Hconfs as [|conf confs Hconf _ IH]; intros cls calls Hfresh Hbelow.
  - exists cls. cbn. rewrite !Nat.add_0_r. split_and!; [done| |auto|done].
    intros i conf Hi. by rewrite lookup_nil in Hi.
  - destruct (attach_test_method_content rt cls calls conf h Hconf)
      as (name & f & Hstep & Hentry).
    destruct (method_of_entry_name _ _ _ _ _ _ Hentry)
      as (Hname & Hsmoke & p & Hp).
    assert (Hnew : generated_methods cls !! name = None).
    { destruct (generated_methods cls !! name) as [g|] eqn:Hg; [|done].
      destruct (Hbelow _ _ Hg) as (_ & _ & k & p' & Hk & Hp').
      exfalso. rewrite Hp in Hp'.
      eapply (uuid_suffix_distinct p p'); [apply Hbound..| |exact Hp'].
      intros Heq%Hfresh; cbn [length]; lia. }
    destruct (IH (class_setattr cls name f) (S calls))
      as (cls' & Hrest & Hall & Honly & Hkeep).
    { intros i j Hi Hj. apply Hfresh; cbn [length]; lia. }
    { rewrite generated_methods_setattr. intros name' f' Hlook.
      destruct (decide (name = name')) as [<-|Hne].
      - rewrite lookup_insert_eq in Hlook. injection Hlook as <-.
        split_and!; [done..|]. exists calls, p. split; [lia|done].
      - rewrite lookup_insert_ne in Hlook by done.
        destruct (Hbelow _ _ Hlook) as (? & ? & k & p' & Hk & Hp').
        split_and!; [done..|]. exists k, p'. split; [lia|done]. }
    rewrite generated_methods_setattr in Honly, Hkeep.
    exists cls'. cbn [attach_test_methods length]. unfold bind.
    rewrite Hstep. replace (calls + S (length confs)) with
      (S calls + length confs) by lia.
    split_and!; [done| | |].
    + intros [|i] conf' Hi.
      * injection Hi as <-. exists name, f. rewrite Nat.add_0_r.
        split; [done|]. apply Hkeep. by rewrite lookup_insert_eq.
      * destruct (Hall i conf' Hi) as (name' & f' & He & Hl).
        exists name', f'. split; [|done].
        by replace (calls + S i) with (S calls + i) by lia.
    + intros name' f' Hl. destruct (Honly _ _ Hl) as [Hin|(i & c & Hi & He)].
      * destruct (decide (name = name')) as [<-|Hne].
        -- rewrite lookup_insert_eq in Hin. injection Hin as <-.
           right. exists 0, conf. rewrite Nat.add_0_r. by split.
        -- rewrite lookup_insert_ne in Hin by done. by left.
      * right. exists (S i), c. split; [done|].
        by replace (calls + S i) with (S calls + i) by lia.
    + intros name' f' Hl. apply Hkeep.
      rewrite lookup_insert_ne; [done|]. intros <-. congruence.
Qed.

(** X15.  For a valid configuration whose callable [request_data] values
    have a [__name__], with uuids that are 128-bit values and differ from one
    another, the generated methods of the class are exactly the methods of
    the validated entries: the entry at position [i] has its method, under
    the name built from its url, method, status and the uuid of its draw,
    with the doc string built from the same fields, and the code that
    captures its url, status, method and the four options (an option that is
    left out is [None]); and the class has no other generated method. *)
Theorem generated_method_for_each_entry
    rt calls name bases attrs x h h' confs :
  let cls := Class name bases true (AValue <$> attrs) in
  uuids_bounded rt → uuids_fresh rt (calls + length confs) →
  filter (λ b, cls_meta b = true) bases ≠ [] →
  class_lookup cls "TESTS_CONFIGURATION" = Some x →
  prepare_configuration rt (attr_value x) h = (h', Ret confs) →
  Forall (λ conf, ∀ a b c d, seq_items h' conf = [a; b; c; VDict d] →
                             dict_get d "request_data" ≠ VCallable None)
         confs →
  ∃ cls',
    meta_new rt calls name bases attrs h =
      (h', Ret (cls', calls + length confs)) ∧
    (∀ i conf, confs !! i = Some conf →
       ∃ name f, method_of_entry rt h' (calls + i) conf name f ∧
                 generated_methods cls' !! name = Some f) ∧
    (∀ name f, generated_methods cls' !! name = Some f →
       ∃ i conf, confs !! i = Some conf ∧
                 method_of_entry rt h' (calls + i) conf name f).
Proof.
  intros cls Hbound Hfresh Hparents Hconf Hret Hnamed.
  apply prepare_configuration_Ret in Hret as Hp. destruct Hp as (_ & _ & Hp).
  assert (Hatt : Forall (attachable h') confs).
  { apply Forall_forall. intros conf Hin.
    apply list_elem_of_lookup in Hin as [i Hi].
    destruct (Forall2_lookup_r _ _ _ _ _ Hp Hi) as (e & _ & Hpassed).
    eapply passed_attachable; [done|].
    by eapply Forall_lookup_1 in Hnamed. }
  destruct (attach_test_methods_content rt cls calls confs h' Hbound Hfresh
              Hatt) as (cls' & Hrun & Hall & Honly & _).
  { unfold cls. rewrite generated_methods_body. by intros ???. }
  exists cls'. split_and!.
  - rewrite meta_new_unfold by done. fold cls.
    unfold validate_class, class_getattr, bind at 1, ret.
    by rewrite Hconf, Hret.
  - done.
  - intros n f Hf. destruct (Honly _ _ Hf) as [Hin|?]; [|done].
    unfold cls in Hin. by rewrite generated_methods_body in Hin.
Qed.

Lemma generated_method_for_each_entry_witness :
  ∃ cls',
    meta_new demo_rt 0 "DemoTests" [SmokeTestCase]
             {[ "TESTS_CONFIGURATION" := demo_config ]} demo_heap =
      (demo_heap_after, Ret (cls', 0 + length demo_confs)) ∧
    (∀ i conf, demo_confs !! i = Some conf →
       ∃ name f, method_of_entry demo_rt demo_heap_after (0 + i) conf name f ∧
                 generated_methods cls' !! name = Some f) ∧
    (∀ name f, generated_methods cls' !! name = Some f →
       ∃ i conf, demo_confs !! i = Some conf ∧
                 method_of_entry demo_rt demo_heap_after (0 + i) conf name f).
Proof.
  apply (generated_method_for_each_entry demo_rt 0 "DemoTests"
           [SmokeTestCase] {[ "TESTS_CONFIGURATION" := demo_config ]}
           (AValue demo_config) demo_heap demo_heap_after demo_confs).
  - apply demo_rt_uuids_bounded.
  - apply demo_rt_uuids_fresh. cbn. lia.
  - discriminate.
  - by vm_compute.
  - vm_compute. reflexivity.
  - repeat constructor; intros a b c d [= <- <- <- <-]; done.
Defined.

(** *** When the class statement raises *)

Lemma attach_test_method_unnamed rt cls calls conf u s m d h :
  is_tuple_or_list conf = true →
  seq_items h conf = [VStr u; s; VStr m; VDict d] →
  is_int s = true →
  dict_get d "request_data" = VCallable None →
  attach_test_method rt cls calls conf h =
    (h, Raise (Exn AttributeError
                 (rt_error_text rt
                    (NoAttribute (VCallable None) "__name__")))).
Proof.
  intros Hseq Hitems Hs Hdata.
  unfold attach_test_method, bind at 1, unpack4.
  replace (iterate h conf) with (Some [VStr u; s; VStr m; VDict d])
    by (destruct conf; try discriminate; cbn in *; by rewrite Hitems).
  cbn [ret get_option bind].
  assert (Hstatus : ∃ text, status_text_of rt s h = (h, Ret text)).
  { unfold status_text_of. destruct s; try discriminate; cbn; eauto. }
  destruct Hstatus as [text Htext]. unfold bind at 1. rewrite Htext.
  unfold bind at 1. rewrite prepare_test_name_str.
  unfold bind at 1. rewrite Hdata. reflexivity.
Qed.

Lemma settled_attachable h conf :
  settled h conf → attachable h conf ∨ unnamed_request_data h conf.
Proof.
  intros (a & b & c & d & Hseq & Hitems & (Ha & Hb & m & -> & _) & _).
  destruct a as [| | |u| | | |]; try discriminate.
  destruct (dict_get d "request_data") as [| | | | | | |[n|]] eqn:Hdata;
    try (left; exists u, b, m, d; split_and!; [done..|by rewrite Hdata]).
  right. by exists (VStr u), b, (VStr m), d.
Qed.

Lemma attach_test_method_settled_unnamed rt cls calls conf h :
  settled h conf → unnamed_request_data h conf →
  attach_test_method rt cls calls conf h =
    (h, Raise (Exn AttributeError
                 (rt_error_text rt
                    (NoAttribute (VCallable None) "__name__")))).
Proof.
  intros (a & b & c & d & Hseq & Hitems & (Ha & Hb & m & -> & _) & _)
         (a' & b' & c' & d' & Hitems' & Hdata).
  rewrite Hitems in Hitems'. injection Hitems' as <- <- <- <-.
  destruct a as [| | |u| | | |]; try discriminate.
  by eapply attach_test_method_unnamed.
Qed.

(** The [else] loop over validated entries attaches a method for every
    entry, or stops with [AttributeError] at an entry whose [request_data]
    has no [__name__]. *)
Lemma attach_test_methods_outcome rt cls calls confs h :
  Forall (settled h) confs →
  (Forall (attachable h) confs ∧
   ∃ cls', attach_test_methods rt cls calls confs h =
             (h, Ret (cls', calls + length confs))) ∨
  (Exists (unnamed_request_data h) confs ∧
   attach_test_methods rt cls calls confs h =
     (h, Raise (Exn AttributeError
                  (rt_error_text rt
                     (NoAttribute (VCallable None) "__name__"))))).
Proof.
  intros Hconfs. revert cls calls.
  induction Hconfs as [|conf confs Hconf _ IH]; intros cls calls.
  - left. split; [done|]. exists cls. cbn. by rewrite Nat.add_0_r.
  - cbn [attach_test_methods]. unfold bind.
    destruct (settled_attachable h conf Hconf) as [Hatt|Hun].
    + destruct (attach_test_method_ok rt cls calls conf h Hatt)
        as (name & f & Hstep & _).
      rewrite Hstep.
      destruct (IH (class_setattr cls name f) (S calls))
        as [[Hall (cls' & Hrest)]|[Hex Hrest]].
      * left. split; [by constructor|]. exists cls'. rewrite Hrest.
        cbn [length]. do 3 f_equal. lia.
      * right. split; [by apply Exists_cons_tl|done].
    + right. split; [by apply Exists_cons_hd|].
      by rewrite attach_test_method_settled_unnamed.
Qed.

(** *** Which classes get methods *)

Lemma generated_methods_setattr_nonempty cls name f :
  generated_methods (class_setattr cls name f) ≠ ∅.
Proof. rewrite generated_methods_setattr. apply insert_non_empty. Qed.

Lemma attach_test_methods_nonempty rt cls calls confs h :
  Forall (attachable h) confs →
  confs ≠ [] ∨ generated_methods cls ≠ ∅ →
  ∃ cls',
    attach_test_methods rt cls calls confs h =
      (h, Ret (cls', calls + length confs)) ∧
    generated_methods cls' ≠ ∅.
Proof.
  intros Hconfs. revert cls calls.
  induction Hconfs as [|conf confs Hconf _ IH]; intros cls calls Hsome.
  - exists cls. cbn. rewrite Nat.add_0_r. by destruct Hsome.
  - destruct (attach_test_method_ok rt cls calls conf h Hconf)
      as (name & f & Hstep & _).
    destruct (IH (class_setattr cls name f) (S calls))
      as (cls' & Hrest & Hne);
      [right; apply generated_methods_setattr_nonempty|].
    exists cls'. cbn [attach_test_methods length]. unfold bind.
    rewrite Hstep, Hrest. split; [|done]. do 3 f_equal. lia.
Qed.

(** C8, amended.  The hook leaves a class alone exactly when none of its
    bases was built by the metaclass, as for [SmokeTestCase] itself: such a
    class is returned as the class body defines it, whatever its
    configuration is, with no test method and no failsafe, no uuid drawn and
    the store untouched.  A class with a base built by the metaclass never
    comes out of the hook without a method.  One that is derived without a
    configuration, and so inherits [TESTS_CONFIGURATION = None], gets the
    failsafe for the incorrect-configuration error, under the name its
    [FAIL_METHOD_NAME] holds. *)
Theorem base_class_gets_no_methods rt calls name bases attrs h :
  let cls := Class name bases true (AValue <$> attrs) in
  (filter (λ b, cls_meta b = true) bases = [] →
   meta_new rt calls name bases attrs h = (h, Ret (cls, calls)) ∧
   generated_methods cls = ∅) ∧
  (filter (λ b, cls_meta b = true) bases ≠ [] →
   (∀ h' cls' calls',
      meta_new rt calls name bases attrs h = (h', Ret (cls', calls')) →
      generated_methods cls' ≠ ∅) ∧
   (∀ fname,
      class_lookup cls "TESTS_CONFIGURATION" = Some (AValue VNone) →
      class_lookup cls "FAIL_METHOD_NAME" = Some (AValue (VStr fname)) →
      setattr_error rt fname = None →
      ∃ cls' f,
        meta_new rt calls name bases attrs h = (h, Ret (cls', calls)) ∧
        generated_methods cls' = {[ fname := f ]} ∧
        fn_name f = fname ∧
        fn_code f =
          fail_method
            (format_exc rt
               (Exn ImproperlyConfigured
                  (append_doc_link INCORRECT_TEST_CONFIGURATION_MSG))))).
Proof.
  intros cls. split; [|intros Hparents; split].
  - intros Hparents. split; [|apply generated_methods_body].
    unfold meta_new. by rewrite Hparents.
  - intros h' cls' calls'. rewrite meta_new_unfold by done. fold cls.
    destruct (validate_class rt cls h) as [h1 [confs|e|]] eqn:Htry;
      [| |done].
    + assert (Hret : ∃ x, prepare_configuration rt x h = (h1, Ret confs)).
      { revert Htry. unfold validate_class, class_getattr, bind.
        destruct (class_lookup cls "TESTS_CONFIGURATION"); [|done].
        cbn [ret]. eauto. }
      destruct Hret as [x Hret].
      apply prepare_configuration_Ret in Hret as (_ & Hne & Hp).
      assert (Hset : Forall (settled h1) confs).
      { apply Forall_forall. intros conf Hin.
        apply list_elem_of_lookup in Hin as [i Hi].
        destruct (Forall2_lookup_r _ _ _ _ _ Hp Hi) as (e' & _ & Hpassed).
        by eapply passed_settled. }
      destruct (attach_test_methods_outcome rt cls calls confs h1 Hset)
        as [[Hall _]|[_ Hrun]]; [|by rewrite Hrun].
      destruct (attach_test_methods_nonempty rt cls calls confs h1 Hall)
        as (cls'' & Hrun & Hsome); [by left|].
      rewrite Hrun. by intros [= <- <- <-].
    + unfold attach_fail_method, class_getattr, bind, ret, get_heap.
      destruct (class_lookup cls "FAIL_METHOD_NAME") as [a|]; [|done].
      destruct (attr_value a) as [| | |fname| | | |]; try done.
      unfold setattr. destruct (setattr_error rt fname); [done|].
      intros [= <- <- <-]. apply generated_methods_setattr_nonempty.
  - intros fname Hconf Hname Hset.
    destruct (meta_new_failsafe rt calls name bases attrs h h
                (Exn ImproperlyConfigured
                   (append_doc_link INCORRECT_TEST_CONFIGURATION_MSG))
                fname) as [Hnew Hgen]; [done| |done|done|].
    { by rewrite (validate_class_lookup _ _ (AValue VNone)). }
    do 2 eexists. split_and!; [exact Hnew|exact Hgen|reflexivity|reflexivity].
Qed.

Lemma base_class_gets_no_methods_witness :
  (define_SmokeTestCase demo_rt 0 TestCase ∅ = (∅, Ret (SmokeTestCase, 0)) ∧
   generated_methods SmokeTestCase = ∅) ∧
  (∃ cls' f,
     meta_new demo_rt 0 "Intermediate" [SmokeTestCase] ∅ ∅ =
       (∅, Ret (cls', 0)) ∧
     generated_methods cls' =
       {[ "test_fail_cause_bad_configuration" := f ]} ∧
     fn_name f = "test_fail_cause_bad_configuration" ∧
     fn_code f =
       fail_method
         (format_exc demo_rt
            (Exn ImproperlyConfigured
               (append_doc_link INCORRECT_TEST_CONFIGURATION_MSG)))) ∧
  (∃ cls',
     meta_new demo_rt 0 "HomeTests" [SmokeTestCase]
              {[ "TESTS_CONFIGURATION" := home_config ]} ∅ =
       (∅, Ret (cls', 1)) ∧
     generated_methods cls' ≠ ∅).
Proof.
  split; [|split].
  - apply (base_class_gets_no_methods demo_rt 0 "SmokeTestCase" [TestCase]
             SmokeTestCase_attrs ∅).
    reflexivity.
  - apply (base_class_gets_no_methods demo_rt 0 "Intermediate"
             [SmokeTestCase] ∅ ∅); [discriminate|reflexivity..].
  - assert (Hnew : meta_new demo_rt 0 "HomeTests" [SmokeTestCase]
                     {[ "TESTS_CONFIGURATION" := home_config ]} ∅ =
                   (∅, Ret (class_setattr
                              (Class "HomeTests" [SmokeTestCase] true
                                 (AValue <$>
                                  {[ "TESTS_CONFIGURATION" := home_config ]}))
                              home_test_name home_test, 1)))
      by (vm_compute; reflexivity).
    eexists. split; [exact Hnew|].
    by apply (base_class_gets_no_methods demo_rt 0 "HomeTests"
                [SmokeTestCase] {[ "TESTS_CONFIGURATION" := home_config ]} ∅)
      in Hnew.
Defined.

(** [class Intermediate(SmokeTestCase): pass] is an intermediate base class
    derived without a configuration, and the hook attaches a method to it:
    the failsafe. *)
Lemma base_class_gets_no_methods_counterexample :
  cls_meta SmokeTestCase = true ∧
  ∃ cls' f,
    meta_new demo_rt 0 "Intermediate" [SmokeTestCase] ∅ ∅ =
      (∅, Ret (cls', 0)) ∧
    generated_methods cls' !! "test_fail_cause_bad_configuration" = Some f ∧
    generated_methods cls' ≠ ∅ ∧
    call_method demo_rt ∅ f (demo_self 200) =
      Raise (Exn AssertionError
               (format_exc demo_rt
                  (Exn ImproperlyConfigured
                     (append_doc_link INCORRECT_TEST_CONFIGURATION_MSG)))).
Proof.
  destruct (meta_new_failsafe demo_rt 0 "Intermediate" [SmokeTestCase] ∅ ∅ ∅
              (Exn ImproperlyConfigured
                 (append_doc_link INCORRECT_TEST_CONFIGURATION_MSG))
              FAIL_METHOD_NAME) as [Hnew Hgen]; try done.
  split; [done|]. do 2 eexists. split_and!.
  - exact Hnew.
  - rewrite Hgen. apply lookup_singleton_eq.
  - apply generated_methods_setattr_nonempty.
  - reflexivity.
Qed.



(** *** A subclass without a configuration *)

(** X17.  A class derived from [SmokeTestCase] whose body defines neither
    [TESTS_CONFIGURATION] nor [FAIL_METHOD_NAME] inherits
    [TESTS_CONFIGURATION = None]: the hook attaches the failsafe, and nothing
    else, whose failure message is the traceback of the
    incorrect-configuration error. *)
Theorem subclass_must_define_configuration rt calls name attrs h :
  attrs !! "TESTS_CONFIGURATION" = None →
  attrs !! "FAIL_METHOD_NAME" = None →
  ∃ cls' f,
    meta_new rt calls name [SmokeTestCase] attrs h = (h, Ret (cls', calls)) ∧
    generated_methods cls' = {[ FAIL_METHOD_NAME := f ]} ∧
    fn_name f = FAIL_METHOD_NAME ∧
    ∀ rt' h'' self,
      call_method rt' h'' f self =
      Raise (Exn AssertionError
               (format_exc rt
                  (Exn ImproperlyConfigured
                     (append_doc_link INCORRECT_TEST_CONFIGURATION_MSG)))).
Proof.
  intros Hconf Hname.
  assert (Hlook : ∀ a, attrs !! a = None →
            class_lookup (Class name [SmokeTestCase] true (AValue <$> attrs)) a =
            class_lookup SmokeTestCase a).
  { intros a Ha. cbn [class_lookup]. rewrite lookup_fmap, Ha.
    cbn [fmap option_fmap option_map].
    by destruct (class_lookup SmokeTestCase a). }
  destruct (meta_new_failsafe rt calls name [SmokeTestCase] attrs h h
              (Exn ImproperlyConfigured
                 (append_doc_link INCORRECT_TEST_CONFIGURATION_MSG))
              FAIL_METHOD_NAME) as [Hnew Hgen].
  - done.
  - unfold validate_class, class_getattr, bind.
    rewrite (Hlook _ Hconf). reflexivity.
  - rewrite (Hlook _ Hname). reflexivity.
  - reflexivity.
  - do 2 eexists. split_and!; [exact Hnew|exact Hgen|done|done].
Qed.

Lemma subclass_must_define_configuration_witness :
  ∃ cls' f,
    meta_new demo_rt 0 "Intermediate" [SmokeTestCase]
             {[ "helper" := VCallable (Some "helper") ]} ∅ =
      (∅, Ret (cls', 0)) ∧
    generated_methods cls' = {[ FAIL_METHOD_NAME := f ]} ∧
    fn_name f = FAIL_METHOD_NAME ∧
    ∀ rt' h'' self,
      call_method rt' h'' f self =
      Raise (Exn AssertionError
               (format_exc demo_rt
                  (Exn ImproperlyConfigured
                     (append_doc_link INCORRECT_TEST_CONFIGURATION_MSG)))).
Proof.
  apply (subclass_must_define_configuration demo_rt 0 "Intermediate"
           {[ "helper" := VCallable (Some "helper") ]} ∅);
    reflexivity.
Defined.

(** *** A failsafe that cannot be attached *)

(** X18.  When the configuration is invalid and the failsafe cannot be
    attached, the class statement fails with the error of the handler and
    the configuration error is lost: [AttributeError] when the class has no
    [FAIL_METHOD_NAME], [TypeError] when [FAIL_METHOD_NAME] is not a
    [str]. *)
Theorem failsafe_cannot_be_attached rt calls name bases attrs h h' e :
  let cls := Class name bases true (AValue <$> attrs) in
  filter (λ b, cls_meta b = true) bases ≠ [] →
  validate_class rt cls h = (h', Raise e) →
  (class_lookup cls "FAIL_METHOD_NAME" = None →
   meta_new rt calls name bases attrs h =
     (h', Raise (Exn AttributeError
                   (rt_error_text rt (ClassAttribute "FAIL_METHOD_NAME"))))) ∧
  (∀ a, class_lookup cls "FAIL_METHOD_NAME" = Some a →
        is_string (attr_value a) = false →
        meta_new rt calls name bases attrs h =
          (h', Raise (Exn TypeError
                        (rt_error_text rt (BadAttributeName (attr_value a)))))).
Proof.
  intros cls Hparents Htry. split.
  - intros Hname. rewrite meta_new_unfold by done. fold cls. rewrite Htry.
    unfold attach_fail_method, class_getattr, bind. by rewrite Hname.
  - intros a Hname Hstr. rewrite meta_new_unfold by done. fold cls.
    rewrite Htry.
    unfold attach_fail_method, class_getattr, bind, ret, get_heap.
    rewrite Hname. by destruct (attr_value a).
Qed.

Lemma failsafe_cannot_be_attached_witness :
  (class_lookup
     (Class "Bad" [Class "Base" [] true ∅] true
            (AValue <$> {[ "TESTS_CONFIGURATION" := VNone ]}))
     "FAIL_METHOD_NAME" = None →
   meta_new demo_rt 0 "Bad" [Class "Base" [] true ∅]
            {[ "TESTS_CONFIGURATION" := VNone ]} ∅ =
     (∅, Raise (Exn AttributeError
                  (rt_error_text demo_rt
                     (ClassAttribute "FAIL_METHOD_NAME"))))) ∧
  (∀ a,
     class_lookup
       (Class "Bad" [Class "Base" [] true ∅] true
              (AValue <$> {[ "TESTS_CONFIGURATION" := VNone ]}))
       "FAIL_METHOD_NAME" = Some a →
     is_string (attr_value a) = false →
     meta_new demo_rt 0 "Bad" [Class "Base" [] true ∅]
              {[ "TESTS_CONFIGURATION" := VNone ]} ∅ =
       (∅, Raise (Exn TypeError
                    (rt_error_text demo_rt
                       (BadAttributeName (attr_value a)))))).
Proof.
  apply (failsafe_cannot_be_attached demo_rt 0 "Bad"
           [Class "Base" [] true ∅] {[ "TESTS_CONFIGURATION" := VNone ]} ∅ ∅
           (Exn ImproperlyConfigured
              (append_doc_link INCORRECT_TEST_CONFIGURATION_MSG))).
  - discriminate.
  - vm_compute. reflexivity.
Defined.

(** *** A class derived from a class with test methods *)

Lemma class_lookup_own cls a x :
  cls_dict cls !! a = Some x → class_lookup cls a = Some x.
Proof. destruct cls. cbn. by intros ->. Qed.

Lemma class_lookup_same cls cls' a :
  cls_bases cls' = cls_bases cls →
  cls_dict cls' !! a = cls_dict cls !! a →
  class_lookup cls' a = class_lookup cls a.
Proof. destruct cls, cls'. cbn. by intros -> ->. Qed.

Lemma class_lookup_base name base attrs a :
  attrs !! a = None →
  class_lookup (Class name [base] true (AValue <$> attrs)) a =
  class_lookup base a.
Proof.
  intros Ha. cbn [class_lookup]. rewrite lookup_fmap, Ha.
  cbn [fmap option_fmap option_map]. by destruct (class_lookup base a).
Qed.

Lemma generated_methods_lookup cls a f :
  generated_methods cls !! a = Some f ↔ cls_dict cls !! a = Some (AFunction f).
Proof.
  unfold generated_methods. rewrite lookup_omap.
  destruct (cls_dict cls !! a) as [[v|g]|]; cbn; split; congruence.
Qed.

(** Attaching test methods leaves the bases and the kind of the class as
    they are, and every attribute either as it was or bound to a generated
    method. *)
Lemma attach_test_methods_class rt cls calls confs h :
  Forall (attachable h) confs →
  ∃ cls',
    attach_test_methods rt cls calls confs h =
      (h, Ret (cls', calls + length confs)) ∧
    cls_bases cls' = cls_bases cls ∧ cls_meta cls' = cls_meta cls ∧
    ∀ a, cls_dict cls' !! a = cls_dict cls !! a ∨
         ∃ f, cls_dict cls' !! a = Some (AFunction f).
Proof.
  intros Hconfs. revert cls calls.
  induction Hconfs as [|conf confs Hconf _ IH]; intros cls calls.
  - exists cls. cbn. rewrite Nat.add_0_r. split_and!; auto.
  - destruct (attach_test_method_ok rt cls calls conf h Hconf)
      as (name & f & Hstep & _).
    destruct (IH (class_setattr cls name f) (S calls))
      as (cls' & Hrest & Hbases & Hmeta & Hdict).
    exists cls'. cbn [attach_test_methods length]. unfold bind.
    rewrite Hstep, Hrest. split_and!.
    + do 3 f_equal. lia.
    + rewrite Hbases. by destruct cls.
    + rewrite Hmeta. by destruct cls.
    + intros a. destruct (Hdict a) as [Ha|Ha]; [|by right].
      rewrite Ha. destruct cls. cbn.
      destruct (decide (name = a)) as [<-|Hne].
      * right. exists f. by rewrite lookup_insert_eq.
      * left. by rewrite lookup_insert_ne.
Qed.

(** X19.  Deriving a class from a class that has its generated test methods
    repeats the tests: the hook runs again for the derived class, reads the
    configuration it inherits, and attaches one new method per entry under
    names of its own, while the methods of the base stay visible on the
    derived class. *)
Theorem derived_class_repeats_tests
    rt calls name bases attrs x h h' confs cls1 name2 attrs2 :
  let cls := Class name bases true (AValue <$> attrs) in
  uuids_bounded rt →
  uuids_fresh rt (calls + length confs + length confs) →
  filter (λ b, cls_meta b = true) bases ≠ [] →
  class_lookup cls "TESTS_CONFIGURATION" = Some x →
  prepare_configuration rt (attr_value x) h = (h', Ret confs) →
  Forall (λ conf, ∀ a b c d, seq_items h' conf = [a; b; c; VDict d] →
                             dict_get d "request_data" ≠ VCallable None)
         confs →
  meta_new rt calls name bases attrs h =
    (h', Ret (cls1, calls + length confs)) →
  attrs2 !! "TESTS_CONFIGURATION" = None →
  (∀ a, is_Some (generated_methods cls1 !! a) → attrs2 !! a = None) →
  ∃ cls2,
    meta_new rt (calls + length confs) name2 [cls1] attrs2 h' =
      (h', Ret (cls2, calls + length confs + length confs)) ∧
    size (generated_methods cls1) = length confs ∧
    size (generated_methods cls2) = length confs ∧
    ∀ a f, generated_methods cls1 !! a = Some f →
      generated_methods cls2 !! a = None ∧
      class_lookup cls2 a = Some (AFunction f).
Proof.
  intros cls Hbound Hfresh Hparents Hconf Hret Hnamed Hmeta Hconf2 Hattrs2.
  assert (Hfresh1 : uuids_fresh rt (calls + length confs))
    by (intros i j Hi Hj; apply Hfresh; lia).
  apply first_run_inv in Hret as Hinv.
  destruct Hinv as (Htc & Hne & Hsame & Hp).
  assert (Hatt : Forall (attachable h') confs).
  { apply Forall_forall. intros conf Hin.
    apply list_elem_of_lookup in Hin as [i Hi].
    destruct (Forall2_lookup_r _ _ _ _ _ Hp Hi) as (e & _ & Hpassed).
    eapply passed_attachable; [done|].
    by eapply Forall_lookup_1 in Hnamed. }
  assert (Hempty : ∀ c nm bs ats,
            names_below rt c
              (generated_methods (Class nm bs true (AValue <$> ats))))
    by (intros c nm bs ats; rewrite generated_methods_body; by intros ???).
  (* the first class *)
  rewrite meta_new_unfold in Hmeta by done. fold cls in Hmeta.
  unfold validate_class, class_getattr, bind at 1, ret in Hmeta.
  rewrite Hconf, Hret in Hmeta.
  destruct (attach_test_methods_ok rt cls calls confs h' Hbound Hfresh1 Hatt
              (Hempty _ _ _ _)) as (c1 & Hrun1 & Hsize1 & Hbelow1).
  rewrite Hrun1 in Hmeta. injection Hmeta as ->.
  destruct (attach_test_methods_class rt cls calls confs h' Hatt)
    as (c1 & Hrun1' & Hbases1 & Hmeta1 & Hdict1).
  rewrite Hrun1 in Hrun1'. injection Hrun1' as <-.
  unfold cls in Hsize1.
  rewrite generated_methods_body, map_size_empty in Hsize1.
  (* the configuration the derived class inherits *)
  set (cls' := Class name2 [cls1] true (AValue <$> attrs2)).
  assert (Hconf' : class_lookup cls' "TESTS_CONFIGURATION" = Some x).
  { unfold cls'. rewrite class_lookup_base by done.
    rewrite (class_lookup_same cls); [done..|].
    destruct (Hdict1 "TESTS_CONFIGURATION") as [Hd|[f Hd]]; [done|].
    apply generated_methods_lookup in Hd.
    destruct (Hbelow1 _ _ Hd) as (_ & _ & k & p & _ & Hp').
    apply (f_equal String.length) in Hp'.
    unfold uuid_hex in Hp'. rewrite length_append, length_hex_digits in Hp'.
    cbn in Hp'. lia. }
  assert (Hret' : prepare_configuration rt (attr_value x) h' = (h', Ret confs)).
  { apply prepare_configuration_run; [done..| |].
    - rewrite Hsame. by eapply Forall2_length.
    - apply (reaches_rerun rt _ h' confs 0 []). rewrite drop_0, Hsame.
      eapply Forall2_impl; [exact Hp|]. intros e conf. apply passed_rerun. }
  (* the derived class *)
  destruct (attach_test_methods_ok rt cls' (calls + length confs) confs h'
              Hbound Hfresh Hatt (Hempty _ _ _ _))
    as (cls2 & Hrun2 & Hsize2 & _).
  destruct (attach_test_methods_content rt cls' (calls + length confs) confs
              h' Hbound Hfresh Hatt (Hempty _ _ _ _))
    as (c2 & Hrun2' & _ & Honly2 & _).
  rewrite Hrun2 in Hrun2'. injection Hrun2' as <-.
  destruct (attach_test_methods_class rt cls' (calls + length confs) confs h'
              Hatt) as (c2 & Hrun2' & Hbases2 & _ & Hdict2).
  rewrite Hrun2 in Hrun2'. injection Hrun2' as <-.
  unfold cls' in Hsize2.
  rewrite generated_methods_body, map_size_empty in Hsize2.
  exists cls2. split_and!; [|done..|].
  - rewrite meta_new_unfold.
    + fold cls'. unfold validate_class, class_getattr, bind at 1, ret.
      by rewrite Hconf', Hret'.
    + cbn. rewrite Hmeta1. by rewrite decide_True.
  - intros a f Hf.
    assert (Hnone : generated_methods cls2 !! a = None).
    { destruct (generated_methods cls2 !! a) as [g|] eqn:Hg; [|done].
      exfalso. destruct (Honly2 _ _ Hg) as [Hin|(i & conf & Hi & Hentry)].
      - unfold cls' in Hin. by rewrite generated_methods_body in Hin.
      - apply method_of_entry_name in Hentry as (_ & _ & p2 & Hp2).
        destruct (Hbelow1 _ _ Hf) as (_ & _ & k & p1 & Hk & Hp1).
        apply lookup_lt_Some in Hi. rewrite Hp1 in Hp2.
        eapply (uuid_suffix_distinct p1 p2); [apply Hbound..| |exact Hp2].
        intros Heq%Hfresh; lia. }
    split; [done|].
    assert (Hown : cls_dict cls2 !! a = None).
    { destruct (Hdict2 a) as [Hd|[g Hd]].
      - rewrite Hd. unfold cls'. cbn. rewrite lookup_fmap.
        rewrite Hattrs2; [done|]. by exists f.
      - apply generated_methods_lookup in Hd. congruence. }
    destruct cls2 as [n2 b2 m2 d2]. cbn in Hbases2, Hown. subst b2.
    cbn [class_lookup]. rewrite Hown.
    apply generated_methods_lookup, class_lookup_own in Hf. by rewrite Hf.
Qed.

Lemma derived_class_repeats_tests_witness :
  ∃ cls2,
    meta_new demo_rt (0 + length demo_confs) "MoreTests" [demo_class] ∅
             demo_heap_after =
      (demo_heap_after,
       Ret (cls2, 0 + length demo_confs + length demo_confs)) ∧
    size (generated_methods demo_class) = length demo_confs ∧
    size (generated_methods cls2) = length demo_confs ∧
    ∀ a f, generated_methods demo_class !! a = Some f →
      generated_methods cls2 !! a = None ∧
      class_lookup cls2 a = Some (AFunction f).
Proof.
  apply (derived_class_repeats_tests demo_rt 0 "DemoTests" [SmokeTestCase]
           {[ "TESTS_CONFIGURATION" := demo_config ]} (AValue demo_config)
           demo_heap demo_heap_after demo_confs demo_class "MoreTests" ∅).
  - apply demo_rt_uuids_bounded.
  - apply demo_rt_uuids_fresh. cbn. lia.
  - discriminate.
  - by vm_compute.
  - vm_compute. reflexivity.
  - repeat constructor; intros a b c d [= <- <- <- <-]; done.
  - vm_compute. reflexivity.
  - apply lookup_empty.
  - intros a _. apply lookup_empty.
Defined.

(** ** Running a generated method *)

Lemma upper_lower_char c : upper_char (lower_char c) = upper_char c.
Proof. by destruct c as [[] [] [] [] [] [] [] []]. Qed.

Lemma upper_lower s : upper (lower s) = upper s.
Proof.
  induction s as [|c s IH]; [done|]. cbn. by rewrite upper_lower_char, IH.
Qed.

Lemma is_ascii_lower s : is_ascii (lower s) = is_ascii s.
Proof.
  unfold is_ascii. induction s as [|c s IH]; [done|].
  cbn [lower String.list_ascii_of_string forallb]. rewrite IH. f_equal.
  by destruct c as [[] [] [] [] [] [] [] []].
Qed.

(** A method that passes the method check is written in ASCII. *)
Lemma allowed_method_ascii m : lower m ∈ HTTP_METHODS → is_ascii m = true.
Proof.
  intros Hm. rewrite <- is_ascii_lower.
  unfold HTTP_METHODS in Hm. set_unfold in Hm.
  repeat destruct Hm as [Hm|Hm]; by rewrite Hm.
Qed.

Lemma str_lower_ascii rt m : is_ascii m = true → str_lower rt m = lower m.
Proof. unfold str_lower. by intros ->. Qed.

Lemma str_upper_ascii rt m : is_ascii m = true → str_upper rt m = upper m.
Proof. unfold str_upper. by intros ->. Qed.

Lemma lower_cased_unique m low : lower_cased m low → low = lower m.
Proof.
  revert low. induction m as [|c m IH]; intros low [Hlen Hget].
  - by destruct low.
  - destruct low as [|d low]; [done|]. cbn [lower].
    assert (Hd := Hget 0 c eq_refl). cbn in Hd. injection Hd as ->.
    f_equal.
    + unfold lower_char. case_bool_decide as Hc.
      * destruct Hc as [->%Nat.leb_le ->%Nat.leb_le]. done.
      * destruct (Nat.leb_spec 65 (nat_of_ascii c)),
                 (Nat.leb_spec (nat_of_ascii c) 90); try done.
        exfalso. apply Hc. lia.
    + apply IH. split; [by injection Hlen|].
      intros i c' Hc'. exact (Hget (S i) c' Hc').
Qed.

#[local] Arguments str_lower : simpl never.
#[local] Arguments str_upper : simpl never.

(** X20.  For methods written in ASCII the letter case plays no part: two
    such methods with the same lower-cased form pass or fail the method
    check together, give the same test name and the same doc string, and
    give generated methods that behave alike on every test-case instance. *)
Theorem method_letter_case_irrelevant m m' low :
  is_ascii m = true → is_ascii m' = true →
  lower_cased m low → lower_cased m' low →
  (method_errors (VStr m) = [] ↔ method_errors (VStr m') = []) ∧
  (∀ rt urlname status uuid h,
     prepare_test_name rt urlname (VStr m) status uuid h =
     prepare_test_name rt urlname (VStr m') status uuid h) ∧
  (∀ rt urlname status status_text data h,
     prepare_test_method_doc rt (VStr m) urlname status status_text data h =
     prepare_test_method_doc rt (VStr m') urlname status status_text data h) ∧
  (∀ rt h urlname status initialize url_kwargs request_data user_credentials
     self,
     call_method rt h
       (generate_test_method urlname status (VStr m) initialize url_kwargs
                             request_data user_credentials) self =
     call_method rt h
       (generate_test_method urlname status (VStr m') initialize url_kwargs
                             request_data user_credentials) self).
Proof.
  intros Ha Ha' Hlow%lower_cased_unique Hlow'%lower_cased_unique.
  assert (Hm : lower m = lower m') by congruence.
  assert (Hu : upper m = upper m')
    by (by rewrite <- (upper_lower m), <- (upper_lower m'), Hm).
  assert (Hl : ∀ rt, str_lower rt m = str_lower rt m')
    by (intros rt; by rewrite !str_lower_ascii).
  assert (Hup : ∀ rt, str_upper rt m = str_upper rt m')
    by (intros rt; by rewrite !str_upper_ascii).
  split_and!.
  - unfold method_errors. rewrite Hm.
    by destruct (bool_decide (lower m' ∈ HTTP_METHODS)).
  - intros rt urlname status uuid h. unfold prepare_test_name, bind.
    destruct (as_str rt urlname "replace" h) as [h1 [u| |]]; [|done..].
    cbn. by rewrite Hl.
  - intros rt urlname status text data h.
    unfold prepare_test_method_doc, bind.
    match goal with |- context [?d h] =>
      match d with context [callable data] =>
        destruct (d h) as [h1 [v| |]] end end; [|done..].
    cbn. by rewrite Hup.
  - intros. unfold call_method. cbn [fn_code generate_test_method].
    by rewrite Hl.
Qed.

Lemma method_letter_case_irrelevant_witness :
  (method_errors (VStr "GET") = [] ↔ method_errors (VStr "get") = []) ∧
  (∀ rt urlname status uuid h,
     prepare_test_name rt urlname (VStr "GET") status uuid h =
     prepare_test_name rt urlname (VStr "get") status uuid h) ∧
  (∀ rt urlname status status_text data h,
     prepare_test_method_doc rt (VStr "GET") urlname status status_text data h =
     prepare_test_method_doc rt (VStr "get") urlname status status_text data h) ∧
  (∀ rt h urlname status initialize url_kwargs request_data user_credentials
     self,
     call_method rt h
       (generate_test_method urlname status (VStr "GET") initialize url_kwargs
                             request_data user_credentials) self =
     call_method rt h
       (generate_test_method urlname status (VStr "get") initialize url_kwargs
                             request_data user_credentials) self).
Proof.
  apply (method_letter_case_irrelevant "GET" "get" "get");
    [reflexivity|reflexivity| |].
  - exact (lower_lower_cased "GET").
  - exact (lower_lower_cased "get").
Defined.

(** [==] with an [int] is equality of numbers. *)
Lemma py_eq_int rt h a b :
  is_int b = true →
  py_eq rt h a b = Ret (bool_decide (int_key a = int_key b)).
Proof.
  intros Hb.
  assert (Heq : ∀ x y : Z, (x =? y)%Z = bool_decide (Some x = Some y)).
  { intros x y. case_bool_decide as H; destruct (Z.eqb_spec x y); congruence. }
  destruct b; try discriminate; destruct a; cbn; try done; by rewrite Heq.
Qed.

Lemma shows_difference_int a b : is_int b = true → shows_difference a b = false.
Proof. intros Hb. destruct b; try discriminate; by destruct a. Qed.

(** The message of [assertEqual] for an expected [int], when both values
    are shown in full. *)
Lemma assert_equal_msg_short rt h a b :
  is_int b = true → short_repr rt h a → short_repr rt h b →
  assert_equal_msg rt h a b = py_repr rt h a +:+ " != " +:+ py_repr rt h b.
Proof.
  unfold short_repr, assert_equal_msg. intros Hb Ha Hb'.
  rewrite shows_difference_int by done.
  by rewrite !(proj2 (Nat.ltb_ge _ _)) by done.
Qed.

Lemma assertEqual_int rt h a b :
  is_int b = true →
  assertEqual rt h a b =
  if bool_decide (int_key a = int_key b) then Ret tt
  else Raise (Exn AssertionError (assert_equal_msg rt h a b)).
Proof. intros Hb. unfold assertEqual. by rewrite py_eq_int. Qed.


Lemma with_kwargs_Ret {A} rt kwargs (f : pyval → outcome A) r :
  with_kwargs rt kwargs f = Ret r → keywords kwargs ∧ f kwargs = Ret r.
Proof.
  destruct kwargs; try discriminate. cbn.
  destruct (forallb is_string (dict_keys items0)) eqn:Hd; [|discriminate].
  intros H. split; [|done]. by eexists.
Qed.

(** X21.  A class derived from [SmokeTestCase] whose configuration is the
    one entry [(u, s, m)], with [s] an [int] and [m] an allowed method,
    gets exactly one method, named after the entry, whose doc string is the
    upper-cased method, the url, the status, the quoted status text (or
    [UNKNOWN]) and [{}].  Calling it resolves [u] with no keyword arguments,
    looks up the client method named by the lower-cased [m] and calls it
    with the resolved url and [{}] as data: an exception of the resolver or
    of the request is passed on, and otherwise the method returns when the
    status code of the response is the number [s] and fails with the
    message of [assertEqual] when it is not: the two values around [!=] when
    neither [repr] is longer than 80 characters. *)
Theorem single_entry_end_to_end rt calls name u s m h :
  is_int s = true →
  lower m ∈ HTTP_METHODS →
  ∃ cls f,
    meta_new rt calls name [SmokeTestCase]
      {[ "TESTS_CONFIGURATION" := VTuple [VTuple [VStr u; s; VStr m]] ]} h =
      (h, Ret (cls, S calls)) ∧
    generated_methods cls =
      {[ test_name rt h u m s (rt_uuid4 rt calls) := f ]} ∧
    fn_name f = test_name rt h u m s (rt_uuid4 rt calls) ∧
    (∃ code, int_key s = Some code ∧
       fn_doc f =
         Some (upper m +:+ " " +:+ u +:+ " " +:+ py_str rt h s +:+ " " +:+
               dq +:+ default "UNKNOWN" (rt_status_text rt !! code) +:+ dq +:+
               " " +:+ rt_repr rt h (VDict []))) ∧
    (∀ rt' h'' self x,
       tc_resolve_url self (VStr u) (VDict []) = Raise x →
       call_method rt' h'' f self = Raise x) ∧
    (∀ rt' h'' self url send x,
       tc_resolve_url self (VStr u) (VDict []) = Ret url →
       tc_client self (lower m) = Ret send →
       send url (VDict []) = Raise x →
       call_method rt' h'' f self = Raise x) ∧
    (∀ rt' h'' self url send code,
       tc_resolve_url self (VStr u) (VDict []) = Ret url →
       tc_client self (lower m) = Ret send →
       send url (VDict []) = Ret code →
       call_method rt' h'' f self =
       if bool_decide (int_key code = int_key s) then Ret tt
       else Raise (Exn AssertionError (assert_equal_msg rt' h'' code s))) ∧
    (∀ rt' h'' code,
       short_repr rt' h'' code → short_repr rt' h'' s →
       assert_equal_msg rt' h'' code s =
       py_repr rt' h'' code +:+ " != " +:+ py_repr rt' h'' s).
Proof.
  intros Hs Hm. assert (Ha := allowed_method_ascii m Hm).
  set (cfg := VTuple [VTuple [VStr u; s; VStr m]]).
  set (cls := Class name [SmokeTestCase] true
                (AValue <$> {[ "TESTS_CONFIGURATION" := cfg ]})).
  assert (Hvalid : prepare_configuration rt cfg h =
                   (h, Ret [VTuple [VStr u; s; VStr m; VDict []]])).
  { apply (prepare_configuration_accepts rt [VTuple [VStr u; s; VStr m]] h);
      [done|].
    constructor; [|constructor]. exists (VStr u), s, (VStr m).
    split; [|by left]. split_and!; [done..|]. by exists m. }
  assert (Hstatus : ∃ code, int_key s = Some code ∧
            status_text_of rt s h =
              (h, Ret (default "UNKNOWN" (rt_status_text rt !! code)))).
  { unfold status_text_of. destruct s; try discriminate; cbn; eauto. }
  destruct Hstatus as (sc & Hsc & Htext).
  eexists _, _. split_and!.
  - rewrite meta_new_unfold by done. fold cfg. fold cls.
    unfold validate_class, class_getattr, bind at 1.
    replace (class_lookup cls "TESTS_CONFIGURATION") with (Some (AValue cfg))
      by (unfold cls; cbn [class_lookup];
          by rewrite lookup_fmap, lookup_singleton_eq).
    cbn [attr_value ret]. rewrite Hvalid.
    cbn [attach_test_methods]. unfold bind at 1.
    unfold attach_test_method, bind at 1. cbn [unpack4 iterate ret].
    cbn [get_option bind dict_get ret].
    unfold bind at 1. rewrite Htext.
    unfold bind at 1. rewrite prepare_test_name_str.
    unfold bind at 1. cbn [prepare_test_method_doc callable truthy as_str
                             bind ret get_heap].
    rewrite str_upper_ascii by done.
    unfold bind at 1. rewrite setattr_ok by apply setattr_test_name.
    reflexivity.
  - rewrite generated_methods_setattr. unfold cls.
    rewrite generated_methods_body. apply insert_empty.
  - reflexivity.
  - by exists sc.
  - intros rt' h'' self x Hurl.
    unfold call_method, resolve_source, with_kwargs, dict_keys.
    cbn. by rewrite Hurl.
  - intros rt' h'' self url send x Hurl Hclient Hsend.
    unfold call_method, resolve_source, with_kwargs, dict_keys. cbn.
    rewrite Hurl. cbn. rewrite str_lower_ascii, Hclient by done. cbn.
    by rewrite Hsend.
  - intros rt' h'' self url send code Hurl Hclient Hsend.
    unfold call_method, resolve_source, with_kwargs, dict_keys. cbn.
    rewrite Hurl. cbn. rewrite str_lower_ascii, Hclient by done. cbn.
    rewrite Hsend. cbn [obind]. by apply assertEqual_int.
  - intros rt' h'' code. by apply assert_equal_msg_short.
Qed.

Lemma single_entry_end_to_end_witness :
  ∃ cls f,
    meta_new demo_rt 0 "HomeTests" [SmokeTestCase]
      {[ "TESTS_CONFIGURATION" := home_config ]} ∅ = (∅, Ret (cls, 1)) ∧
    generated_methods cls =
      {[ "test_smoke_home_get_200_00000000000000000000000000000000" := f ]} ∧
    fn_name f = "test_smoke_home_get_200_00000000000000000000000000000000" ∧
    fn_doc f = Some ("GET home 200 " +:+ dq +:+ "OK" +:+ dq +:+ " {}") ∧
    call_method demo_rt ∅ f (demo_self 200) = Ret tt ∧
    call_method demo_rt ∅ f (demo_self 404) =
      Raise (Exn AssertionError "404 != 200").
Proof.
  destruct (single_entry_end_to_end demo_rt 0 "HomeTests" "home" (VInt 200)
              "get" ∅)
    as (cls & f & Hnew & Hgen & Hname & (code & [= <-] & Hdoc) & _ & _ &
        Hcall & Hmsg); [reflexivity|by vm_compute|].
  exists cls, f. split_and!; [done..| |].
  - by rewrite (Hcall demo_rt ∅ (demo_self 200) (VStr "home")
                  (λ _ _, Ret (VInt 200)) (VInt 200)).
  - rewrite (Hcall demo_rt ∅ (demo_self 404) (VStr "home")
               (λ _ _, Ret (VInt 404)) (VInt 404)) by done.
    rewrite Hmsg; [done| |]; apply Nat.leb_le; reflexivity.
Defined.

Lemma obind_Ret {A B} (o : outcome A) (k : A → outcome B) b :
  obind o k = Ret b → ∃ a, o = Ret a ∧ k a = Ret b.
Proof. destruct o as [a| |]; [|done..]. intros H. by exists a. Qed.

(** [==] gives [True] for an [int] only when the other side is the same
    number. *)
Lemma py_eq_int_true rt h a b n :
  py_eq rt h a b = Ret true → int_key b = Some n → int_key a = Some n.
Proof.
  intros Heq Hn. rewrite py_eq_int in Heq by (by destruct b).
  injection Heq as Heq. apply bool_decide_eq_true in Heq. congruence.
Qed.

(** X22.  What a pass guarantees: when a generated test method returns,
    the [initialize] hook, if one was configured, is a callable that
    returned, the method of its entry is a [str], the keyword arguments of
    the url are a dict with [str] keys and the url was resolved with them,
    the client method named by the lower-cased method answered the resolved
    url and the resolved data with a status code that [==] finds equal to
    the expected one (the same number, when an [int] is expected), and, when
    credentials were configured, they are a dict with [str] keys and the
    login with them returned a true value. *)
Theorem passing_test_means_expected_status
    rt h urlname status method initialize url_kwargs request_data
    user_credentials self :
  call_method rt h
    (generate_test_method urlname status method initialize url_kwargs
                          request_data user_credentials) self = Ret tt →
  ∃ m kwargs url send data code,
    method = VStr m ∧
    (truthy h initialize = true →
     callable initialize = true ∧ ∃ v, tc_call self initialize = Ret v) ∧
    resolve_source h self url_kwargs = Ret kwargs ∧
    keywords kwargs ∧
    tc_resolve_url self urlname kwargs = Ret url ∧
    tc_client self (str_lower rt m) = Ret send ∧
    resolve_source h self request_data = Ret data ∧
    send url data = Ret code ∧
    py_eq rt h code status = Ret true ∧
    (∀ n, int_key status = Some n → int_key code = Some n) ∧
    (truthy h user_credentials = true →
     ∃ credentials logged_in,
       (if callable user_credentials then tc_call self user_credentials
        else Ret user_credentials) = Ret credentials ∧
       keywords credentials ∧
       tc_login self credentials = Ret logged_in ∧
       truthy h logged_in = true).
Proof.
  unfold call_method. cbn [fn_code generate_test_method]. intros H.
  apply obind_Ret in H as (v & Hinit & H).
  apply obind_Ret in H as (kwargs & Hkwargs & H).
  apply obind_Ret in H as (url & Hurl & H).
  apply with_kwargs_Ret in Hurl as [Hkw Hurl].
  apply obind_Ret in H as ([] & Hlogin & H).
  destruct method as [| | |m| | | |]; try discriminate.
  apply obind_Ret in H as (send & Hsend & H).
  apply obind_Ret in H as (data & Hdata & H).
  apply obind_Ret in H as (code & Hcode & H).
  unfold assertEqual in H. apply obind_Ret in H as (equal & Heq & H).
  assert (equal = true) as -> by (by destruct equal).
  exists m, kwargs, url, send, data, code.
  split_and!; try done.
  - intros Htruthy. rewrite Htruthy in Hinit. unfold call in Hinit.
    destruct (callable initialize); [|done]. split; [done|]. by exists v.
  - intros n. by apply (py_eq_int_true rt h).
  - intros Htruthy. rewrite Htruthy in Hlogin.
    apply obind_Ret in Hlogin as (credentials & Hcred & Hlogin).
    apply obind_Ret in Hlogin as (logged_in & Hok & Hlogin).
    apply with_kwargs_Ret in Hok as [Hkwc Hok].
    exists credentials, logged_in. split_and!; [done..|].
    unfold assertTrue in Hlogin. by destruct (truthy h logged_in).
Qed.

Lemma passing_test_means_expected_status_witness :
  ∃ m kwargs url send data code,
    VStr "get" = VStr m ∧
    (truthy ∅ VNone = true →
     callable VNone = true ∧ ∃ v, tc_call (demo_self 200) VNone = Ret v) ∧
    resolve_source ∅ (demo_self 200) VNone = Ret kwargs ∧
    keywords kwargs ∧
    tc_resolve_url (demo_self 200) (VStr "home") kwargs = Ret url ∧
    tc_client (demo_self 200) (str_lower demo_rt m) = Ret send ∧
    resolve_source ∅ (demo_self 200) VNone = Ret data ∧
    send url data = Ret code ∧
    py_eq demo_rt ∅ code (VInt 200) = Ret true ∧
    (∀ n, int_key (VInt 200) = Some n → int_key code = Some n) ∧
    (truthy ∅ VNone = true →
     ∃ credentials logged_in,
       (if callable VNone then tc_call (demo_self 200) VNone
        else Ret VNone) = Ret credentials ∧
       keywords credentials ∧
       tc_login (demo_self 200) credentials = Ret logged_in ∧
       truthy ∅ logged_in = true).
Proof.
  apply (passing_test_means_expected_status demo_rt ∅ (VStr "home") (VInt 200)
           (VStr "get") VNone VNone VNone VNone (demo_self 200)).
  reflexivity.
Defined.



(** ** The examples of the documentation *)

(** [[("home", 200, "get")]] generates one method; it resolves ["home"],
    issues a GET and compares the status with 200. *)
Example home_example :
  ∃ cls,
    meta_new demo_rt 0 "HomeTests" [SmokeTestCase]
             {[ "TESTS_CONFIGURATION" := home_config ]} ∅ = (∅, Ret (cls, 1)) ∧
    generated_methods cls = {[ home_test_name := home_test ]} ∧
    call_method demo_rt ∅ home_test (demo_self 200) = Ret tt ∧
    call_method demo_rt ∅ home_test (demo_self 404) =
      Raise (Exn AssertionError "404 != 200").
Proof.
  eexists. split_and!; [vm_compute; reflexivity| |reflexivity|reflexivity].
  vm_compute. reflexivity.
Qed.

(** A login that is refused fails the test before any request is made. *)
Example refused_login_example :
  call_method demo_rt ∅
    (generate_test_method (VStr "home") (VInt 200) (VStr "get") VNone VNone
                          VNone (VCallable (Some "credentials")))
    refused_self =
  Raise (Exn AssertionError
           ("False is not true : Authentication process failed. " +:+
            "Supplied user credentials are incorrect: {}. " +:+
            "Ensure that related user was created successfully.")).
Proof. reflexivity. Qed.

(** [[("home", 200, "get", {"bogus": 1})]] fails validation listing
    ["bogus"]. *)
Example bogus_example :
  prepare_configuration demo_rt
    (VTuple [VTuple [VStr "home"; VInt 200; VStr "get";
                     VDict [(VStr "bogus", VInt 1)]]]) ∅ =
  (∅, Raise (Exn ImproperlyConfigured
               (join nl
                  ["django-skd-smoke configuration does not support those keys: bogus.";
                   LINK_TO_DOCUMENTATION]))).
Proof. vm_compute. reflexivity. Qed.

(** [[("home", 200, "XYZ")]] fails validation with the unknown-http-method
    message for ["XYZ"]. *)
Example xyz_example :
  prepare_configuration demo_rt
    (VTuple [VTuple [VStr "home"; VInt 200; VStr "XYZ"]]) ∅ =
  (∅, Raise (Exn ImproperlyConfigured
               (join nl [UNKNOWN_HTTP_METHOD_MSG "XYZ"; LINK_TO_DOCUMENTATION]))).
Proof. vm_compute. reflexivity. Qed.
